(** * A shallow embedding of the RAG service core (knoguchi/rag)

    The development follows the Go packages of the repository:

    - [GoLib]       the parts of the Go standard library the code calls
                    ([strings], [unicode], [strconv], [regexp] patterns);
    - [Repository]  the domain records of [internal/repository];
    - [Ingestion]   the chunker of [internal/ingestion];
    - [Vectorstore], [Reranker], [Memory], [Llm]  the provider packages;
    - [Service]     tenant validation and the query pipeline of
                    [internal/service];
    - [Documents]   the document store and the ingestion handlers of
                    [internal/service/document.go].

    The properties follow the model: the notions their statements use,
    the data of the examples, and one module of facts per package.

    Conventions.  A Go [string] is modelled by the list of its runes
    (Unicode code points, [Z]), that is, by the decoded form of a valid
    UTF-8 string; byte lengths are recovered with [utf8Len].  Go's [int]
    is [Z]: every integer the code computes is bounded by the length of
    a text or by a configured size, so 64-bit wrap-around is never
    reached.  [float32] and [float64] values are binary64 floats (every
    binary32 value is one, and comparisons agree).  Wall-clock
    timestamps are left out of the records.  Loops whose trip count is
    not the length of a list carry a fuel argument and return [None]
    when it runs out; the theorems prove that it never does. *)

From Stdlib Require Import ZArith List Ascii String Bool Lia.
From Stdlib Require Import Floats.PrimFloat Numbers.Cyclic.Int63.Uint63.
From Stdlib Require Import Sorting.Sorted Sorting.Permutation.
From Stdlib Require Import Numbers.DecimalString.
From stdpp Require Import base option list gmap relations.

Open Scope Z_scope.

Abbreviation rune := Z (only parsing).
Abbreviation gostring := (list Z) (only parsing).

(** ** The Go standard library *)
Module GoLib.

(** A string literal of the source, as runes (ASCII literals only). *)
Definition str (s : string) : gostring :=
  map (fun a => Z.of_N (N_of_ascii a)) (list_ascii_of_string s).

(** [len(xs)] of a slice. *)
Definition len {A} (l : list A) : Z := Z.of_nat (length l).

(** [xs[i:j]] for [0 <= i <= j <= len(xs)]. *)
Definition slice {A} (l : list A) (i j : Z) : list A :=
  take (Z.to_nat (j - i)) (drop (Z.to_nat i) l).

Definition nonEmpty {A} (l : list A) : bool :=
  match l with [] => false | _ => true end.

Definition streq (a b : gostring) : bool := bool_decide (a = b).

(** [unicode.IsSpace]. *)
Definition unicode_IsSpace (r : rune) : bool :=
  (r =? 9) || (r =? 10) || (r =? 11) || (r =? 12) || (r =? 13) || (r =? 32)
  || (r =? 133) || (r =? 160) || (r =? 5760)
  || ((8192 <=? r) && (r <=? 8202))
  || (r =? 8232) || (r =? 8233) || (r =? 8239) || (r =? 8287) || (r =? 12288).

(** The classes [\s], [\w] and [\d] of Go's [regexp] (RE2: ASCII only). *)
Definition reSpace (r : rune) : bool :=
  (r =? 9) || (r =? 10) || (r =? 12) || (r =? 13) || (r =? 32).
Definition reDigit (r : rune) : bool := (48 <=? r) && (r <=? 57).
Definition reWord (r : rune) : bool :=
  reDigit r || ((65 <=? r) && (r <=? 90)) || ((97 <=? r) && (r <=? 122)) || (r =? 95).

(** Number of bytes of the UTF-8 encoding of a rune. *)
Definition utf8Len (r : rune) : Z :=
  if r <? 128 then 1 else if r <? 2048 then 2 else if r <? 65536 then 3 else 4.

(** [len(s)] of a string: its length in bytes. *)
Definition byteLen (s : gostring) : Z :=
  fold_right (fun r n => utf8Len r + n) 0 s.

Fixpoint takeWhile {A} (p : A -> bool) (l : list A) : list A :=
  match l with
  | [] => []
  | x :: l' => if p x then x :: takeWhile p l' else []
  end.

Fixpoint dropWhile {A} (p : A -> bool) (l : list A) : list A :=
  match l with
  | [] => []
  | x :: l' => if p x then dropWhile p l' else l
  end.

(** [strings.TrimSpace]. *)
Definition strings_TrimSpace (s : gostring) : gostring :=
  rev (dropWhile unicode_IsSpace (rev (dropWhile unicode_IsSpace s))).

(** [strings.Fields]: the maximal runs of non-space runes.  [cur] holds
    the field being read, last rune first. *)
Fixpoint fieldsFrom (cur : gostring) (s : gostring) : list gostring :=
  match s with
  | [] => match cur with [] => [] | _ => [rev cur] end
  | r :: s' =>
      if unicode_IsSpace r then
        match cur with
        | [] => fieldsFrom [] s'
        | _ => rev cur :: fieldsFrom [] s'
        end
      else fieldsFrom (r :: cur) s'
  end.

Definition strings_Fields (s : gostring) : list gostring := fieldsFrom [] s.

(** [strings.Join]. *)
Fixpoint strings_Join (parts : list gostring) (sep : gostring) : gostring :=
  match parts with
  | [] => []
  | [p] => p
  | p :: rest => p ++ sep ++ strings_Join rest sep
  end.

(** [strings.HasPrefix] and [strings.HasSuffix]. *)
Fixpoint strings_HasPrefix (s prefix : gostring) : bool :=
  match prefix, s with
  | [], _ => true
  | _ :: _, [] => false
  | p :: prefix', c :: s' => (c =? p) && strings_HasPrefix s' prefix'
  end.

Definition strings_HasSuffix (s suffix : gostring) : bool :=
  strings_HasPrefix (rev s) (rev suffix).

(** [strings.Repeat] for a non-negative count. *)
Definition strings_Repeat (s : gostring) (count : Z) : gostring :=
  concat (repeat s (Z.to_nat count)).

(** [strings.Index]: the rest of [s] after the first occurrence of
    [sub], with the text before it, or [None] (Go's [-1]). *)
Fixpoint indexFrom (before : gostring) (s sub : gostring)
  : option (gostring * gostring) :=
  if strings_HasPrefix s sub then Some (rev before, drop (length sub) s)
  else match s with
       | [] => None
       | c :: s' => indexFrom (c :: before) s' sub
       end.

Definition strings_Index (s sub : gostring) : option (gostring * gostring) :=
  indexFrom [] s sub.

(** [strings.Trim(s, cutset)]. *)
Definition inCutset (cutset : gostring) (r : rune) : bool :=
  existsb (Z.eqb r) cutset.

Definition strings_Trim (s cutset : gostring) : gostring :=
  rev (dropWhile (inCutset cutset) (rev (dropWhile (inCutset cutset) s))).

(** [strings.ToLower].  ASCII letters are mapped here; the case table of
    the Unicode database for the other runes ([unicode.ToLower]) is
    outside the repository and is the parameter [unicodeLower]. *)
Definition toLowerRune (unicodeLower : rune -> rune) (r : rune) : rune :=
  if r <? 128 then (if (65 <=? r) && (r <=? 90) then r + 32 else r)
  else unicodeLower r.

Definition strings_ToLower (unicodeLower : rune -> rune) (s : gostring) : gostring :=
  map (toLowerRune unicodeLower) s.

(** [strconv.Itoa]. *)
Definition strconv_Itoa (n : Z) : gostring :=
  str (NilZero.string_of_int (Z.to_int n)).

(** The newline rune and the one-rune strings used below. *)
Definition NL : rune := 10.
Definition nl : gostring := [NL].
Definition nlnl : gostring := [NL; NL].
Definition space : gostring := [32].

(** *** The regular expressions of the chunker

    Each pattern of the source is matched by a function written for it;
    Go's [regexp] is leftmost-first (Perl-like) and the comments say why
    the function computes that match. *)

(** The lazy body of the code pattern (any runes, newlines included,
    as few as possible, before three backticks): the text before the
    first closing fence. *)
Definition fence : gostring := [96; 96; 96].

Fixpoint findFence (before : gostring) (s : gostring) : option gostring :=
  if strings_HasPrefix s fence then Some (rev before)
  else match s with
       | [] => None
       | c :: s' => findFence (c :: before) s'
       end.

(** The code pattern of [parseIntoBlocks] (flag [s]; three backticks,
    a group of [\w] runes, a newline, a lazy group of any runes, three
    backticks) anchored at the head of [s]: the matched text.  After
    the opening fence the [\w] group takes every word rune (giving some
    back cannot help, the next rune has to be the newline), and the
    lazy body stops at the first closing fence. *)
Definition matchCodeBlockAt (s : gostring) : option gostring :=
  if strings_HasPrefix s fence then
    let s1 := drop 3 s in
    let lang := takeWhile reWord s1 in
    match dropWhile reWord s1 with
    | c :: s2 =>
        if c =? NL then
          match findFence [] s2 with
          | Some body => Some (fence ++ lang ++ nl ++ body ++ fence)
          | None => None
          end
        else None
    | [] => None
    end
  else None.

(** Index of the last newline of a list of runes. *)
Fixpoint lastNewline (i : nat) (s : gostring) : option nat :=
  match s with
  | [] => None
  | c :: s' =>
      match lastNewline (S i) s' with
      | Some k => Some k
      | None => if c =? NL then Some i else None
      end
  end.

(** [\n\s*\n] anchored at the head of [s]: the length of the match.
    [\s*] first takes the whole run of [\s] runes after the newline and
    gives runes back until the next one is a newline, so the match ends
    at the last newline of that run. *)
Definition matchBlankAt (s : gostring) : option nat :=
  match s with
  | c :: s1 =>
      if c =? NL then
        match lastNewline 0 (takeWhile reSpace s1) with
        | Some k => Some (S (S k))
        | None => None
        end
      else None
  | [] => None
  end.

(** [regexp.MustCompile(`\n\s*\n`).Split(s, -1)] for a non-empty [s]:
    the texts between the successive non-overlapping matches, the last
    one included.  [skip] counts the runes of the current match still to
    be passed over, [cur] is the piece being read. *)
Fixpoint splitBlankFrom (skip : nat) (cur : gostring) (s : gostring)
  : list gostring :=
  match s with
  | [] => [cur]
  | c :: s' =>
      match skip with
      | S k => splitBlankFrom k cur s'
      | O =>
          match matchBlankAt s with
          | Some n => cur :: splitBlankFrom (Nat.pred n) [] s'
          | None => splitBlankFrom O (cur ++ [c]) s'
          end
      end
  end.

Definition splitBlankLines (s : gostring) : list gostring :=
  splitBlankFrom O [] s.

(** The rune at which group 2 of the header pattern starts when the run
    of [\s] after the hashes reaches the end of the text: [\s+] gives
    runes back until the next one is not a newline. *)
Fixpoint lastNonNewlineTail (s : gostring) : option gostring :=
  match s with
  | [] => None
  | c :: s' =>
      match lastNonNewlineTail s' with
      | Some t => Some t
      | None => if c =? NL then None else Some s
      end
  end.

(** [(?m)^(#{1,6})\s+(.+)$] anchored at a line start: groups 1 and 2.
    [#{1,6}] must take all the hashes (after fewer, the next rune is a
    hash and not [\s]), [\s+] takes the longest run that leaves a rune
    other than a newline behind it, and [.+] runs to the end of that
    line, where [$] holds. *)
Definition matchHeaderAt (s : gostring) : option (gostring * gostring) :=
  let hashes := takeWhile (Z.eqb 35) s in
  let h := length hashes in
  if ((1 <=? h) && (h <=? 6))%nat then
    let t := dropWhile (Z.eqb 35) s in
    match takeWhile reSpace t with
    | [] => None
    | w0 :: ws =>
        match dropWhile reSpace t with
        | (_ :: _) as t' => Some (hashes, takeWhile (fun c => negb (c =? NL)) t')
        | [] =>
            match lastNonNewlineTail ws with
            | Some t' => Some (hashes, takeWhile (fun c => negb (c =? NL)) t')
            | None => None
            end
        end
    end
  else None.

(** [FindStringSubmatch] of the header pattern: the first line start at
    which it matches.  [atLineStart] tells whether the head of [s] is at
    the start of the text or right after a newline. *)
Fixpoint findHeaderFrom (atLineStart : bool) (s : gostring)
  : option (gostring * gostring) :=
  match (if atLineStart then matchHeaderAt s else None) with
  | Some m => Some m
  | None =>
      match s with
      | [] => None
      | c :: s' => findHeaderFrom (c =? NL) s'
      end
  end.

Definition findHeader (s : gostring) : option (gostring * gostring) :=
  findHeaderFrom true s.

(** The lines of a text ([strings.Split(s, "\n")]). *)
Fixpoint linesFrom (cur : gostring) (s : gostring) : list gostring :=
  match s with
  | [] => [cur]
  | c :: s' => if c =? NL then cur :: linesFrom [] s' else linesFrom (cur ++ [c]) s'
  end.

Definition lines (s : gostring) : list gostring := linesFrom [] s.

(** [(?m)^\|.+\|$] matches a text when one of its lines starts and ends
    with a pipe and has a rune or more between them. *)
Definition isPipeRow (line : gostring) : bool :=
  (3 <=? len line) && strings_HasPrefix line [124] && strings_HasSuffix line [124].

Definition matchTable (s : gostring) : bool := existsb isPipeRow (lines s).

(** [^\d+\.\s] on a text. *)
Definition matchNumbered (s : gostring) : bool :=
  match takeWhile reDigit s, dropWhile reDigit s with
  | _ :: _, dot :: sp :: _ => (dot =? 46) && reSpace sp
  | _, _ => false
  end.

End GoLib.

(** ** internal/repository: the domain records *)
Module Repository.

(** [uuid.UUID], by its canonical string. *)
Abbreviation UUID := (list Z) (only parsing).

Record ChunkerConfig := mkChunkerConfig {
  Method : gostring;       (* semantic, fixed, sentence *)
  TargetSize : Z;          (* target tokens per chunk *)
  MaxSize : Z;             (* max tokens per chunk *)
  Overlap : Z              (* overlap tokens *)
}.

Record TenantConfig := mkTenantConfig {
  EmbeddingModel : gostring;
  LLMModel : gostring;
  Chunker : ChunkerConfig;
  TopK : Z;
  MinScore : float;
  SystemPrompt : gostring;
  RerankerEnabled : bool
}.

Record TenantUsage := mkTenantUsage {
  DocumentCount : Z;
  ChunkCount : Z;
  QueryCountMonth : Z
}.

Record Tenant := mkTenant {
  Tenant_ID : UUID;
  Tenant_Name : gostring;
  Tenant_APIKey : gostring;
  Tenant_Config : TenantConfig;
  Tenant_Usage : TenantUsage
}.

Record Document := mkDocument {
  Document_ID : UUID;
  Document_TenantID : UUID;
  Document_Source : gostring;
  Document_Title : gostring;
  Document_ContentHash : gostring;
  Document_ChunkCount : Z;
  Document_Status : gostring;
  Document_ErrorMessage : gostring;
  Document_Metadata : gmap gostring gostring
}.

Record DocumentChunk := mkDocumentChunk {
  DocumentChunk_ID : UUID;
  DocumentChunk_DocumentID : UUID;
  DocumentChunk_ChunkIndex : Z;
  DocumentChunk_Content : gostring;
  DocumentChunk_Metadata : gmap gostring gostring
}.

End Repository.

(** ** internal/ingestion: the chunker *)
Module Ingestion.
Import GoLib Repository.

Record Chunk := mkChunk {
  Content : gostring;
  Index : Z;
  Metadata : gmap gostring gostring
}.

Record Chunker := mkChunker { config : ChunkerConfig }.

(** [NewChunker]: defaults for the fields that are not set. *)
Definition NewChunker (config : ChunkerConfig) : Chunker :=
  let config :=
    if TargetSize config <=? 0
    then mkChunkerConfig (Method config) 512 (MaxSize config) (Overlap config)
    else config in
  let config :=
    if MaxSize config <=? 0
    then mkChunkerConfig (Method config) (TargetSize config) 1024 (Overlap config)
    else config in
  let config :=
    if Overlap config <? 0
    then mkChunkerConfig (Method config) (TargetSize config) (MaxSize config) 50
    else config in
  let config :=
    if negb (nonEmpty (Method config))
    then mkChunkerConfig (str "semantic") (TargetSize config) (MaxSize config) (Overlap config)
    else config in
  mkChunker config.

Definition intToString (n : Z) : gostring := strconv_Itoa n.

(** [estimateTokens]: the word count is the token proxy. *)
Definition estimateTokens (text : gostring) : Z := len (strings_Fields text).

(** The stride of the fixed windows ([chunkFixed], [splitLongSentence]). *)
Definition windowStep (targetWords overlapWords : Z) : Z :=
  let step := targetWords - overlapWords in
  if step <=? 0 then
    let step := Z.quot targetWords 2 in
    if step <=? 0 then 1 else step
  else step.

(** *** Fixed chunking *)

(** The loop of [chunkFixed], from index [i] with [chunks] emitted. *)
Fixpoint chunkFixedLoop (fuel : nat) (c : Chunker) (words : list gostring)
    (i : Z) (chunks : list Chunk) : option (list Chunk) :=
  if i <? len words then
    match fuel with
    | O => None
    | S fuel' =>
        let targetWords := TargetSize (config c) in
        let overlapWords := Overlap (config c) in
        let end_ := i + targetWords in
        let end_ := if end_ >? len words then len words else end_ in
        let chunkWords := slice words i end_ in
        let chunkContent := strings_Join chunkWords space in
        let chunks := chunks ++
          [ {| Content := chunkContent;
               Index := len chunks;
               Metadata := list_to_map
                 [ (str "method", str "fixed");
                   (str "word_count", intToString (len chunkWords)) ] |} ] in
        let i := i + windowStep targetWords overlapWords in
        if end_ >=? len words then Some chunks
        else chunkFixedLoop fuel' c words i chunks
    end
  else Some chunks.

Definition chunkFixed (c : Chunker) (content : gostring) : option (list Chunk) :=
  let words := strings_Fields content in
  if len words =? 0 then Some []
  else chunkFixedLoop (S (length words)) c words 0 [].

(** *** Sentence chunking *)

Definition abbreviations : list gostring :=
  map str [ "mr."; "mrs."; "ms."; "dr."; "prof.";
            "inc."; "ltd."; "corp.";
            "etc."; "e.g."; "i.e.";
            "vs."; "v.";
            "st."; "ave."; "blvd.";
            "no."; "vol."; "pg." ]%string.

Definition isTerminal (r : rune) : bool := (r =? 46) || (r =? 33) || (r =? 63).

Section Sentences.
Variable unicodeLower : rune -> rune.

(** [isAbbreviation]: the text ends with a common abbreviation. *)
Definition isAbbreviation (text : gostring) : bool :=
  let lower := strings_ToLower unicodeLower text in
  existsb (fun abbr => strings_HasSuffix lower abbr) abbreviations.

(** The loop of [splitSentences] over the runes still to read:
    [current] is the builder, [sentences] the sentences found. *)
Fixpoint splitSentencesLoop (runes : gostring) (current : gostring)
    (sentences : list gostring) : list gostring :=
  match runes with
  | [] =>
      let remaining := strings_TrimSpace current in
      if nonEmpty remaining then sentences ++ [remaining] else sentences
  | r :: rest =>
      let current := current ++ [r] in
      if isTerminal r
         && match rest with [] => true | r' :: _ => unicode_IsSpace r' end
      then
        let sentence := strings_TrimSpace current in
        if nonEmpty sentence && negb (isAbbreviation sentence)
        then splitSentencesLoop rest [] (sentences ++ [sentence])
        else splitSentencesLoop rest current sentences
      else splitSentencesLoop rest current sentences
  end.

Definition splitSentences (text : gostring) : list gostring :=
  let text := strings_TrimSpace text in
  if nonEmpty text then splitSentencesLoop text [] [] else [].

(** [createSentenceChunk]. *)
Definition createSentenceChunk (sentences : list gostring) (index : Z) : Chunk :=
  let content := strings_Join sentences space in
  {| Content := strings_TrimSpace content;
     Index := index;
     Metadata := list_to_map
       [ (str "method", str "sentence");
         (str "sentence_count", intToString (len sentences));
         (str "word_count", intToString (len (strings_Fields content))) ] |}.

(** The backwards loop of [calculateSentenceOverlap]; [backwards] holds
    the sentences not yet visited, last one first. *)
Fixpoint overlapLoop (overlap : Z) (backwards : list gostring)
    (overlapSentences : list gostring) (overlapWords : Z)
  : list gostring * Z :=
  match backwards with
  | [] => (overlapSentences, overlapWords)
  | sentence :: rest =>
      if overlapWords <? overlap then
        let sentenceWords := len (strings_Fields sentence) in
        overlapLoop overlap rest (sentence :: overlapSentences)
                    (overlapWords + sentenceWords)
      else (overlapSentences, overlapWords)
  end.

Definition calculateSentenceOverlap (c : Chunker) (sentences : list gostring)
  : list gostring * Z :=
  if (Overlap (config c) <=? 0) || (len sentences =? 0) then ([], 0)
  else overlapLoop (Overlap (config c)) (rev sentences) [] 0.

(** The loop of [splitLongSentence]. *)
Fixpoint splitLongSentenceLoop (fuel : nat) (c : Chunker) (words : list gostring)
    (startIndex : Z) (i : Z) (chunks : list Chunk) : option (list Chunk) :=
  if i <? len words then
    match fuel with
    | O => None
    | S fuel' =>
        let end_ := i + TargetSize (config c) in
        let end_ := if end_ >? len words then len words else end_ in
        let chunkWords := slice words i end_ in
        let content := strings_Join chunkWords space in
        let chunks := chunks ++
          [ {| Content := content;
               Index := startIndex + len chunks;
               Metadata := list_to_map
                 [ (str "method", str "sentence");
                   (str "word_count", intToString (len chunkWords));
                   (str "split", str "true") ] |} ] in
        let i := i + windowStep (TargetSize (config c)) (Overlap (config c)) in
        if end_ >=? len words then Some chunks
        else splitLongSentenceLoop fuel' c words startIndex i chunks
    end
  else Some chunks.

Definition splitLongSentence (c : Chunker) (sentence : gostring) (startIndex : Z)
  : option (list Chunk) :=
  let words := strings_Fields sentence in
  splitLongSentenceLoop (S (length words)) c words startIndex 0 [].

(** The loop of [chunkSentence] over the sentences still to place. *)
Fixpoint chunkSentenceLoop (c : Chunker) (sentences : list gostring)
    (chunks : list Chunk) (currentSentences : list gostring)
    (currentWordCount : Z) : option (list Chunk) :=
  match sentences with
  | [] =>
      if 0 <? len currentSentences
      then Some (chunks ++ [createSentenceChunk currentSentences (len chunks)])
      else Some chunks
  | sentence :: rest =>
      let sentenceWords := len (strings_Fields sentence) in
      (* adding the sentence would exceed the max size: flush *)
      let '(chunks, currentSentences, currentWordCount) :=
        if (currentWordCount + sentenceWords >? MaxSize (config c))
           && (currentWordCount >? 0)
        then
          let chunks := chunks ++ [createSentenceChunk currentSentences (len chunks)] in
          let '(s, n) := calculateSentenceOverlap c currentSentences in
          (chunks, s, n)
        else (chunks, currentSentences, currentWordCount) in
      if sentenceWords >? MaxSize (config c) then
        (* a single sentence above the max size is split by words *)
        let '(chunks, currentSentences, currentWordCount) :=
          if currentWordCount >? 0
          then (chunks ++ [createSentenceChunk currentSentences (len chunks)], [], 0)
          else (chunks, currentSentences, currentWordCount) in
        match splitLongSentence c sentence (len chunks) with
        | None => None
        | Some splitChunks =>
            chunkSentenceLoop c rest (chunks ++ splitChunks)
                              currentSentences currentWordCount
        end
      else
        let currentSentences := currentSentences ++ [sentence] in
        let currentWordCount := currentWordCount + sentenceWords in
        if currentWordCount >=? TargetSize (config c) then
          let chunks := chunks ++ [createSentenceChunk currentSentences (len chunks)] in
          let '(s, n) := calculateSentenceOverlap c currentSentences in
          chunkSentenceLoop c rest chunks s n
        else chunkSentenceLoop c rest chunks currentSentences currentWordCount
  end.

Definition chunkSentence (c : Chunker) (content : gostring) : option (list Chunk) :=
  let sentences := splitSentences content in
  if len sentences =? 0 then Some []
  else chunkSentenceLoop c sentences [] [] 0.

End Sentences.

(** *** Semantic chunking (markdown-aware) *)

(** The five values of [contentBlock.blockType]. *)
Inductive blockKind := header_ | paragraph_ | code_ | table_ | list_.

Definition blockKind_eqb (a b : blockKind) : bool :=
  match a, b with
  | header_, header_ | paragraph_, paragraph_ | code_, code_
  | table_, table_ | list_, list_ => true
  | _, _ => false
  end.

Record contentBlock := mkBlock {
  blockType : blockKind;
  content : gostring;
  header : gostring;        (* current section header context *)
  level : Z                 (* header level (1-6) *)
}.

Definition placeholder (i : Z) : gostring :=
  str "___CODE_BLOCK_" ++ strconv_Itoa i ++ str "___".

(** The first loop of [parseIntoBlocks]: every match of the code pattern
    ([FindAllStringSubmatchIndex], non-overlapping, leftmost first) is
    replaced by the placeholder that carries its rank, and the
    placeholder is mapped to the matched text.  [skip] counts the runes
    of the current match still to be passed over and [i] is the rank of
    the next match. *)
Fixpoint replaceCodeBlocks (skip : nat) (i : Z) (s : gostring)
  : gostring * gmap gostring gostring :=
  match s with
  | [] => ([], ∅)
  | r :: s' =>
      match skip with
      | S k => replaceCodeBlocks k i s'
      | O =>
          match matchCodeBlockAt s with
          | Some codeContent =>
              let '(processed, codeBlockMap) :=
                replaceCodeBlocks (Nat.pred (length codeContent)) (i + 1) s' in
              (placeholder i ++ processed,
               <[placeholder i := codeContent]> codeBlockMap)
          | None =>
              let '(processed, codeBlockMap) := replaceCodeBlocks O i s' in
              (r :: processed, codeBlockMap)
          end
      end
  end.

(** [isListBlock]. *)
Definition isListBlock (content : gostring) : bool :=
  match lines content with
  | [] => false
  | line0 :: _ =>
      let firstLine := strings_TrimSpace line0 in
      strings_HasPrefix firstLine (str "- ")
      || strings_HasPrefix firstLine (str "* ")
      || strings_HasPrefix firstLine (str "+ ")
      || matchNumbered firstLine
  end.

(** The loop of [parseIntoBlocks] over the paragraphs. *)
Fixpoint parseParagraphs (codeBlockMap : gmap gostring gostring)
    (paragraphs : list gostring) (currentHeader : gostring) (currentLevel : Z)
  : list contentBlock :=
  match paragraphs with
  | [] => []
  | para :: rest =>
      let para := strings_TrimSpace para in
      if negb (nonEmpty para) then
        parseParagraphs codeBlockMap rest currentHeader currentLevel
      else
        let paragraphBlocks (_ : unit) :=
          match findHeader para with
          | Some (hashes, title) =>
              let currentLevel := len hashes in
              let currentHeader := title in
              mkBlock header_ para currentHeader currentLevel
                :: parseParagraphs codeBlockMap rest currentHeader currentLevel
          | None =>
              if matchTable para then
                mkBlock table_ para currentHeader currentLevel
                  :: parseParagraphs codeBlockMap rest currentHeader currentLevel
              else if isListBlock para then
                mkBlock list_ para currentHeader currentLevel
                  :: parseParagraphs codeBlockMap rest currentHeader currentLevel
              else
                mkBlock paragraph_ para currentHeader currentLevel
                  :: parseParagraphs codeBlockMap rest currentHeader currentLevel
          end in
        if strings_HasPrefix para (str "___CODE_BLOCK_")
           && strings_HasSuffix para (str "___")
        then
          match codeBlockMap !! para with
          | Some codeContent =>
              mkBlock code_ codeContent currentHeader currentLevel
                :: parseParagraphs codeBlockMap rest currentHeader currentLevel
          | None => paragraphBlocks tt
          end
        else paragraphBlocks tt
  end.

(** [parseIntoBlocks]. *)
Definition parseIntoBlocks (c : Chunker) (content : gostring) : list contentBlock :=
  let '(processedContent, codeBlockMap) := replaceCodeBlocks O 0 content in
  let paragraphs := splitBlankLines processedContent in
  parseParagraphs codeBlockMap paragraphs [] 0.

(** The variables of [groupBlocksIntoChunks] that its closure
    [flushChunk] reads and writes. *)
Record groupState := mkGroupState {
  chunks : list Chunk;
  currentBlocks : list contentBlock;
  currentWords : Z;
  currentHeader : gostring
}.

(** The loop of [flushChunk] that builds [contentParts]; [first] is
    [currentBlocks[0]]. *)
Fixpoint contentPartsLoop (first : contentBlock) (blocks : list contentBlock)
    (headerAdded : bool) : list gostring :=
  match blocks with
  | [] => []
  | block :: rest =>
      if nonEmpty (header block) && negb headerAdded then
        let prefix := strings_Repeat (str "#") (level block) ++ str " " ++ header block in
        if negb (blockKind_eqb (blockType first) header_)
           || negb (streq (content first) prefix)
        then (str "[Section: " ++ header block ++ str "]")
               :: content block :: contentPartsLoop first rest true
        else content block :: contentPartsLoop first rest headerAdded
      else content block :: contentPartsLoop first rest headerAdded
  end.

Definition hasKind (k : blockKind) (blocks : list contentBlock) : bool :=
  existsb (fun b => blockKind_eqb (blockType b) k) blocks.

(** The closure [flushChunk]. *)
Definition flushChunk (st : groupState) : groupState :=
  match currentBlocks st with
  | [] => st
  | first :: _ =>
      let contentParts := contentPartsLoop first (currentBlocks st) false in
      let content := strings_Join contentParts nlnl in
      let wordCount := len (strings_Fields content) in
      let metadata : gmap gostring gostring :=
        list_to_map [ (str "method", str "semantic");
                      (str "word_count", intToString wordCount) ] in
      let metadata :=
        if hasKind code_ (currentBlocks st)
        then <[str "contains_code" := str "true"]> metadata else metadata in
      let metadata :=
        if hasKind table_ (currentBlocks st)
        then <[str "contains_table" := str "true"]> metadata else metadata in
      let metadata :=
        if nonEmpty (currentHeader st)
        then <[str "section" := currentHeader st]> metadata else metadata in
      mkGroupState
        (chunks st ++ [ {| Content := strings_TrimSpace content;
                           Index := len (chunks st);
                           Metadata := metadata |} ])
        [] 0 (currentHeader st)
  end.

Definition withSection (block : contentBlock) (content : gostring) : gostring :=
  if nonEmpty (header block)
  then str "[Section: " ++ header block ++ str "]" ++ nlnl ++ content
  else content.

Definition splitChunk (block : contentBlock) (currentSentences : list gostring)
    (currentWords : Z) (index : Z) : Chunk :=
  let content := withSection block (strings_Join currentSentences space) in
  {| Content := strings_TrimSpace content;
     Index := index;
     Metadata := list_to_map
       [ (str "method", str "semantic");
         (str "word_count", intToString currentWords);
         (str "section", header block);
         (str "split", str "true") ] |}.

Section Semantic.
Variable unicodeLower : rune -> rune.

(** The loop of [splitLargeBlock] over the sentences of the block. *)
Fixpoint splitLargeBlockLoop (c : Chunker) (block : contentBlock)
    (sentences : list gostring) (chunks : list Chunk)
    (currentSentences : list gostring) (currentWords : Z) : list Chunk :=
  match sentences with
  | [] =>
      if 0 <? len currentSentences
      then chunks ++ [splitChunk block currentSentences currentWords (len chunks)]
      else chunks
  | sentence :: rest =>
      let sentenceWords := len (strings_Fields sentence) in
      let '(chunks, currentSentences, currentWords) :=
        if (currentWords + sentenceWords >? TargetSize (config c))
           && (currentWords >? 0)
        then (chunks ++ [splitChunk block currentSentences currentWords (len chunks)],
              [], 0)
        else (chunks, currentSentences, currentWords) in
      splitLargeBlockLoop c block rest chunks
        (currentSentences ++ [sentence]) (currentWords + sentenceWords)
  end.

Definition splitLargeBlock (c : Chunker) (block : contentBlock) : list Chunk :=
  splitLargeBlockLoop c block (splitSentences unicodeLower (content block)) [] [] 0.

(** The loop of [groupBlocksIntoChunks] over the blocks. *)
Fixpoint groupBlocksLoop (c : Chunker) (blocks : list contentBlock)
    (st : groupState) : groupState :=
  match blocks with
  | [] => st
  | block :: rest =>
      let blockWords := len (strings_Fields (content block)) in
      let st :=
        if blockKind_eqb (blockType block) header_
        then mkGroupState (chunks st) (currentBlocks st) (currentWords st) (header block)
        else st in
      let isAtomic :=
        blockKind_eqb (blockType block) code_
        || blockKind_eqb (blockType block) table_ in
      let append (st : groupState) :=
        mkGroupState (chunks st) (currentBlocks st ++ [block])
                     (currentWords st + blockWords) (currentHeader st) in
      if blockWords >? MaxSize (config c) then
        let st := flushChunk st in
        if isAtomic then
          let st := mkGroupState (chunks st) (currentBlocks st ++ [block])
                                 (currentWords st) (currentHeader st) in
          groupBlocksLoop c rest (flushChunk st)
        else
          let splitChunks := splitLargeBlock c block in
          groupBlocksLoop c rest
            (mkGroupState (chunks st ++ splitChunks) (currentBlocks st)
                          (currentWords st) (currentHeader st))
      else if (currentWords st + blockWords >? TargetSize (config c))
              && (currentWords st >? 0) then
        if isAtomic && (currentWords st + blockWords <=? MaxSize (config c))
        then groupBlocksLoop c rest (flushChunk (append st))
        else groupBlocksLoop c rest (append (flushChunk st))
      else groupBlocksLoop c rest (append st)
  end.

Definition groupBlocksIntoChunks (c : Chunker) (blocks : list contentBlock)
  : list Chunk :=
  chunks (flushChunk (groupBlocksLoop c blocks (mkGroupState [] [] 0 []))).

(** The body of the loop of [addSemanticOverlap] for a chunk with a
    predecessor [prev] (the case [i > 0]). *)
Definition overlapChunk (c : Chunker) (prev chunk : Chunk) : Chunk :=
  if Overlap (config c) >? 0 then
    let prevWords := strings_Fields (Content prev) in
    if len prevWords >? 0 then
      let overlapCount := Overlap (config c) in
      let overlapCount :=
        if overlapCount >? len prevWords then len prevWords else overlapCount in
      let overlapWords := slice prevWords (len prevWords - overlapCount) (len prevWords) in
      let overlapText := strings_Join overlapWords space in
      if negb (strings_HasPrefix overlapText (str "[Section:")) then
        {| Content := str "[...] " ++ overlapText ++ nlnl ++ Content chunk;
           Index := Index chunk;
           Metadata := <[str "overlap_words" := intToString overlapCount]>
                         (<[str "has_overlap" := str "true"]> (Metadata chunk)) |}
      else chunk
    else chunk
  else chunk.

Fixpoint overlapLoopFrom (c : Chunker) (prev : Chunk) (rest : list Chunk)
  : list Chunk :=
  match rest with
  | [] => []
  | chunk :: rest' => overlapChunk c prev chunk :: overlapLoopFrom c chunk rest'
  end.

(** [addSemanticOverlap]. *)
Definition addSemanticOverlap (c : Chunker) (chunks : list Chunk) : list Chunk :=
  if len chunks <=? 1 then chunks
  else match chunks with
       | [] => []
       | chunk0 :: rest => chunk0 :: overlapLoopFrom c chunk0 rest
       end.

(** The renumbering loop of [chunkSemantic]. *)
Definition renumber (chunks : list Chunk) : list Chunk :=
  imap (fun i chunk => mkChunk (Content chunk) (Z.of_nat i) (Metadata chunk)) chunks.

(** [chunkSemantic]. *)
Definition chunkSemantic (c : Chunker) (content : gostring) : list Chunk :=
  let blocks := parseIntoBlocks c content in
  let chunks := groupBlocksIntoChunks c blocks in
  let chunks :=
    if Overlap (config c) >? 0 then addSemanticOverlap c chunks else chunks in
  renumber chunks.

(** [Chunker.Chunk]: the entry point. *)
Definition Chunker_Chunk (c : Chunker) (content : gostring) : option (list Chunk) :=
  let content := strings_TrimSpace content in
  if negb (nonEmpty content) then Some []
  else if streq (Method (config c)) (str "fixed") then chunkFixed c content
  else if streq (Method (config c)) (str "sentence") then chunkSentence unicodeLower c content
  else if streq (Method (config c)) (str "semantic") then Some (chunkSemantic c content)
  else Some (chunkSemantic c content).

End Semantic.

(** [ValidateChunkerConfig]: [None] is Go's [nil] error.  The texts of
    the error messages are kept without their formatted numbers. *)
Definition validMethod (m : gostring) : bool :=
  streq m (str "fixed") || streq m (str "semantic") || streq m (str "sentence").

Definition ValidateChunkerConfig (config : ChunkerConfig) : option string :=
  if nonEmpty (Method config) && negb (validMethod (Method config))
  then Some "invalid chunking method"%string
  else if TargetSize config <? 0 then Some "target_size cannot be negative"%string
  else if MaxSize config <? 0 then Some "max_size cannot be negative"%string
  else if (TargetSize config >? 0) && (MaxSize config >? 0)
          && (TargetSize config >? MaxSize config)
  then Some "target_size cannot be greater than max_size"%string
  else if Overlap config <? 0 then Some "overlap cannot be negative"%string
  else if (Overlap config >? 0) && (TargetSize config >? 0)
          && (Overlap config >=? TargetSize config)
  then Some "overlap must be less than target_size"%string
  else None.

(** [DefaultChunkerConfig]. *)
Definition DefaultChunkerConfig : ChunkerConfig :=
  mkChunkerConfig (str "semantic") 512 1024 50.

End Ingestion.

(** ** internal/vectorstore *)
Module Vectorstore.
Import GoLib.

Record SparseVector := mkSparseVector {
  Indices : list Z;
  Values : list float
}.

Record Chunk := mkChunk {
  Chunk_ID : gostring;
  Chunk_DocumentID : gostring;
  Chunk_TenantID : gostring;
  Chunk_Content : gostring;
  Chunk_Vector : list float;
  Chunk_SparseVector : option SparseVector;
  Chunk_Metadata : gmap gostring gostring
}.

Record SearchResult := mkSearchResult {
  ID : gostring;
  DocumentID : gostring;
  Content : gostring;
  Score : float;
  Metadata : gmap gostring gostring
}.

(** The two queries of the [VectorStore] interface that the query
    pipeline calls; [inl] carries Go's non-nil error. *)
Record VectorStore := mkVectorStore {
  Search : gostring -> list float -> Z -> float -> string + list SearchResult;
  HybridSearch : gostring -> list float -> option SparseVector -> Z -> float
                 -> string + list SearchResult
}.

(** A point of a Qdrant query response. *)
Record ScoredPoint := mkScoredPoint {
  Point_Id : gostring;
  Point_Score : float;
  Point_Payload : option (gmap gostring gostring)
}.

(** [collectionName]. *)
Definition collectionName (tenantID : gostring) : gostring :=
  str "tenant_" ++ tenantID.

(** The conversion of a response point that [Search] and [HybridSearch]
    share. *)
Definition pointToResult (point : ScoredPoint) : SearchResult :=
  match Point_Payload point with
  | Some payload =>
      {| ID := Point_Id point;
         DocumentID := default [] (payload !! str "document_id");
         Content := default [] (payload !! str "content");
         Score := Point_Score point;
         Metadata := delete (str "document_id") (delete (str "content") payload) |}
  | None =>
      {| ID := Point_Id point; DocumentID := []; Content := [];
         Score := Point_Score point; Metadata := ∅ |}
  end.

(** The loop of [QdrantStore.HybridSearch] over the engine's response:
    results below [minScore] are skipped on the client side. *)
Definition hybridResults (response : list ScoredPoint) (minScore : float)
  : list SearchResult :=
  filter (fun result => PrimFloat.leb minScore (Score result) = true)
         (map pointToResult response).

End Vectorstore.

(** ** internal/llm *)
Module Llm.

Record GenerateOptions := mkGenerateOptions {
  Model : gostring;
  SystemPrompt : gostring;
  Temperature : float;
  MaxTokens : Z
}.

Record StreamChunk := mkStreamChunk {
  Token : gostring;
  Done : bool;
  Error : option string
}.

(** The [LLM] interface.  The channel that [GenerateStream] returns is
    modelled by the finite list of the chunks it delivers before it is
    closed. *)
Record LLM := mkLLM {
  Generate : gostring -> GenerateOptions -> string + gostring;
  GenerateStream : gostring -> GenerateOptions -> string + list StreamChunk
}.

End Llm.

(** ** internal/memory: the conversation store *)
Module Memory.
Import GoLib.

Record Message := mkMessage {
  Role : gostring;       (* "user" or "assistant" *)
  Content : gostring
}.

(** The map of the store and its bound; the lock, the timestamps and the
    sweeper that evicts expired sessions are not modelled. *)
Record Store := mkStore {
  conversations : gmap gostring (list Message);
  maxMessages : Z
}.

(** [DefaultStore]. *)
Definition DefaultStore : Store := mkStore ∅ 20.

(** [addMessage] (for a non-negative bound). *)
Definition addMessage (s : Store) (sessionID role content : gostring) : Store :=
  let messages := default [] (conversations s !! sessionID) in
  let messages := messages ++ [mkMessage role content] in
  let messages :=
    if len messages >? maxMessages s
    then slice messages (len messages - maxMessages s) (len messages)
    else messages in
  mkStore (<[sessionID := messages]> (conversations s)) (maxMessages s).

Definition AddUserMessage (s : Store) (sessionID content : gostring) : Store :=
  addMessage s sessionID (str "user") content.

Definition AddAssistantMessage (s : Store) (sessionID content : gostring) : Store :=
  addMessage s sessionID (str "assistant") content.

(** [GetHistory]; Go's [nil] is the empty list. *)
Definition GetHistory (s : Store) (sessionID : gostring) : list Message :=
  default [] (conversations s !! sessionID).

(** [GetRecentHistory]. *)
Definition GetRecentHistory (s : Store) (sessionID : gostring) (n : Z)
  : list Message :=
  let history := GetHistory s sessionID in
  if len history <=? n then history
  else slice history (len history - n) (len history).

(** [FormatForPrompt]. *)
Fixpoint FormatForPrompt (messages : list Message) : gostring :=
  match messages with
  | [] => []
  | msg :: rest =>
      (if streq (Role msg) (str "user")
       then str "User: " ++ Content msg ++ nl
       else if streq (Role msg) (str "assistant")
       then str "Assistant: " ++ Content msg ++ nl
       else [])
      ++ FormatForPrompt rest
  end.

End Memory.

(** ** internal/reranker *)
Module Reranker.
Import GoLib Vectorstore.

Record ScoredResult := mkScoredResult {
  Result : SearchResult;        (* the embedded [vectorstore.SearchResult] *)
  RerankerScore : float
}.

(** The [Reranker] interface: query, results and topK. *)
Definition Reranker : Type :=
  gostring -> list SearchResult -> Z -> string + list ScoredResult.

Record relevanceScore := mkRelevanceScore {
  DocIndex : Z;
  Score : float
}.

Record LLMReranker := mkLLMReranker {
  llmClient : Llm.LLM;
  model : gostring
}.

(** [content[:n]] of a string, a slice by bytes, read back as runes:
    the bytes of a rune that the cut splits decode to U+FFFD each. *)
Fixpoint truncateBytes (n : Z) (s : gostring) : gostring :=
  match s with
  | [] => []
  | r :: s' =>
      if utf8Len r <=? n then r :: truncateBytes (n - utf8Len r) s'
      else repeat 65533 (Z.to_nat n)
  end.

(** [buildRerankPrompt]. *)
Definition promptHead : gostring :=
  str "You are a relevance scoring system. Score each document's relevance to the query."
  ++ nlnl.

Definition promptTail : gostring :=
  str "Score each document from 0.0 to 1.0 based on relevance to the query." ++ nl
  ++ str "Output ONLY valid JSON in this exact format:" ++ nl
  ++ str "{" ++ [34] ++ str "scores" ++ [34] ++ str ": [{" ++ [34] ++ str "doc_index"
  ++ [34] ++ str ": 0, " ++ [34] ++ str "score" ++ [34] ++ str ": 0.9}, {" ++ [34]
  ++ str "doc_index" ++ [34] ++ str ": 1, " ++ [34] ++ str "score" ++ [34]
  ++ str ": 0.3}, ...]}" ++ nlnl
  ++ str "Be strict: irrelevant documents should score below 0.3, somewhat relevant 0.3-0.7, highly relevant above 0.7."
  ++ nl ++ str "Output only JSON, no explanation:".

Definition promptDoc (i : nat) (result : SearchResult) : gostring :=
  let content := Content result in
  let content :=
    if byteLen content >? 500 then truncateBytes 500 content ++ str "..."
    else content in
  str "[Doc " ++ strconv_Itoa (Z.of_nat i) ++ str "]: " ++ content ++ nlnl.

Definition buildRerankPrompt (query : gostring) (results : list SearchResult)
  : gostring :=
  promptHead ++ str "Query: " ++ query ++ nlnl
  ++ str "Documents to score:" ++ nl
  ++ concat (imap promptDoc results)
  ++ promptTail.

(** [fallbackScoring]: the original vector scores (for [0 <= topK]). *)
Definition fallbackScoring (results : list SearchResult) (topK : Z)
  : list ScoredResult :=
  let scoredResults := map (fun result => mkScoredResult result (Vectorstore.Score result)) results in
  if len scoredResults >? topK then take (Z.to_nat topK) scoredResults
  else scoredResults.

(** The clamp of [parseRerankResponse]. *)
Definition clampScore (score : float) : float :=
  let score := if PrimFloat.ltb score 0 then 0%float else score in
  if PrimFloat.ltb 1 score then 1%float else score.

(** The [less] function that [Rerank] hands to [sort.Slice], on the
    elements in place of their indices:
    [scoredResults[i].RerankerScore > scoredResults[j].RerankerScore]. *)
Definition higherScore (a b : ScoredResult) : bool :=
  PrimFloat.ltb (RerankerScore b) (RerankerScore a).

Section LLMReranker.
(** [json.Unmarshal] into a [rerankResponse]: the parsed [scores], or
    [None] for an error.  The decoder belongs to Go's library. *)
Variable json_Unmarshal : gostring -> option (list relevanceScore).
(** [sort.Slice] of Go's library, with the [less] function it is given.
    Go's sort is not stable: the order it leaves among the elements
    that [less] does not separate is not fixed. *)
Variable sort_Slice :
  (ScoredResult -> ScoredResult -> bool) -> list ScoredResult -> list ScoredResult.

(** The text between the markdown fences, when the response has some. *)
Definition unfence (response : gostring) : gostring :=
  match strings_Index response (str "```json") with
  | Some (_, rest) =>
      match strings_Index rest fence with
      | Some (inside, _) => inside
      | None => response
      end
  | None =>
      match strings_Index response fence with
      | Some (_, rest) =>
          match strings_Index rest fence with
          | Some (inside, _) => inside
          | None => response
          end
      | None => response
      end
  end.

(** [parseRerankResponse]. *)
Definition parseRerankResponse (response : gostring) (numResults : Z)
  : option (list float) :=
  let response := strings_TrimSpace response in
  let response := unfence response in
  let response := strings_TrimSpace response in
  match json_Unmarshal response with
  | None => None
  | Some parsed =>
      let scores := repeat 0.5%float (Z.to_nat numResults) in
      Some (fold_left
              (fun scores s =>
                 if (DocIndex s >=? 0) && (DocIndex s <? numResults)
                 then <[Z.to_nat (DocIndex s) := clampScore (Score s)]> scores
                 else scores)
              parsed scores)
  end.

(** [LLMReranker.Rerank] (for [0 <= topK]). *)
Definition Rerank (r : LLMReranker) : Reranker := fun query results topK =>
  if len results =? 0 then inr []
  else
    let topK := if len results <=? topK then len results else topK in
    let prompt := buildRerankPrompt query results in
    let opts := Llm.mkGenerateOptions (model r) [] 0%float 1024 in
    match Llm.Generate (llmClient r) prompt opts with
    | inl err => inl ("LLM reranking failed: " ++ err)%string
    | inr response =>
        match parseRerankResponse response (len results) with
        | None => inr (fallbackScoring results topK)
        | Some scores =>
            let scoredResults :=
              zip_with mkScoredResult results scores in
            let scoredResults := sort_Slice higherScore scoredResults in
            inr (if len scoredResults >? topK
                 then take (Z.to_nat topK) scoredResults
                 else scoredResults)
        end
    end.

End LLMReranker.

End Reranker.

(** ** internal/service: tenants and the query pipeline *)
Module Service.
Import GoLib Repository.

(** gRPC status codes that the services return. *)
Inductive Code := InvalidArgument | NotFound | Internal.

(** A non-nil error of a handler: a status code with its message (the
    formatted cause of a wrapped error is left out of the text). *)
Definition Status : Type := Code * string.

(** *** tenant.go *)

(** [validateTenantConfig]: [None] is Go's [nil] error. *)
Definition validateTenantConfig (config : TenantConfig) : option string :=
  if negb (nonEmpty (EmbeddingModel config))
  then Some "embedding_model is required"%string
  else if negb (nonEmpty (LLMModel config))
  then Some "llm_model is required"%string
  else if nonEmpty (Method (Chunker config))
          && negb (Ingestion.validMethod (Method (Chunker config)))
  then Some "invalid chunker method"%string
  else if TargetSize (Chunker config) <? 0
  then Some "chunker target_size cannot be negative"%string
  else if MaxSize (Chunker config) <? 0
  then Some "chunker max_size cannot be negative"%string
  else if (TargetSize (Chunker config) >? 0) && (MaxSize (Chunker config) >? 0)
          && (TargetSize (Chunker config) >? MaxSize (Chunker config))
  then Some "chunker target_size cannot be greater than max_size"%string
  else if Overlap (Chunker config) <? 0
  then Some "chunker overlap cannot be negative"%string
  else if TopK config <? 0
  then Some "top_k cannot be negative"%string
  else if PrimFloat.ltb (MinScore config) 0 || PrimFloat.ltb 1 (MinScore config)
  then Some "min_score must be between 0 and 1"%string
  else None.

Definition defaultSystemPrompt : gostring :=
  str "You are a concise knowledge assistant. Answer questions using ONLY the provided documents."
  ++ nlnl
  ++ str "IMPORTANT: Be brief and direct. Most answers should be 2-5 sentences."
  ++ nlnl
  ++ str "Rules:" ++ nl
  ++ str "- Give the direct answer first, then brief supporting details only if needed" ++ nl
  ++ str "- Do NOT include step-by-step instructions unless specifically asked" ++ nl
  ++ str "- Do NOT include code examples unless specifically asked for code" ++ nl
  ++ str "- If the documents don't cover the topic, say " ++ [34]
  ++ str "The documents don't cover this." ++ [34] ++ nl
  ++ str "- Never invent information not in the provided documents".

(** *** rag.go *)

(** The options of a request ([ragv1.QueryOptions]). *)
Record QueryOptions := mkQueryOptions {
  Options_TopK : Z;
  Options_MinScore : float;
  Options_SystemPrompt : gostring;
  Options_Temperature : float;
  Options_MaxTokens : Z
}.

Record QueryRequest := mkQueryRequest {
  TenantId : gostring;
  Query_ : gostring;                  (* the field [Query] *)
  Options : option QueryOptions;      (* [nil] when absent *)
  SessionId : gostring
}.

Record RetrievedChunk := mkRetrievedChunk {
  Chunk_DocumentId : gostring;
  Chunk_ChunkId : gostring;
  Chunk_Content : gostring;
  Chunk_Score : float;
  Chunk_Source : gostring;
  Chunk_Title : gostring;
  Chunk_Metadata : gmap gostring gostring
}.

(** [ragv1.QueryMetadata] without its three durations. *)
Record QueryMetadata := mkQueryMetadata {
  ChunksRetrieved : Z;
  Metadata_Model : gostring;
  PromptTokens : Z;
  CompletionTokens : Z
}.

Record QueryResponse := mkQueryResponse {
  Answer : gostring;
  Sources : list RetrievedChunk;
  Response_Metadata : QueryMetadata
}.

(** The tagged union [ragv1.QueryStreamResponse]. *)
Inductive QueryStreamResponse :=
| Event_Source (source : RetrievedChunk)
| Event_Token (token : gostring)
| Event_Metadata (metadata : QueryMetadata)
| Event_Error (code : string) (message : string).

(** The resolved options of a query. *)
Record queryOptions := mkOptions {
  topK : Z;
  minScore : float;
  systemPrompt : gostring;
  temperature : float;
  maxTokens : Z;
  model : gostring
}.

Record chunkContext := mkChunkContext {
  Context_Content : gostring;
  Context_Source : gostring;
  Context_Title : gostring;
  Context_Score : float;
  Context_Metadata : gmap gostring gostring
}.

(** The fields of [RAGService]; the conversation memory, which the
    handlers mutate, is passed as a state. *)
Record RAGService := mkRAGService {
  tenantRepo_GetByID : UUID -> string + Tenant;
  embedder_Embed : gostring -> string + list float;
  vectorDB : Vectorstore.VectorStore;
  llmClient : Llm.LLM;
  reranker : option Reranker.Reranker;
  useHybrid : bool;
  sparseModel : option (gostring -> option Vectorstore.SparseVector)
}.

(** The [float32] constant [0.3] of [buildQueryOptions]. *)
Definition temperatureDefault : float := 0x1.333334p-2%float.

(** [buildQueryOptions]. *)
Definition buildQueryOptions (tenant : Tenant) (opts : option QueryOptions)
  : queryOptions :=
  let cfg := Tenant_Config tenant in
  let options :=
    mkOptions (TopK cfg) (MinScore cfg) (SystemPrompt cfg)
              temperatureDefault 2048 (LLMModel cfg) in
  (* defaults if the tenant config has zero values *)
  let options :=
    if topK options <=? 0
    then mkOptions 4 (minScore options) (systemPrompt options)
                   (temperature options) (maxTokens options) (model options)
    else options in
  let options :=
    if PrimFloat.leb (minScore options) 0
    then mkOptions (topK options) 0.5%float (systemPrompt options)
                   (temperature options) (maxTokens options) (model options)
    else options in
  let options :=
    if negb (nonEmpty (systemPrompt options))
    then mkOptions (topK options) (minScore options) defaultSystemPrompt
                   (temperature options) (maxTokens options) (model options)
    else options in
  (* overrides of the request *)
  match opts with
  | None => options
  | Some opts =>
      let options :=
        if Options_TopK opts >? 0
        then mkOptions (Options_TopK opts) (minScore options) (systemPrompt options)
                       (temperature options) (maxTokens options) (model options)
        else options in
      let options :=
        if PrimFloat.ltb 0 (Options_MinScore opts)
        then mkOptions (topK options) (Options_MinScore opts) (systemPrompt options)
                       (temperature options) (maxTokens options) (model options)
        else options in
      let options :=
        if nonEmpty (Options_SystemPrompt opts)
        then mkOptions (topK options) (minScore options) (Options_SystemPrompt opts)
                       (temperature options) (maxTokens options) (model options)
        else options in
      let options :=
        if PrimFloat.ltb 0 (Options_Temperature opts)
        then mkOptions (topK options) (minScore options) (systemPrompt options)
                       (Options_Temperature opts) (maxTokens options) (model options)
        else options in
      if Options_MaxTokens opts >? 0
      then mkOptions (topK options) (minScore options) (systemPrompt options)
                     (temperature options) (Options_MaxTokens opts) (model options)
      else options
  end.

(** [buildRAGPrompt]. *)
Definition promptDoc (i : nat) (chunk : chunkContext) : gostring :=
  str "[Doc " ++ strconv_Itoa (Z.of_nat i + 1) ++ str "]"
  ++ (if nonEmpty (Context_Title chunk)
      then str " (Title: " ++ Context_Title chunk ++ str ")" else [])
  ++ (if nonEmpty (Context_Source chunk)
      then str " (Source: " ++ Context_Source chunk ++ str ")" else [])
  ++ nl ++ Context_Content chunk ++ nlnl.

Definition buildRAGPrompt (systemPrompt : gostring) (chunks : list chunkContext)
    (query : gostring) (history : list Memory.Message) : gostring :=
  systemPrompt ++ nlnl
  ++ (if 0 <? len history
      then str "## Conversation History" ++ nl
           ++ str "(Previous exchanges in this session for context)" ++ nlnl
           ++ Memory.FormatForPrompt history ++ nl
      else [])
  ++ str "## Context Documents" ++ nlnl
  ++ concat (imap promptDoc chunks)
  ++ str "## Question" ++ nl ++ query ++ nlnl
  ++ str "## Answer (be brief and direct)" ++ nl.

(** [float64(n)] of a non-negative [int]. *)
Definition float64_of_int (n : Z) : float := PrimFloat.of_uint63 (Uint63.of_Z n).

(** The threshold [0.7] that the handlers pass, as a [float64]. *)
Definition dedupThreshold : float := 0x1.6666666666666p-1%float.

(** [jaccardSimilarity]. *)
Definition jaccardSimilarity (set1 set2 : gset gostring) : float :=
  if (size set1 =? 0)%nat && (size set2 =? 0)%nat then 1%float
  else if (size set1 =? 0)%nat || (size set2 =? 0)%nat then 0%float
  else
    let intersection := Z.of_nat (size (set1 ∩ set2)) in
    let union := Z.of_nat (size set1) + Z.of_nat (size set2) - intersection in
    PrimFloat.div (float64_of_int intersection) (float64_of_int union).

Definition tokenCutset : gostring := str ".,!?;:" ++ [34] ++ str "'()[]{}=<>".

Section Tokenize.
Variable unicodeLower : rune -> rune.

(** [tokenize]. *)
Definition tokenize (content : gostring) : gset gostring :=
  let words := strings_Fields (strings_ToLower unicodeLower content) in
  fold_left
    (fun wordSet word =>
       let word := strings_Trim word tokenCutset in
       if byteLen word >? 2 then {[ word ]} ∪ wordSet else wordSet)
    words ∅.

(** The inner loop of [deduplicateResults] for the indices [js], all
    above [i]. *)
Definition dedupInner (wordSets : list (gset gostring)) (threshold : float)
    (i : nat) (js : list nat) (keep : list bool) : list bool :=
  fold_left
    (fun keep j =>
       if negb (default false (keep !! j)) then keep
       else
         let similarity :=
           jaccardSimilarity (default ∅ (wordSets !! i)) (default ∅ (wordSets !! j)) in
         if PrimFloat.leb threshold similarity then <[j := false]> keep else keep)
    js keep.

(** The outer loop of [deduplicateResults] for the indices [idx];
    [n] is [len(results)]. *)
Definition dedupOuter (wordSets : list (gset gostring)) (threshold : float)
    (n : nat) (idx : list nat) (keep : list bool) : list bool :=
  fold_left
    (fun keep i =>
       if negb (default false (keep !! i)) then keep
       else dedupInner wordSets threshold i (seq (S i) (n - S i)) keep)
    idx keep.

(** The results at the indices that [keep] marks. *)
Fixpoint keptResults {A} (results : list A) (keep : list bool) : list A :=
  match results, keep with
  | result :: results', k :: keep' =>
      if k then result :: keptResults results' keep' else keptResults results' keep'
  | _, _ => []
  end.

(** The slice [keep] of [deduplicateResults] after its two loops. *)
Definition dedupKeep (results : list Vectorstore.SearchResult)
    (threshold : float) : list bool :=
  let n := length results in
  let wordSets := map (fun result => tokenize (Vectorstore.Content result)) results in
  let keep := repeat true n in
  dedupOuter wordSets threshold n (seq 0 n) keep.

(** [deduplicateResults]. *)
Definition deduplicateResults (results : list Vectorstore.SearchResult)
    (threshold : float) : list Vectorstore.SearchResult :=
  if len results <=? 1 then results
  else keptResults results (dedupKeep results threshold).

End Tokenize.

(** The server side of the stream of [QueryStream]: the events that
    have been sent, and the error, if any, with which the transport
    answers the [n]-th [Send] (for a client that went away). *)
Record ServerStream := mkStream {
  sent : list QueryStreamResponse;
  sendError : nat -> option string
}.

(** [stream.Send]. *)
Definition Send (stream : ServerStream) (event : QueryStreamResponse)
  : option string * ServerStream :=
  match sendError stream (length (sent stream)) with
  | Some err => (Some err, stream)
  | None => (None, mkStream (sent stream ++ [event]) (sendError stream))
  end.

(** What a handler returns when it hands back an error that is not a
    status: gRPC reports it with the code [Unknown]. *)
Inductive HandlerError :=
| StatusError (st : Status)
| RawError (err : string).

Definition resultToSource (result : Vectorstore.SearchResult) : RetrievedChunk :=
  {| Chunk_DocumentId := Vectorstore.DocumentID result;
     Chunk_ChunkId := Vectorstore.ID result;
     Chunk_Content := Vectorstore.Content result;
     Chunk_Score := Vectorstore.Score result;
     Chunk_Source := default [] (Vectorstore.Metadata result !! str "source");
     Chunk_Title := default [] (Vectorstore.Metadata result !! str "title");
     Chunk_Metadata := Vectorstore.Metadata result |}.

Definition resultToContext (result : Vectorstore.SearchResult) : chunkContext :=
  {| Context_Content := Vectorstore.Content result;
     Context_Source := default [] (Vectorstore.Metadata result !! str "source");
     Context_Title := default [] (Vectorstore.Metadata result !! str "title");
     Context_Score := Vectorstore.Score result;
     Context_Metadata := Vectorstore.Metadata result |}.

(** The result of a reranker with its score put in place of the vector
    score (the loop of step 2.6). *)
Definition useRerankerScore (r : Reranker.ScoredResult) : Vectorstore.SearchResult :=
  let result := Reranker.Result r in
  Vectorstore.mkSearchResult
    (Vectorstore.ID result) (Vectorstore.DocumentID result)
    (Vectorstore.Content result) (Reranker.RerankerScore r)
    (Vectorstore.Metadata result).

(** Step 2.6 of [Query] and [QueryStream]: rerank when the tenant
    enables it and a reranker is attached. *)
Definition rerankStep (s : RAGService) (tenant : Tenant) (query : gostring)
    (options : queryOptions) (searchResults : list Vectorstore.SearchResult)
  : list Vectorstore.SearchResult :=
  match reranker s with
  | Some rerank =>
      if RerankerEnabled (Tenant_Config tenant) && (len searchResults >? 0) then
        match rerank query searchResults (topK options) with
        | inr reranked =>
            if len reranked >? 0 then map useRerankerScore reranked
            else searchResults
        | inl _ => searchResults     (* on error, continue with original results *)
        end
      else searchResults
  | None => searchResults
  end.

(** The cut to [topK] after deduplication and reranking. *)
Definition limitTopK (options : queryOptions)
    (searchResults : list Vectorstore.SearchResult) : list Vectorstore.SearchResult :=
  if len searchResults >? topK options
  then take (Z.to_nat (topK options)) searchResults
  else searchResults.

Section Handlers.
Variable unicodeLower : rune -> rune.
(** [uuid.Parse] of the google/uuid package; [None] for its error. *)
Variable uuid_Parse : gostring -> option UUID.

(** Steps 1 to 2.6 and the cut to [topK]: the text that [Query] and
    [QueryStream] have in common, word for word. *)
Definition retrieve (s : RAGService) (tenant : Tenant) (tenantID : UUID)
    (query : gostring) (options : queryOptions)
  : Status + list Vectorstore.SearchResult :=
  match embedder_Embed s query with
  | inl _ => inl (Internal, "failed to embed query"%string)
  | inr queryVector =>
      let searched :=
        match (if useHybrid s then sparseModel s else None) with
        | Some vectorize =>
            let sparseVector := vectorize query in
            match Vectorstore.HybridSearch (vectorDB s) tenantID queryVector
                    sparseVector (topK options * 3) (minScore options) with
            | inl _ => inl (Internal, "failed to perform hybrid search"%string)
            | inr searchResults => inr searchResults
            end
        | None =>
            match Vectorstore.Search (vectorDB s) tenantID queryVector
                    (topK options * 3) (minScore options) with
            | inl _ => inl (Internal, "failed to search vectors"%string)
            | inr searchResults => inr searchResults
            end
        end in
      match searched with
      | inl err => inl err
      | inr searchResults =>
          let searchResults :=
            deduplicateResults unicodeLower searchResults dedupThreshold in
          let searchResults := rerankStep s tenant query options searchResults in
          inr (limitTopK options searchResults)
      end
  end.

(** Steps 3 of [Query] and 4 of [QueryStream]: the history of the
    session, and the memory with the user message added. *)
Definition loadHistory (memory : Memory.Store) (req : QueryRequest)
  : list Memory.Message * Memory.Store :=
  if nonEmpty (SessionId req)
  then (Memory.GetRecentHistory memory (SessionId req) 10,
        Memory.AddUserMessage memory (SessionId req) (Query_ req))
  else ([], memory).

Definition llmOptions (options : queryOptions) : Llm.GenerateOptions :=
  Llm.mkGenerateOptions (model options) (systemPrompt options)
                        (temperature options) (maxTokens options).

(** The validation and the tenant lookup that open both handlers. *)
Definition resolveTenant (s : RAGService) (req : QueryRequest)
  : Status + (UUID * Tenant) :=
  if negb (nonEmpty (TenantId req))
  then inl (InvalidArgument, "tenant_id is required"%string)
  else if negb (nonEmpty (Query_ req))
  then inl (InvalidArgument, "query is required"%string)
  else
    match uuid_Parse (TenantId req) with
    | None => inl (InvalidArgument, "invalid tenant_id format"%string)
    | Some tenantID =>
        match tenantRepo_GetByID s tenantID with
        | inl _ => inl (NotFound, "tenant not found"%string)
        | inr tenant => inr (tenantID, tenant)
        end
    end.

(** [RAGService.Query]. *)
Definition Query (s : RAGService) (memory : Memory.Store) (req : QueryRequest)
  : (Status + QueryResponse) * Memory.Store :=
  match resolveTenant s req with
  | inl err => (inl err, memory)
  | inr (tenantID, tenant) =>
      let options := buildQueryOptions tenant (Options req) in
      match retrieve s tenant tenantID (Query_ req) options with
      | inl err => (inl err, memory)
      | inr searchResults =>
          let sources := map resultToSource searchResults in
          let chunkContexts := map resultToContext searchResults in
          let '(history, memory) := loadHistory memory req in
          let prompt :=
            buildRAGPrompt (systemPrompt options) chunkContexts (Query_ req) history in
          match Llm.Generate (llmClient s) prompt (llmOptions options) with
          | inl _ => (inl (Internal, "failed to generate response"%string), memory)
          | inr answer =>
              let memory :=
                if nonEmpty (SessionId req)
                then Memory.AddAssistantMessage memory (SessionId req) answer
                else memory in
              (inr {| Answer := answer;
                      Sources := sources;
                      Response_Metadata :=
                        mkQueryMetadata (len sources) (model options) 0 0 |},
               memory)
          end
      end
  end.

(** Step 3 of [QueryStream]: one source event per result, in order. *)
Fixpoint sendSources (stream : ServerStream)
    (searchResults : list Vectorstore.SearchResult)
  : option string * ServerStream :=
  match searchResults with
  | [] => (None, stream)
  | result :: rest =>
      match Send stream (Event_Source (resultToSource result)) with
      | (Some err, stream) => (Some err, stream)
      | (None, stream) => sendSources stream rest
      end
  end.

(** How the loop over the token channel ends: the channel is closed
    ([Drained], with the response collected), or the handler returns
    from inside the loop with [nil] or with an error. *)
Inductive TokenLoop :=
| Drained (fullResponse : gostring)
| Returned (err : option HandlerError).

(** The loop [for chunk := range tokenChan]. *)
Fixpoint streamTokens (tokenChan : list Llm.StreamChunk) (stream : ServerStream)
    (fullResponse : gostring) : TokenLoop * ServerStream :=
  match tokenChan with
  | [] => (Drained fullResponse, stream)
  | chunk :: rest =>
      match Llm.Error chunk with
      | Some message =>
          (* send the error and stop streaming *)
          match Send stream (Event_Error "generation_error" message) with
          | (Some err, stream) => (Returned (Some (RawError err)), stream)
          | (None, stream) => (Returned None, stream)
          end
      | None =>
          if nonEmpty (Llm.Token chunk) then
            match Send stream (Event_Token (Llm.Token chunk)) with
            | (Some err, stream) => (Returned (Some (RawError err)), stream)
            | (None, stream) =>
                streamTokens rest stream (fullResponse ++ Llm.Token chunk)
            end
          else streamTokens rest stream fullResponse
      end
  end.

(** [RAGService.QueryStream]: the returned error ([None] for [nil]),
    the stream and the memory it leaves. *)
Definition QueryStream (s : RAGService) (memory : Memory.Store)
    (req : QueryRequest) (stream : ServerStream)
  : option HandlerError * ServerStream * Memory.Store :=
  match resolveTenant s req with
  | inl err => (Some (StatusError err), stream, memory)
  | inr (tenantID, tenant) =>
      let options := buildQueryOptions tenant (Options req) in
      match retrieve s tenant tenantID (Query_ req) options with
      | inl err => (Some (StatusError err), stream, memory)
      | inr searchResults =>
          match sendSources stream searchResults with
          | (Some err, stream) => (Some (RawError err), stream, memory)
          | (None, stream) =>
              let chunkContexts := map resultToContext searchResults in
              let '(history, memory) := loadHistory memory req in
              let prompt :=
                buildRAGPrompt (systemPrompt options) chunkContexts (Query_ req) history in
              match Llm.GenerateStream (llmClient s) prompt (llmOptions options) with
              | inl _ =>
                  (Some (StatusError (Internal, "failed to start streaming"%string)),
                   stream, memory)
              | inr tokenChan =>
                  match streamTokens tokenChan stream [] with
                  | (Returned err, stream) => (err, stream, memory)
                  | (Drained fullResponse, stream) =>
                      let memory :=
                        if nonEmpty (SessionId req)
                        then Memory.AddAssistantMessage memory (SessionId req) fullResponse
                        else memory in
                      match Send stream
                              (Event_Metadata
                                 (mkQueryMetadata (len searchResults) (model options) 0 0)) with
                      | (Some err, stream) => (Some (RawError err), stream, memory)
                      | (None, stream) => (None, stream, memory)
                      end
                  end
              end
          end
      end
  end.

End Handlers.

End Service.

(** ** internal/repository/postgres and internal/service/document.go *)
Module Documents.
Import GoLib Repository Service.

(** The state that the document service works on: the rows of the
    relational store, the points of the vector store (with the name of
    their collection) and the number of identifiers drawn so far. *)
Record World := mkWorld {
  tenants : list Tenant;
  documents : list Document;
  document_chunks : list DocumentChunk;
  points : list (gostring * Vectorstore.Chunk);
  uuids : nat
}.

Definition sameDocument (id : UUID) (d : Document) : bool :=
  streq (Document_ID d) id.

Definition sameHash (tenantID : UUID) (hash : gostring) (d : Document) : bool :=
  streq (Document_TenantID d) tenantID && streq (Document_ContentHash d) hash.

(** [TenantRepo.GetByID]: the row with that id, or [ErrNotFound]. *)
Definition TenantRepo_GetByID (w : World) (id : UUID) : option Tenant :=
  List.find (fun t => streq (Tenant_ID t) id) (tenants w).

(** [DocumentRepo.Create]: the [INSERT] is refused by the primary key,
    by the foreign key to [tenants] and by [UNIQUE(tenant_id,
    content_hash)]; [None] is the error.  (The length limits of the
    columns are not modelled.) *)
Definition DocumentRepo_Create (w : World) (doc : Document) : option World :=
  if existsb (sameDocument (Document_ID doc)) (documents w)
     || existsb (sameHash (Document_TenantID doc) (Document_ContentHash doc)) (documents w)
     || negb (existsb (fun t => streq (Tenant_ID t) (Document_TenantID doc)) (tenants w))
  then None
  else Some (mkWorld (tenants w) (documents w ++ [doc]) (document_chunks w)
                     (points w) (uuids w)).

(** [DocumentRepo.GetByHash]: [None] is [ErrNotFound]. *)
Definition DocumentRepo_GetByHash (w : World) (tenantID : UUID) (hash : gostring)
  : option Document :=
  List.find (sameHash tenantID hash) (documents w).

(** The row that [UPDATE documents SET ... WHERE id] leaves for a row
    with that id: the tenant of the row stays. *)
Definition updatedRow (doc old : Document) : Document :=
  mkDocument (Document_ID old) (Document_TenantID old)
             (Document_Source doc) (Document_Title doc) (Document_ContentHash doc)
             (Document_ChunkCount doc) (Document_Status doc)
             (Document_ErrorMessage doc) (Document_Metadata doc).

(** [DocumentRepo.Update]: an error when no row has the id, or when the
    new hash collides with another row of the tenant. *)
Definition DocumentRepo_Update (w : World) (doc : Document) : option World :=
  match List.find (sameDocument (Document_ID doc)) (documents w) with
  | None => None
  | Some old =>
      if existsb (fun d => negb (sameDocument (Document_ID doc) d)
                           && sameHash (Document_TenantID old) (Document_ContentHash doc) d)
                 (documents w)
      then None
      else Some (mkWorld (tenants w)
                         (map (fun d => if sameDocument (Document_ID doc) d
                                        then updatedRow doc d else d)
                              (documents w))
                         (document_chunks w) (points w) (uuids w))
  end.

(** [DocumentRepo.CreateChunks]: refused by the foreign key to
    [documents]. *)
Definition DocumentRepo_CreateChunks (w : World) (chunks : list DocumentChunk)
  : option World :=
  if forallb (fun c => existsb (sameDocument (DocumentChunk_DocumentID c)) (documents w))
             chunks
  then Some (mkWorld (tenants w) (documents w) (document_chunks w ++ chunks)
                     (points w) (uuids w))
  else None.

(** The points of a successful [VectorStore.Upsert] (the identifiers of
    the points are fresh). *)
Definition upsertPoints (w : World) (tenantID : gostring)
    (chunks : list Vectorstore.Chunk) : World :=
  mkWorld (tenants w) (documents w) (document_chunks w)
          (points w ++ map (fun c => (Vectorstore.collectionName tenantID, c)) chunks)
          (uuids w).

(** The world after [n] more calls of [uuid.New]. *)
Definition drawUUIDs (w : World) (n : nat) : World :=
  mkWorld (tenants w) (documents w) (document_chunks w) (points w) (uuids w + n).

Inductive DocumentStatus :=
| DOCUMENT_STATUS_UNSPECIFIED
| DOCUMENT_STATUS_PENDING
| DOCUMENT_STATUS_PROCESSING
| DOCUMENT_STATUS_READY
| DOCUMENT_STATUS_FAILED.

(** [convertStatus]. *)
Definition convertStatus (status : gostring) : DocumentStatus :=
  if streq status (str "PENDING") then DOCUMENT_STATUS_PENDING
  else if streq status (str "PROCESSING") then DOCUMENT_STATUS_PROCESSING
  else if streq status (str "READY") then DOCUMENT_STATUS_READY
  else if streq status (str "FAILED") then DOCUMENT_STATUS_FAILED
  else DOCUMENT_STATUS_UNSPECIFIED.

Record IngestDocumentRequest := mkIngestDocumentRequest {
  Request_TenantId : gostring;
  Request_Content : gostring;
  Request_Source : gostring;
  Request_Title : gostring;
  Request_Metadata : gmap gostring gostring
}.

Record IngestURLRequest := mkIngestURLRequest {
  URLRequest_TenantId : gostring;
  URLRequest_Url : gostring;
  URLRequest_Metadata : gmap gostring gostring
}.

Record IngestDocumentResponse := mkIngestDocumentResponse {
  DocumentId : gostring;
  Status_ : DocumentStatus            (* the field [Status] *)
}.

(** What an [http.Client.Do] followed by [io.ReadAll] gives. *)
Record HTTPResponse := mkHTTPResponse {
  StatusCode : Z;
  StatusText : gostring;
  Body : string + gostring           (* [inl]: the body cannot be read *)
}.

(** The providers of [DocumentService] that are not stores. *)
Record DocumentService := mkDocumentService {
  embedder_EmbedBatch : list gostring -> string + list (list float);
  vectorDB_UpsertError : gostring -> list Vectorstore.Chunk -> option string;
  httpClient_Do : gostring -> string + HTTPResponse
}.

(** The goroutine that a handler starts with [go]. *)
Inductive Task :=
| processDocumentTask (doc : Document) (content : gostring) (tenant : Tenant)
| processURLTask (doc : Document) (url : gostring) (tenant : Tenant).

(** How a goroutine ends: it returns, or it panics (which stops the
    process) and leaves the stores as they are. *)
Inductive Run :=
| Finished (w : World)
| Panicked (w : World).

(** The case-insensitive prefix test of the title pattern (its letters
    have no case variant outside ASCII). *)
Definition lowerASCII (r : rune) : rune :=
  if (65 <=? r) && (r <=? 90) then r + 32 else r.

Definition hasPrefixFold (s prefix : gostring) : bool :=
  strings_HasPrefix (map lowerASCII (take (length prefix) s)) prefix.

(** The title pattern of [extractTitle] (flag [i]: an opening [title]
    tag with any attributes, one rune or more other than [<], the
    closing tag) anchored at the head of [s]: group 1.  Each negated
    class takes every rune it can; giving some back never helps. *)
Definition matchTitleAt (s : gostring) : option gostring :=
  if hasPrefixFold s (str "<title") then
    match dropWhile (fun c => negb (c =? 62)) (drop 6 s) with
    | _ :: s3 =>
        let title := takeWhile (fun c => negb (c =? 60)) s3 in
        if nonEmpty title
           && hasPrefixFold (dropWhile (fun c => negb (c =? 60)) s3) (str "</title>")
        then Some title else None
    | [] => None
    end
  else None.

Fixpoint findTitle (s : gostring) : option gostring :=
  match matchTitleAt s with
  | Some title => Some title
  | None => match s with [] => None | _ :: s' => findTitle s' end
  end.

(** [extractTitle]. *)
Definition extractTitle (html : gostring) : gostring :=
  match findTitle html with
  | Some title => strings_TrimSpace title
  | None => []
  end.

Section DocumentService.
Variable unicodeLower : rune -> rune.
(** [uuid.Parse] and the stream of the identifiers of [uuid.New]. *)
Variable uuid_Parse : gostring -> option UUID.
Variable uuid_New : nat -> UUID.
(** [hex.EncodeToString(sha256.Sum256(...))] of Go's library. *)
Variable sha256_hex : gostring -> gostring.
(** [regexp.MustCompile(pattern).ReplaceAllString(src, repl)] of Go's
    library; [None] when [MustCompile] panics because the pattern is
    not in Go's syntax. *)
Variable regexp_ReplaceAllString : string -> gostring -> gostring -> option gostring.

(** [hashContent]. *)
Definition hashContent (content : gostring) : gostring := sha256_hex content.

(** [stripHTML].  (Its first pattern ends with the backreference to
    group 1, which the syntax of Go's [regexp] does not have.) *)
Definition stripHTML (html : gostring) : option gostring :=
  match regexp_ReplaceAllString "(?is)<(script|style)[^>]*>.*?</\1>" html [] with
  | None => None
  | Some text =>
      match regexp_ReplaceAllString "<[^>]+>" text space with
      | None => None
      | Some text =>
          match regexp_ReplaceAllString "\s+" text space with
          | None => None
          | Some text => Some (strings_TrimSpace text)
          end
      end
  end.

(** [DocumentRepo.Update] with its error dropped ([_ = ...]). *)
Definition updateIgnoringError (w : World) (doc : Document) : World :=
  default w (DocumentRepo_Update w doc).

Definition withStatus (doc : Document) (status : gostring) : Document :=
  mkDocument (Document_ID doc) (Document_TenantID doc) (Document_Source doc)
             (Document_Title doc) (Document_ContentHash doc)
             (Document_ChunkCount doc) status
             (Document_ErrorMessage doc) (Document_Metadata doc).

(** [markDocumentFailed]; the message is kept without the formatted
    cause. *)
Definition markDocumentFailed (w : World) (doc : Document) (errorMsg : gostring)
  : World :=
  let doc :=
    mkDocument (Document_ID doc) (Document_TenantID doc) (Document_Source doc)
               (Document_Title doc) (Document_ContentHash doc)
               (Document_ChunkCount doc) (str "FAILED")
               errorMsg (Document_Metadata doc) in
  updateIgnoringError w doc.

(** The metadata merge of [Pipeline.ProcessWithMetadata] for one chunk:
    chunk metadata, then provided metadata, then default metadata, and
    the document reference on top. *)
Definition mergeMetadata (defaults provided : gmap gostring gostring)
    (documentID contentHash : gostring) (chunk : Ingestion.Chunk) : Ingestion.Chunk :=
  let metadata := Ingestion.Metadata chunk ∪ defaults in
  let metadata := metadata ∪ provided in
  let metadata := <[str "document_id" := documentID]> metadata in
  let metadata := <[str "content_hash" := contentHash]> metadata in
  Ingestion.mkChunk (Ingestion.Content chunk) (Ingestion.Index chunk) metadata.

(** [Pipeline.ProcessWithMetadata] on a pipeline made by [NewPipeline]:
    the chunks, or [inl] for its error; one identifier is drawn.  The
    outer [option] is the fuel of the chunker. *)
Definition ProcessWithMetadata (chunkerConfig : ChunkerConfig)
    (defaults : gmap gostring gostring) (w : World) (content : gostring)
    (metadata : gmap gostring gostring)
  : option ((string + list Ingestion.Chunk) * World) :=
  let content := strings_TrimSpace content in
  if negb (nonEmpty content) then Some (inl "content cannot be empty"%string, w)
  else
    let documentID := uuid_New (uuids w) in
    let w := drawUUIDs w 1 in
    let contentHash := hashContent content in
    match Ingestion.Chunker_Chunk unicodeLower (Ingestion.NewChunker chunkerConfig) content with
    | None => None
    | Some chunks =>
        Some (inr (map (mergeMetadata defaults metadata documentID contentHash) chunks), w)
    end.

(** [ChunksToDocumentChunks]: one identifier per chunk, from [first]. *)
Definition ChunksToDocumentChunks (first : nat) (chunks : list Ingestion.Chunk)
    (documentID : UUID) : list DocumentChunk :=
  imap (fun i chunk =>
          mkDocumentChunk (uuid_New (first + i)) documentID
                          (Ingestion.Index chunk) (Ingestion.Content chunk)
                          (Ingestion.Metadata chunk))
       chunks.

(** The vector record of a stored chunk (the loop of step 7). *)
Definition vectorChunk (doc : Document) (embedding : list float)
    (chunk : DocumentChunk) : Vectorstore.Chunk :=
  let metadata := DocumentChunk_Metadata chunk in
  let metadata := <[str "document_id" := Document_ID doc]> metadata in
  let metadata := <[str "title" := Document_Title doc]> metadata in
  let metadata := <[str "source" := Document_Source doc]> metadata in
  Vectorstore.mkChunk (DocumentChunk_ID chunk) (Document_ID doc)
                      (Document_TenantID doc) (DocumentChunk_Content chunk)
                      embedding None metadata.

(** [processDocument], run from start to end; [None] is the fuel of the
    chunker.  [EmbedBatch] is taken to return one embedding per text. *)
Definition processDocument (s : DocumentService) (w : World) (doc : Document)
    (content : gostring) (tenant : Tenant) : option World :=
  let doc := withStatus doc (str "PROCESSING") in
  let w := updateIgnoringError w doc in
  let defaults : gmap gostring gostring :=
    list_to_map [ (str "source", Document_Source doc);
                  (str "title", Document_Title doc) ] in
  match ProcessWithMetadata (Chunker (Tenant_Config tenant)) defaults w content
                            (Document_Metadata doc) with
  | None => None
  | Some (inl _, w) => Some (markDocumentFailed w doc (str "chunking failed"))
  | Some (inr chunks, w) =>
      let docChunks := ChunksToDocumentChunks (uuids w) chunks (Document_ID doc) in
      let w := drawUUIDs w (length chunks) in
      match DocumentRepo_CreateChunks w docChunks with
      | None => Some (markDocumentFailed w doc (str "failed to store chunks"))
      | Some w =>
          let chunkContents := map Ingestion.Content chunks in
          match embedder_EmbedBatch s chunkContents with
          | inl _ => Some (markDocumentFailed w doc (str "embedding failed"))
          | inr embeddings =>
              let vectorChunks :=
                imap (fun i chunk =>
                        vectorChunk doc (default [] (embeddings !! i)) chunk)
                     docChunks in
              match vectorDB_UpsertError s (Document_TenantID doc) vectorChunks with
              | Some _ => Some (markDocumentFailed w doc (str "vector storage failed"))
              | None =>
                  let w := upsertPoints w (Document_TenantID doc) vectorChunks in
                  let doc :=
                    mkDocument (Document_ID doc) (Document_TenantID doc)
                               (Document_Source doc) (Document_Title doc)
                               (Document_ContentHash doc) (len docChunks)
                               (str "READY") (Document_ErrorMessage doc)
                               (Document_Metadata doc) in
                  Some (updateIgnoringError w doc)
              end
          end
      end
  end.

(** [IngestDocument]: the response or the error, the world, and the
    goroutine that is started, if any. *)
Definition IngestDocument (s : DocumentService) (w : World)
    (req : IngestDocumentRequest)
  : (Status + IngestDocumentResponse) * World * option Task :=
  if negb (nonEmpty (Request_TenantId req))
  then (inl (InvalidArgument, "tenant_id is required"%string), w, None)
  else if negb (nonEmpty (Request_Content req))
  then (inl (InvalidArgument, "content is required"%string), w, None)
  else
    match uuid_Parse (Request_TenantId req) with
    | None => (inl (InvalidArgument, "invalid tenant_id format"%string), w, None)
    | Some tenantID =>
        match TenantRepo_GetByID w tenantID with
        | None => (inl (NotFound, "tenant not found"%string), w, None)
        | Some tenant =>
            (* the source is part of the hash, so that different pages
               with similar content are not deduplicated *)
            let contentHash :=
              hashContent (Request_Source req ++ nl ++ Request_Content req) in
            match DocumentRepo_GetByHash w tenantID contentHash with
            | Some existingDoc =>
                (inr (mkIngestDocumentResponse
                        (Document_ID existingDoc)
                        (convertStatus (Document_Status existingDoc))),
                 w, None)
            | None =>
                let docID := uuid_New (uuids w) in
                let w := drawUUIDs w 1 in
                let doc :=
                  mkDocument docID tenantID
                    (if nonEmpty (Request_Source req)
                     then Request_Source req else str "direct-upload")
                    (if nonEmpty (Request_Title req)
                     then Request_Title req else str "Untitled Document")
                    contentHash 0 (str "PROCESSING") [] (Request_Metadata req) in
                match DocumentRepo_Create w doc with
                | None => (inl (Internal, "failed to create document"%string), w, None)
                | Some w =>
                    (inr (mkIngestDocumentResponse docID DOCUMENT_STATUS_PROCESSING),
                     w, Some (processDocumentTask doc (Request_Content req) tenant))
                end
            end
        end
    end.

(** [IngestURL]. *)
Definition IngestURL (s : DocumentService) (w : World) (req : IngestURLRequest)
  : (Status + IngestDocumentResponse) * World * option Task :=
  if negb (nonEmpty (URLRequest_TenantId req))
  then (inl (InvalidArgument, "tenant_id is required"%string), w, None)
  else if negb (nonEmpty (URLRequest_Url req))
  then (inl (InvalidArgument, "url is required"%string), w, None)
  else
    match uuid_Parse (URLRequest_TenantId req) with
    | None => (inl (InvalidArgument, "invalid tenant_id format"%string), w, None)
    | Some tenantID =>
        match TenantRepo_GetByID w tenantID with
        | None => (inl (NotFound, "tenant not found"%string), w, None)
        | Some tenant =>
            let docID := uuid_New (uuids w) in
            let w := drawUUIDs w 1 in
            let doc :=
              mkDocument docID tenantID (URLRequest_Url req) [] [] 0
                         (str "PENDING") [] (URLRequest_Metadata req) in
            match DocumentRepo_Create w doc with
            | None => (inl (Internal, "failed to create document"%string), w, None)
            | Some w =>
                (inr (mkIngestDocumentResponse docID DOCUMENT_STATUS_PENDING),
                 w, Some (processURLTask doc (URLRequest_Url req) tenant))
            end
        end
    end.

(** The hash that [processURL] gives to the document: the hash of the
    stripped body. *)
Definition urlContentHash (content : gostring) : gostring := hashContent content.

(** [processURL], run from start to end; [None] is the fuel of the
    chunker.  A URL that [http.NewRequestWithContext] refuses is an
    error of [httpClient_Do] here: the document is marked as failed in
    the same way, with another message. *)
Definition processURL (s : DocumentService) (w : World) (doc : Document)
    (url : gostring) (tenant : Tenant) : option Run :=
  let doc := withStatus doc (str "PROCESSING") in
  let w := updateIgnoringError w doc in
  match httpClient_Do s url with
  | inl _ => Some (Finished (markDocumentFailed w doc (str "failed to fetch URL")))
  | inr resp =>
      if negb (StatusCode resp =? 200)
      then Some (Finished (markDocumentFailed w doc
                             (str "HTTP " ++ strconv_Itoa (StatusCode resp)
                              ++ str ": " ++ StatusText resp)))
      else
        match Body resp with
        | inl _ => Some (Finished (markDocumentFailed w doc (str "failed to read response")))
        | inr content =>
            let title := extractTitle content in
            let doc :=
              mkDocument (Document_ID doc) (Document_TenantID doc)
                         (Document_Source doc)
                         (if nonEmpty title then title else url)
                         (Document_ContentHash doc) (Document_ChunkCount doc)
                         (Document_Status doc) (Document_ErrorMessage doc)
                         (Document_Metadata doc) in
            match stripHTML content with
            | None => Some (Panicked w)
            | Some content =>
                let doc :=
                  mkDocument (Document_ID doc) (Document_TenantID doc)
                             (Document_Source doc) (Document_Title doc)
                             (urlContentHash content) (Document_ChunkCount doc)
                             (Document_Status doc) (Document_ErrorMessage doc)
                             (Document_Metadata doc) in
                match DocumentRepo_GetByHash w (Document_TenantID doc)
                                             (Document_ContentHash doc) with
                | Some existingDoc =>
                    if negb (streq (Document_ID existingDoc) (Document_ID doc))
                    then Some (Finished
                                 (markDocumentFailed w doc
                                    (str "duplicate content exists in document "
                                     ++ Document_ID existingDoc)))
                    else option_map Finished (processDocument s w doc content tenant)
                | None => option_map Finished (processDocument s w doc content tenant)
                end
            end
        end
  end.

(** A goroutine, run from start to end. *)
Definition runTask (s : DocumentService) (w : World) (task : Task) : option Run :=
  match task with
  | processDocumentTask doc content tenant =>
      option_map Finished (processDocument s w doc content tenant)
  | processURLTask doc url tenant => processURL s w doc url tenant
  end.

End DocumentService.

End Documents.

(** ** internal/memory: the end of a session *)
Module Sessions.
Import GoLib Memory.

(** [ClearSession]. *)
Definition ClearSession (s : Store) (sessionID : gostring) : Store :=
  mkStore (delete sessionID (conversations s)) (maxMessages s).

End Sessions.

(** ** internal/vectorstore/qdrant.go: the payload of a point *)
Module Qdrant.
Import GoLib Vectorstore.

(** The payload that [Upsert] gives to the point of a chunk: the keys
    [document_id] and [content], then every key of the metadata of the
    chunk, written over them. *)
Definition upsertPayload (chunk : Chunk) : gmap gostring gostring :=
  Chunk_Metadata chunk
  ∪ <[str "document_id" := Chunk_DocumentID chunk]>
      (<[str "content" := Chunk_Content chunk]> ∅).

(** The point of a chunk as a query of the engine gives it back, with
    the score of the engine. *)
Definition storedPoint (chunk : Chunk) (score : float) : ScoredPoint :=
  mkScoredPoint (Chunk_ID chunk) score (Some (upsertPayload chunk)).

(** The loop of [Search] over the response of the engine. *)
Definition searchResults (response : list ScoredPoint) : list SearchResult :=
  map pointToResult response.

End Qdrant.

(** ** internal/embedder and internal/service/tenant.go: the
       configuration of a tenant *)
Module Tenants.
Import GoLib Repository Service.

(** [embedder.ModelConfig]. *)
Record ModelConfig := mkModelConfig {
  Dimension : Z;
  ContextLength : Z;
  MaxChunkWords : Z;
  TargetChunkWords : Z
}.

(** [embedder.GetModelConfig] over the map [KnownModels]. *)
Definition GetModelConfig (modelName : gostring) : ModelConfig :=
  if streq modelName (str "nomic-embed-text") then mkModelConfig 768 8192 512 256
  else if streq modelName (str "mxbai-embed-large") then mkModelConfig 1024 512 300 150
  else if streq modelName (str "all-minilm") then mkModelConfig 384 256 150 100
  else if streq modelName (str "snowflake-arctic-embed")
  then mkModelConfig 1024 8192 512 256
  else mkModelConfig 768 2048 256 128.

(** The fields of [config.Config] that the tenant service reads. *)
Record Config := mkConfig {
  OllamaEmbeddingModel : gostring;
  OllamaLLMModel : gostring;
  DefaultChunkMethod : gostring;
  DefaultChunkOverlap : Z;
  DefaultTopK : Z;
  DefaultMinScore : float
}.

(** The values of the [envDefault] tags of these fields (0.35 as a
    [float32]). *)
Definition defaultConfig : Config :=
  mkConfig (str "nomic-embed-text") (str "llama3.2") (str "semantic") 50 4
           0x1.666666p-2%float.

(** [ragv1.ChunkerConfig] and [ragv1.TenantConfig], as the service reads
    them from a request. *)
Record ProtoChunkerConfig := mkProtoChunkerConfig {
  Proto_Method : gostring;
  Proto_TargetSize : Z;
  Proto_MaxSize : Z;
  Proto_Overlap : Z
}.

Record ProtoTenantConfig := mkProtoTenantConfig {
  Proto_EmbeddingModel : gostring;
  Proto_LlmModel : gostring;
  Proto_Chunker : option ProtoChunkerConfig;     (* [nil] when absent *)
  Proto_TopK : Z;
  Proto_MinScore : float;
  Proto_SystemPrompt : gostring
}.

(** The overrides of the chunker fields that [buildTenantConfig] and
    [mergeConfig] have in common, word for word. *)
Definition overrideChunker (chunker : ChunkerConfig)
    (protoChunker : option ProtoChunkerConfig) : ChunkerConfig :=
  match protoChunker with
  | None => chunker
  | Some pc =>
      let chunker :=
        if nonEmpty (Proto_Method pc)
        then mkChunkerConfig (Proto_Method pc) (TargetSize chunker) (MaxSize chunker)
                             (Overlap chunker)
        else chunker in
      let chunker :=
        if Proto_TargetSize pc >? 0
        then mkChunkerConfig (Method chunker) (Proto_TargetSize pc) (MaxSize chunker)
                             (Overlap chunker)
        else chunker in
      let chunker :=
        if Proto_MaxSize pc >? 0
        then mkChunkerConfig (Method chunker) (TargetSize chunker) (Proto_MaxSize pc)
                             (Overlap chunker)
        else chunker in
      if Proto_Overlap pc >? 0
      then mkChunkerConfig (Method chunker) (TargetSize chunker) (MaxSize chunker)
                           (Proto_Overlap pc)
      else chunker
  end.

(** [buildTenantConfig]. *)
Definition buildTenantConfig (cfg : Config) (protoConfig : option ProtoTenantConfig)
  : TenantConfig :=
  let embeddingModel :=
    match protoConfig with
    | Some pc =>
        if nonEmpty (Proto_EmbeddingModel pc) then Proto_EmbeddingModel pc
        else OllamaEmbeddingModel cfg
    | None => OllamaEmbeddingModel cfg
    end in
  let modelCfg := GetModelConfig embeddingModel in
  let config :=
    mkTenantConfig embeddingModel (OllamaLLMModel cfg)
      (mkChunkerConfig (DefaultChunkMethod cfg) (TargetChunkWords modelCfg)
                       (MaxChunkWords modelCfg) (DefaultChunkOverlap cfg))
      (DefaultTopK cfg) (DefaultMinScore cfg) defaultSystemPrompt false in
  match protoConfig with
  | None => config
  | Some pc =>
      mkTenantConfig
        (EmbeddingModel config)
        (if nonEmpty (Proto_LlmModel pc) then Proto_LlmModel pc else LLMModel config)
        (overrideChunker (Chunker config) (Proto_Chunker pc))
        (if Proto_TopK pc >? 0 then Proto_TopK pc else TopK config)
        (if PrimFloat.ltb 0 (Proto_MinScore pc) then Proto_MinScore pc
         else MinScore config)
        (if nonEmpty (Proto_SystemPrompt pc) then Proto_SystemPrompt pc
         else SystemPrompt config)
        (RerankerEnabled config)
  end.

(** [mergeConfig]. *)
Definition mergeConfig (existing : TenantConfig) (protoConfig : ProtoTenantConfig)
  : TenantConfig :=
  mkTenantConfig
    (if nonEmpty (Proto_EmbeddingModel protoConfig)
     then Proto_EmbeddingModel protoConfig else EmbeddingModel existing)
    (if nonEmpty (Proto_LlmModel protoConfig)
     then Proto_LlmModel protoConfig else LLMModel existing)
    (overrideChunker (Chunker existing) (Proto_Chunker protoConfig))
    (if Proto_TopK protoConfig >? 0 then Proto_TopK protoConfig else TopK existing)
    (if PrimFloat.ltb 0 (Proto_MinScore protoConfig) then Proto_MinScore protoConfig
     else MinScore existing)
    (if nonEmpty (Proto_SystemPrompt protoConfig)
     then Proto_SystemPrompt protoConfig else SystemPrompt existing)
    (RerankerEnabled existing).

End Tenants.

(** ** internal/service/document.go: reading and deleting a document *)
Module DocumentAPI.
Import GoLib Repository Service Documents.


(** [ragv1.Document] without its two time stamps. *)
Record ProtoDocument := mkProtoDocument {
  Proto_Id : gostring;
  Proto_TenantId : gostring;
  Proto_Source : gostring;
  Proto_Title : gostring;
  Proto_ContentHash : gostring;
  Proto_ChunkCount : Z;
  Proto_Status : DocumentStatus;
  Proto_ErrorMessage : gostring;
  Proto_Metadata : gmap gostring gostring
}.

(** [documentToProto]. *)
Definition documentToProto (doc : Document) : ProtoDocument :=
  {| Proto_Id := Document_ID doc;
     Proto_TenantId := Document_TenantID doc;
     Proto_Source := Document_Source doc;
     Proto_Title := Document_Title doc;
     Proto_ContentHash := Document_ContentHash doc;
     Proto_ChunkCount := Document_ChunkCount doc;
     Proto_Status := convertStatus (Document_Status doc);
     Proto_ErrorMessage := Document_ErrorMessage doc;
     Proto_Metadata := Document_Metadata doc |}.

(** [DocumentRepo.GetByID]: [None] is [ErrNotFound]. *)
Definition DocumentRepo_GetByID (w : World) (id : UUID) : option Document :=
  List.find (sameDocument id) (documents w).

(** [DocumentRepo.DeleteChunks]: [DELETE FROM document_chunks WHERE
    document_id]. *)
Definition DocumentRepo_DeleteChunks (w : World) (documentID : UUID) : World :=
  mkWorld (tenants w) (documents w)
          (List.filter (fun c => negb (streq (DocumentChunk_DocumentID c) documentID))
                       (document_chunks w))
          (points w) (uuids w).

(** [DocumentRepo.Delete]: an error when no row has the id; the chunks
    of the row go with it ([ON DELETE CASCADE]). *)
Definition DocumentRepo_Delete (w : World) (id : UUID) : option World :=
  if existsb (sameDocument id) (documents w)
  then Some (mkWorld (tenants w)
                     (List.filter (fun d => negb (sameDocument id d)) (documents w))
                     (List.filter (fun c => negb (streq (DocumentChunk_DocumentID c) id))
                                  (document_chunks w))
                     (points w) (uuids w))
  else None.

(** The points that the filter of [QdrantStore.Delete] selects: those
    of the collection of the tenant whose payload has the document id
    under [document_id]. *)
Definition selectedPoint (tenantID documentID : gostring)
    (point : gostring * Vectorstore.Chunk) : bool :=
  streq (fst point) (Vectorstore.collectionName tenantID)
  && bool_decide (Qdrant.upsertPayload (snd point) !! str "document_id"
                  = Some documentID).

(** A successful [QdrantStore.Delete]. *)
Definition deletePoints (w : World) (tenantID documentID : gostring) : World :=
  mkWorld (tenants w) (documents w) (document_chunks w)
          (List.filter (fun point => negb (selectedPoint tenantID documentID point))
                       (points w))
          (uuids w).

Section Handlers.
Variable uuid_Parse : gostring -> option UUID.
(** The error of [vectorDB.Delete], if the engine reports one. *)
Variable vectorDB_DeleteError : gostring -> gostring -> option string.

(** [GetDocument]. *)
Definition GetDocument (w : World) (id : gostring) : Status + ProtoDocument :=
  if negb (nonEmpty id)
  then inl (InvalidArgument, "id is required"%string)
  else
    match uuid_Parse id with
    | None => inl (InvalidArgument, "invalid document ID format"%string)
    | Some id =>
        match DocumentRepo_GetByID w id with
        | None => inl (NotFound, "document not found"%string)
        | Some doc => inr (documentToProto doc)
        end
    end.

(** [DeleteDocument]: the field [Success] of the response, or the
    error, and the world it leaves. *)
Definition DeleteDocument (w : World) (id : gostring) : (Status + bool) * World :=
  if negb (nonEmpty id)
  then (inl (InvalidArgument, "id is required"%string), w)
  else
    match uuid_Parse id with
    | None => (inl (InvalidArgument, "invalid document ID format"%string), w)
    | Some id =>
        match DocumentRepo_GetByID w id with
        | None => (inl (NotFound, "document not found"%string), w)
        | Some doc =>
            (* the errors of the two deletions are dropped *)
            let w :=
              match vectorDB_DeleteError (Document_TenantID doc) (Document_ID doc) with
              | Some _ => w
              | None => deletePoints w (Document_TenantID doc) (Document_ID doc)
              end in
            let w := DocumentRepo_DeleteChunks w id in
            match DocumentRepo_Delete w id with
            | None => (inl (Internal, "failed to delete document"%string), w)
            | Some w => (inr true, w)
            end
        end
    end.

End Handlers.

End DocumentAPI.

(** ** internal/service/rag.go: retrieval without generation *)
Module Retrieval.
Import GoLib Repository Service.

(** [ragv1.RetrieveOptions] and [ragv1.RetrieveRequest]. *)
Record RetrieveOptions := mkRetrieveOptions {
  Retrieve_TopK : Z;
  Retrieve_MinScore : float;
  Retrieve_DocumentIds : list gostring
}.

Record RetrieveRequest := mkRetrieveRequest {
  Retrieve_TenantId : gostring;
  Retrieve_Query : gostring;
  Retrieve_Options : option RetrieveOptions      (* [nil] when absent *)
}.

(** [ragv1.RetrieveResponse] with the two counters of its metadata. *)
Record RetrieveResponse := mkRetrieveResponse {
  Chunks : list RetrievedChunk;
  Retrieve_ChunksRetrieved : Z;
  TotalChunksSearched : Z
}.

Section Handlers.
Variable uuid_Parse : gostring -> option UUID.

(** [RAGService.Retrieve]. *)
Definition Retrieve (s : RAGService) (req : RetrieveRequest)
  : Status + RetrieveResponse :=
  if negb (nonEmpty (Retrieve_TenantId req))
  then inl (InvalidArgument, "tenant_id is required"%string)
  else if negb (nonEmpty (Retrieve_Query req))
  then inl (InvalidArgument, "query is required"%string)
  else
    match uuid_Parse (Retrieve_TenantId req) with
    | None => inl (InvalidArgument, "invalid tenant_id format"%string)
    | Some tenantID =>
        match tenantRepo_GetByID s tenantID with
        | inl _ => inl (NotFound, "tenant not found"%string)
        | inr tenant =>
            let topK := TopK (Tenant_Config tenant) in
            let minScore := MinScore (Tenant_Config tenant) in
            let topK :=
              match Retrieve_Options req with
              | Some options =>
                  if Retrieve_TopK options >? 0 then Retrieve_TopK options else topK
              | None => topK
              end in
            let minScore :=
              match Retrieve_Options req with
              | Some options =>
                  if PrimFloat.ltb 0 (Retrieve_MinScore options)
                  then Retrieve_MinScore options else minScore
              | None => minScore
              end in
            match embedder_Embed s (Retrieve_Query req) with
            | inl _ => inl (Internal, "failed to embed query"%string)
            | inr queryVector =>
                match Vectorstore.Search (vectorDB s) tenantID queryVector topK minScore with
                | inl _ => inl (Internal, "failed to search vectors"%string)
                | inr searchResults =>
                    let searchResults :=
                      match Retrieve_Options req with
                      | Some options =>
                          if len (Retrieve_DocumentIds options) >? 0
                          then List.filter
                                 (fun result =>
                                    bool_decide (Vectorstore.DocumentID result
                                                 ∈ Retrieve_DocumentIds options))
                                 searchResults
                          else searchResults
                      | None => searchResults
                      end in
                    let chunks := map resultToSource searchResults in
                    inr (mkRetrieveResponse chunks (len chunks) 0)
                end
            end
        end
    end.

End Handlers.

End Retrieval.

(** * Properties *)

(** ** The notions the statements use *)
Module Spec.
Import GoLib.

(** A text with a rune that is not white space. *)
Definition hasNonSpace (s : gostring) : bool :=
  existsb (fun r => negb (unicode_IsSpace r)) s.

(** A chunk with a content and with a [method] key. *)
Definition goodChunk (c : Ingestion.Chunk) : Prop :=
  Ingestion.Content c <> [] /\ is_Some (Ingestion.Metadata c !! str "method").

(** The [k]-th chunk of the list has index [start + k]. *)
Definition denseFrom (start : Z) (chunks : list Ingestion.Chunk) : Prop :=
  forall (k : nat) c, chunks !! k = Some c -> Ingestion.Index c = start + Z.of_nat k.

(** [small] is a subsequence of [big]: its tokens occur in [big] in
    their order. *)
Fixpoint tokensInOrder (small big : list gostring) : bool :=
  match small, big with
  | [], _ => true
  | _ :: _, [] => false
  | t :: small', u :: big' =>
      if streq t u then tokensInOrder small' big' else tokensInOrder small big'
  end.

(** The tokens of the contents of the chunks, one chunk after the
    other. *)
Definition chunkTokens (chunks : list Ingestion.Chunk) : list gostring :=
  concat (map (fun c => strings_Fields (Ingestion.Content c)) chunks).

(** A block whose content is not blank. *)
Definition nonblankBlock (b : Ingestion.contentBlock) : Prop :=
  hasNonSpace (Ingestion.content b) = true.

(** What the grouping loop of the semantic strategy maintains. *)
Definition groupInv (st : Ingestion.groupState) : Prop :=
  Forall goodChunk (Ingestion.chunks st)
  /\ Forall nonblankBlock (Ingestion.currentBlocks st).

End Spec.

(** ** The notions of the statements on deduplication *)
Module DedupSpec.
Import GoLib Service.

(** [keep[j]], false outside the slice. *)
Definition kept (keep : list bool) (j : nat) : bool := default false (keep !! j).

Section Mask.
Variable wordSets : list (gset gostring).
Variable threshold : float.
Variable n : nat.

(** The test [similarity >= threshold] of the pair of indices. *)
Definition dup (i j : nat) : bool :=
  PrimFloat.leb threshold
    (jaccardSimilarity (default ∅ (wordSets !! i)) (default ∅ (wordSets !! j))).

(** One round of the outer loop. *)
Definition outerStep (keep : list bool) (i : nat) : list bool :=
  if negb (kept keep i) then keep
  else dedupInner wordSets threshold i (seq (S i) (n - S i)) keep.

(** The slice [keep] once the loops are over. *)
Definition finalKeep : list bool :=
  dedupOuter wordSets threshold n (seq 0 n) (repeat true n).

End Mask.

(** Two results are duplicates for [deduplicateResults]. *)
Definition similar (unicodeLower : rune -> rune) (threshold : float)
    (a b : Vectorstore.SearchResult) : bool :=
  PrimFloat.leb threshold
    (jaccardSimilarity (tokenize unicodeLower (Vectorstore.Content a))
                       (tokenize unicodeLower (Vectorstore.Content b))).

End DedupSpec.

(** ** The notions of the statements on the query pipeline *)
Module QuerySpec.
Import GoLib Repository Service.

(** A vector store that returns only results whose score reaches the
    [minScore] it is given. *)
Definition honoursMinScore (vs : Vectorstore.VectorStore) : Prop :=
  (forall t v k m rs, Vectorstore.Search vs t v k m = inr rs ->
     Forall (fun r => PrimFloat.leb m (Vectorstore.Score r) = true) rs)
  /\ (forall t v sv k m rs, Vectorstore.HybridSearch vs t v sv k m = inr rs ->
     Forall (fun r => PrimFloat.leb m (Vectorstore.Score r) = true) rs).



(** The top_k that the specification describes: the tenant value, 4
    when that value is not positive, then a positive value of the
    request. *)
Definition resolvedTopK (tenant : Tenant) (opts : option QueryOptions) : Z :=
  let base := if TopK (Tenant_Config tenant) <=? 0 then 4
              else TopK (Tenant_Config tenant) in
  match opts with
  | Some o => if Options_TopK o >? 0 then Options_TopK o else base
  | None => base
  end.

(** The scores of the sources of an answer. *)
Definition sourceScores (out : Status + QueryResponse) : list float :=
  match out with
  | inr resp => map Chunk_Score (Sources resp)
  | inl _ => []
  end.

(** The tokens of a channel that reach the client: the non-empty ones
    before the first chunk with an error. *)
Fixpoint tokensSent (tokenChan : list Llm.StreamChunk) : list gostring :=
  match tokenChan with
  | [] => []
  | chunk :: rest =>
      match Llm.Error chunk with
      | Some _ => []
      | None =>
          (if nonEmpty (Llm.Token chunk) then [Llm.Token chunk] else [])
          ++ tokensSent rest
      end
  end.

(** The error of the first chunk that has one. *)
Fixpoint firstError (tokenChan : list Llm.StreamChunk) : option string :=
  match tokenChan with
  | [] => None
  | chunk :: rest =>
      match Llm.Error chunk with
      | Some message => Some message
      | None => firstError rest
      end
  end.

(** The event that closes a stream. *)
Definition finalEvent (tokenChan : list Llm.StreamChunk) (metadata : QueryMetadata)
  : QueryStreamResponse :=
  match firstError tokenChan with
  | Some message => Event_Error "generation_error" message
  | None => Event_Metadata metadata
  end.

(** One [let] of the goal is reduced, and the projections of the record
    it binds are computed. *)
Ltac step_let :=
  lazymatch goal with
  | |- context C [let x := ?v in @?b x] =>
      let t := eval cbv beta in (b v) in
      let g := context C [t] in
      change g;
      cbn beta iota delta [topK minScore systemPrompt temperature maxTokens model]
  end.

End QuerySpec.

(** ** The notions of the statements on ingestion *)
Module DocumentSpec.
Import GoLib Repository Service Documents.

(** The rows with the id of [doc] have the content hash of [doc]. *)
Definition keepsHash (w : World) (doc : Document) : Prop :=
  forall d, d ∈ documents w -> sameDocument (Document_ID doc) d = true ->
            Document_ContentHash d = Document_ContentHash doc.

(** One operation on the stores that may run between two calls of a
    handler, seen from the documents of the tenant [tenantID] with the
    content hash [hash]: the operations of [processDocument] and of
    [processURL], and the creation of another document.  An update
    leaves that tenant and hash with the rows that have them and gives
    them to no other row: it may change the status, the chunk count
    and the title of any document, and the hash of a document that
    neither has nor gets [hash]. *)
Inductive backgroundStep (tenantID : UUID) (hash : gostring) (w w' : World) : Prop :=
| step_update (doc : Document) :
    (forall d, d ∈ documents w -> sameDocument (Document_ID doc) d = true ->
               sameHash tenantID hash (updatedRow doc d) = sameHash tenantID hash d) ->
    DocumentRepo_Update w doc = Some w' -> backgroundStep tenantID hash w w'
| step_create (doc : Document) :
    DocumentRepo_Create w doc = Some w' -> backgroundStep tenantID hash w w'
| step_chunks (chunks : list DocumentChunk) :
    DocumentRepo_CreateChunks w chunks = Some w' -> backgroundStep tenantID hash w w'
| step_points (collection : gostring) (chunks : list Vectorstore.Chunk) :
    w' = upsertPoints w collection chunks -> backgroundStep tenantID hash w w'
| step_uuids (n : nat) :
    w' = drawUUIDs w n -> backgroundStep tenantID hash w w'.

(** The lookup by hash finds a document with the id [id], and the
    tenants are [ts]. *)
Definition found (tenantID : UUID) (hash id : gostring) (ts : list Tenant)
    (w : World) : Prop :=
  tenants w = ts
  /\ exists d, DocumentRepo_GetByHash w tenantID hash = Some d /\ Document_ID d = id.

(** The document that [processURL] has in hand after the fetch: the
    title of the page or the URL, and the hash of the stripped body. *)
Definition fetchedDocument (sha256_hex : gostring -> gostring) (doc : Document)
    (url body text : gostring) : Document :=
  mkDocument (Document_ID doc) (Document_TenantID doc) (Document_Source doc)
             (if nonEmpty (extractTitle body) then extractTitle body else url)
             (sha256_hex text) (Document_ChunkCount doc) (str "PROCESSING")
             (Document_ErrorMessage doc) (Document_Metadata doc).

End DocumentSpec.

(** ** The data of the examples *)
Module Examples.
Import GoLib Repository Service QuerySpec.

(** The rune table of the examples: the runes outside ASCII are left as
    they are. *)
Definition asciiOnly (r : rune) : rune := r.

(** A text with a fenced code block that no blank line sets apart. *)
Definition inlineFence : gostring :=
  str "Example:" ++ nl ++ str "```go" ++ nl ++ str "func main() {}" ++ nl ++ str "```".

(** Two results without a token of three bytes or more. *)
Definition shortWords : Vectorstore.SearchResult :=
  Vectorstore.mkSearchResult (str "c1") (str "d1") (str "to be") 0.875%float ∅.

Definition marksOnly : Vectorstore.SearchResult :=
  Vectorstore.mkSearchResult (str "c2") (str "d2") (str "?? !!") 0.75%float ∅.

(** A valid tenant configuration around a chunker configuration. *)
Definition exampleTenantConfig (chunker : ChunkerConfig) : TenantConfig :=
  mkTenantConfig (str "nomic-embed-text") (str "llama3.2") chunker 4 0.5%float [] false.

(** A tenant id and the parser that knows it. *)
Definition tenantKey : gostring := str "7d444840-9dc0-11d1-b245-5ffdce74fad2".

Definition parseKey (s : gostring) : option UUID :=
  if streq s tenantKey then Some tenantKey else None.

(** A tenant that leaves top_k and min_score to the defaults. *)
Definition tenantWith (rerankerEnabled : bool) : Tenant :=
  {| Tenant_ID := tenantKey; Tenant_Name := str "docs"; Tenant_APIKey := str "key";
     Tenant_Config :=
       mkTenantConfig (str "nomic-embed-text") (str "llama3.2")
                      Ingestion.DefaultChunkerConfig 0 0%float [] rerankerEnabled;
     Tenant_Usage := mkTenantUsage 0 0 0 |}.

Definition storedPoints : list Vectorstore.ScoredPoint :=
  [ Vectorstore.mkScoredPoint (str "c1") 0.875%float
      (Some (<[str "content" := str "Install the server with the package manager"]>
             (<[str "document_id" := str "d1"]> ∅)));
    Vectorstore.mkScoredPoint (str "c2") 0.75%float
      (Some (<[str "content" := str "Configure the tenant before the first query"]>
             (<[str "document_id" := str "d2"]> ∅)));
    Vectorstore.mkScoredPoint (str "c3") 0.25%float
      (Some (<[str "content" := str "Unrelated release notes about fonts"]>
             (<[str "document_id" := str "d3"]> ∅))) ].

(** A store that filters by the score, as [HybridSearch] does. *)
Definition store : Vectorstore.VectorStore :=
  Vectorstore.mkVectorStore
    (fun _ _ _ minScore => inr (Vectorstore.hybridResults storedPoints minScore))
    (fun _ _ _ _ minScore => inr (Vectorstore.hybridResults storedPoints minScore)).

(** The text with which the model scores the two candidates. *)
Definition scoresJSON : gostring :=
  str "{" ++ [34] ++ str "scores" ++ [34] ++ str ": [{" ++ [34] ++ str "doc_index"
  ++ [34] ++ str ": 0, " ++ [34] ++ str "score" ++ [34] ++ str ": 0.125}, {" ++ [34]
  ++ str "doc_index" ++ [34] ++ str ": 1, " ++ [34] ++ str "score" ++ [34]
  ++ str ": 0.25}]}".

Definition decodeScores (response : gostring) : option (list Reranker.relevanceScore) :=
  if streq response scoresJSON
  then Some [Reranker.mkRelevanceScore 0 0.125%float;
             Reranker.mkRelevanceScore 1 0.25%float]
  else None.

(** A model that answers every prompt with [answer] and streams
    [tokenChan]. *)
Definition modelWith (answer : gostring) (tokenChan : list Llm.StreamChunk) : Llm.LLM :=
  Llm.mkLLM (fun _ _ => inr answer) (fun _ _ => inr tokenChan).

(** The sort by insertion, as a [sort.Slice]: [x] goes behind the
    elements that are less than it. *)
Fixpoint insertBy {A} (less : A -> A -> bool) (x : A) (l : list A) : list A :=
  match l with
  | [] => [x]
  | y :: l' => if less y x then y :: insertBy less x l' else x :: l
  end.

Definition sortBy {A} (less : A -> A -> bool) (l : list A) : list A :=
  foldr (insertBy less) [] l.

Definition llmReranker : Reranker.Reranker :=
  Reranker.Rerank decodeScores sortBy
    (Reranker.mkLLMReranker (modelWith scoresJSON []) (str "llama3.2")).

(** A reranker that is out of reach for a call with two candidates and
    scores every candidate 0 for any other call. *)
Definition flakyReranker : Reranker.Reranker := fun query results topK =>
  if len results =? 2 then inl "unavailable"%string
  else inr (map (fun result => Reranker.mkScoredResult result 0%float) results).

Definition serviceWith (rr : option Reranker.Reranker) (enabled : bool)
    (tokenChan : list Llm.StreamChunk) : RAGService :=
  {| tenantRepo_GetByID := fun _ => inr (tenantWith enabled);
     embedder_Embed := fun _ => inr [1%float];
     vectorDB := store;
     llmClient := modelWith (str "Use the package manager.") tokenChan;
     reranker := rr;
     useHybrid := false;
     sparseModel := None |}.

Definition request : QueryRequest :=
  mkQueryRequest tenantKey (str "How do I install the server?") None [].

Definition openStream : ServerStream := mkStream [] (fun _ => None).

Definition candidates : list Vectorstore.SearchResult :=
  Vectorstore.hybridResults storedPoints 0.5%float.

(** The stream of a model that answers in two tokens and then reports
    the end with an empty token. *)
Definition twoTokens : list Llm.StreamChunk :=
  [ Llm.mkStreamChunk (str "Use ") false None;
    Llm.mkStreamChunk (str "apt.") false None;
    Llm.mkStreamChunk [] true None ].

(** The stream of a model that has nothing to say. *)
Definition noToken : list Llm.StreamChunk := [ Llm.mkStreamChunk [] true None ].

End Examples.

(** ** The data of the examples on ingestion *)
Module DocExamples.
Import GoLib Repository Service Documents DocumentSpec Examples.

(** A stand-in for the digest that shows what was hashed. *)
Definition digestOf (s : gostring) : gostring := str "sha256:" ++ s.

(** The stream of [uuid.New]. *)
Definition newID (n : nat) : UUID := str "doc-" ++ strconv_Itoa (Z.of_nat n).

(** The three replacements of [stripHTML] on a text without a tag and
    with single spaces: nothing is replaced. *)
Definition replaceInPlainText (pattern : string) (src repl : gostring)
  : option gostring := Some src.

(** Go's [regexp]: the pattern with the backreference is refused. *)
Definition replaceAsGo (pattern : string) (src repl : gostring) : option gostring :=
  if String.eqb pattern "(?is)<(script|style)[^>]*>.*?</\1>" then None else Some src.

Definition pageBody : gostring := str "Install the server with the package manager.".

(** A service whose HTTP client finds the same page at every URL. *)
Definition docService : DocumentService :=
  {| embedder_EmbedBatch := fun texts => inr (map (fun _ => [1%float]) texts);
     vectorDB_UpsertError := fun _ _ => None;
     httpClient_Do := fun _ =>
       inr (mkHTTPResponse 200 (str "200 OK") (inr pageBody)) |}.

Definition world0 : World := mkWorld [tenantWith false] [] [] [] 0.

Definition directRequest : IngestDocumentRequest :=
  mkIngestDocumentRequest tenantKey pageBody (str "guide/install.md") (str "Install") ∅.

(** The same source and content again, under another title. *)
Definition repeatedRequest : IngestDocumentRequest :=
  mkIngestDocumentRequest tenantKey pageBody (str "guide/install.md")
                          (str "Installation") ∅.

Definition urlRequest (url : gostring) : IngestURLRequest :=
  mkIngestURLRequest tenantKey url ∅.

(** A handler's answer, followed by its goroutine run to its end. *)
Definition thenRun (replace : string -> gostring -> gostring -> option gostring)
    (out : (Status + IngestDocumentResponse) * World * option Task) : option Run :=
  match out with
  | (inr _, w, Some task) => runTask asciiOnly newID digestOf replace docService w task
  | (inr _, w, None) => Some (Finished w)
  | (inl _, _, _) => None
  end.

Definition worldOf (run : option Run) : World :=
  match run with
  | Some (Finished w) => w
  | Some (Panicked w) => w
  | None => world0
  end.

(** The stores after the direct ingestion of the page. *)
Definition worldAfterDirect : World :=
  worldOf (thenRun replaceInPlainText
             (IngestDocument parseKey newID digestOf docService world0 directRequest)).

(** The stores after the ingestion of two URLs, one after the other. *)
Definition worldAfterURL (replace : string -> gostring -> gostring -> option gostring)
    (w : World) (url : gostring) : World :=
  worldOf (thenRun replace (IngestURL parseKey newID docService w (urlRequest url))).

Definition urlA : gostring := str "https://example.org/a".
Definition urlB : gostring := str "https://example.org/b".

(** The stores after the ingestion of the first URL, and the second
    URL document as [IngestURL] creates it there. *)
Definition worldA : World := worldAfterURL replaceInPlainText world0 urlA.

Definition docB : Document :=
  mkDocument (str "doc-3") tenantKey urlB [] [] 0 (str "PENDING") [] ∅.

Definition createdB : World :=
  (IngestURL parseKey newID docService worldA (urlRequest urlB)).1.2.

Definition isPanicked (run : option Run) : bool :=
  match run with Some (Panicked _) => true | _ => false end.

(** What the rows of [documents] show of a document. *)
Definition rowSummary (d : Document) : gostring * gostring * gostring * Z :=
  (Document_Source d, Document_ContentHash d, Document_Status d, Document_ChunkCount d).

End DocExamples.


(** ** The notions of the statements on the conversation store *)
Module MemorySpec.
Import GoLib Memory.

(** The last [n] messages of a list, all of them when there are
    fewer. *)
Definition lastMessages (n : Z) (l : list Message) : list Message :=
  drop (length l - Z.to_nat n) l.

(** The messages of a list added to a session, one after the other. *)
Definition addMessages (s : Store) (sessionID : gostring) (msgs : list Message)
  : Store :=
  fold_left (fun s m => addMessage s sessionID (Role m) (Content m)) msgs s.

End MemorySpec.


(** ** The notions of the statements on the handlers *)
Module HandlerSpec.
Import GoLib Service.

(** The error of a failed generation. *)
Definition generationFailed (err : Status) : bool :=
  match err with
  | (Internal, message) => String.eqb message "failed to generate response"
  | _ => false
  end.

End HandlerSpec.

(** ** Example data for the document handlers *)
Module DocAPIExamples.
Import GoLib Repository Service Documents.

(** A parser that takes every string for the canonical form of an
    identifier. *)
Definition parseAny (s : gostring) : option UUID := Some s.

(** An engine whose deletions succeed. *)
Definition deleteSucceeds (tenantID documentID : gostring) : option string := None.

(** An engine that is down when points are to be deleted. *)
Definition deleteFails (tenantID documentID : gostring) : option string :=
  Some "unavailable"%string.

End DocAPIExamples.

(** ** The notions of the statements on the stream of [QueryStream] *)
Module StreamSpec.
Import GoLib Service.

(** The text of the token events of a list of events, in order. *)
Definition answerOf (events : list QueryStreamResponse) : gostring :=
  concat (map (fun event => match event with
                            | Event_Token token => token
                            | _ => []
                            end) events).

(** A source event or a token event. *)
Definition isSourceOrToken (event : QueryStreamResponse) : bool :=
  match event with
  | Event_Source _ | Event_Token _ => true
  | _ => false
  end.

End StreamSpec.

(** ** Facts about the library functions *)
Module GoLibFacts.
Import GoLib Spec.

Lemma dropWhile_head {A} (p : A -> bool) l x r :
  dropWhile p l = x :: r -> p x = false.
Proof.
  induction l as [|a l IH]; simpl; [discriminate|].
  destruct (p a) eqn:E; [exact IH|].
  intros H; inversion H; subst; exact E.
Qed.

Lemma hasNonSpace_nonempty s : hasNonSpace s = true -> s <> [].
Proof. destruct s; [discriminate | discriminate]. Qed.

Lemma hasNonSpace_app s t :
  hasNonSpace (s ++ t) = hasNonSpace s || hasNonSpace t.
Proof. apply existsb_app. Qed.

Lemma hasNonSpace_rev s : hasNonSpace (rev s) = hasNonSpace s.
Proof.
  induction s as [|a s IH]; [reflexivity|].
  simpl rev. rewrite hasNonSpace_app, IH. simpl.
  rewrite orb_false_r. apply orb_comm.
Qed.

Lemma dropWhile_hasNonSpace s :
  hasNonSpace (dropWhile unicode_IsSpace s) = hasNonSpace s.
Proof.
  induction s as [|a s IH]; [reflexivity|].
  simpl. destruct (unicode_IsSpace a) eqn:E; simpl; [exact IH|].
  rewrite E. reflexivity.
Qed.

Lemma TrimSpace_hasNonSpace s :
  hasNonSpace (strings_TrimSpace s) = hasNonSpace s.
Proof.
  unfold strings_TrimSpace.
  rewrite hasNonSpace_rev, dropWhile_hasNonSpace, hasNonSpace_rev.
  apply dropWhile_hasNonSpace.
Qed.

(** A trimmed text is empty or has a rune that is not white space. *)
Lemma TrimSpace_nonEmpty s :
  nonEmpty (strings_TrimSpace s) = hasNonSpace s.
Proof.
  rewrite <- TrimSpace_hasNonSpace.
  unfold strings_TrimSpace.
  destruct (dropWhile unicode_IsSpace (rev (dropWhile unicode_IsSpace s)))
    as [|x r] eqn:E; [reflexivity|].
  rewrite hasNonSpace_rev. simpl.
  rewrite (dropWhile_head _ _ _ _ E). simpl.
  destruct (rev r ++ [x]) eqn:E'; [|reflexivity].
  destruct (rev r); discriminate.
Qed.

Lemma TrimSpace_not_nil s :
  hasNonSpace s = true -> strings_TrimSpace s <> [].
Proof.
  intros H. apply hasNonSpace_nonempty. rewrite TrimSpace_hasNonSpace. exact H.
Qed.

Lemma fieldsFrom_nonempty cur s w :
  In w (fieldsFrom cur s) -> w <> [].
Proof.
  revert cur. induction s as [|r s IH]; intros cur; simpl.
  - destruct cur as [|c cur]; simpl; [tauto|].
    intros [<-|[]]. destruct (rev cur); discriminate.
  - destruct (unicode_IsSpace r).
    + destruct cur as [|c cur]; [apply IH|].
      simpl. intros [<-|H]; [destruct (rev cur); discriminate | eapply IH, H].
    + apply IH.
Qed.

Lemma Fields_nonempty s : Forall (fun w => w <> []) (strings_Fields s).
Proof. apply List.Forall_forall. intros w. apply fieldsFrom_nonempty. Qed.

Lemma Join_head_nonempty p rest sep :
  p <> [] -> strings_Join (p :: rest) sep <> [].
Proof.
  intros Hp. simpl. destruct rest; [exact Hp|].
  destruct p; [congruence | discriminate].
Qed.

Lemma Join_hasNonSpace parts sep :
  existsb hasNonSpace parts = true -> hasNonSpace (strings_Join parts sep) = true.
Proof.
  induction parts as [|p rest IH]; [discriminate|].
  simpl existsb. intros H. simpl.
  destruct rest as [|q rest'].
  - simpl in H. rewrite orb_false_r in H. exact H.
  - rewrite !hasNonSpace_app. apply orb_true_iff in H as [H|H].
    + rewrite H. reflexivity.
    + rewrite (IH H). rewrite !orb_true_r. reflexivity.
Qed.

Lemma len_nonneg {A} (l : list A) : 0 <= len l.
Proof. unfold len. lia. Qed.

Lemma len_app {A} (l k : list A) : len (l ++ k) = len l + len k.
Proof. unfold len. rewrite length_app. lia. Qed.

Lemma len_zero {A} (l : list A) : len l = 0 <-> l = [].
Proof. unfold len. destruct l; simpl; split; intros; try congruence; lia. Qed.

(** A window [xs[i:j]] with [i < j] inside the slice starts with
    [xs[i]]. *)
Lemma slice_head {A} (l : list A) i j :
  0 <= i -> i < len l -> i < j ->
  exists x rest, slice l i j = x :: rest /\ In x l.
Proof.
  unfold slice, len. intros Hi Hl Hj.
  destruct (drop (Z.to_nat i) l) as [|x r] eqn:E.
  - apply (f_equal length) in E. rewrite length_drop in E. simpl in E. lia.
  - destruct (Z.to_nat (j - i)) as [|n] eqn:En; [lia|].
    exists x, (take n r). split; [reflexivity|].
    apply list_elem_of_In. apply (list_elem_of_lookup_2 _ (Z.to_nat i)).
    rewrite <- (Nat.add_0_r (Z.to_nat i)), <- lookup_drop, E. reflexivity.
Qed.

End GoLibFacts.

(** ** The chunker (C1, C6) *)
Module ChunkerFacts.
Import GoLib Repository Ingestion Spec GoLibFacts.

Lemma windowStep_pos t o : 1 <= windowStep t o.
Proof.
  unfold windowStep.
  destruct (t - o <=? 0) eqn:E1; [|lia].
  destruct (Z.quot t 2 <=? 0) eqn:E2; lia.
Qed.

Lemma denseFrom_nil start : denseFrom start [].
Proof. intros k c H. rewrite lookup_nil in H. discriminate. Qed.

Lemma denseFrom_app start chunks more :
  denseFrom start chunks -> denseFrom (start + len chunks) more ->
  denseFrom start (chunks ++ more).
Proof.
  intros H1 H2 k c H. apply lookup_app_Some in H as [H|[Hk H]].
  - apply H1, H.
  - rewrite (H2 _ _ H). unfold len. lia.
Qed.

Lemma denseFrom_snoc start chunks c :
  denseFrom start chunks -> Index c = start + len chunks ->
  denseFrom start (chunks ++ [c]).
Proof.
  intros H1 H2. apply denseFrom_app; [exact H1|].
  intros k c' H. destruct k; simpl in H; [|rewrite lookup_nil in H; discriminate].
  inversion H; subst. lia.
Qed.

Lemma method_first (v : gostring) (m : gmap gostring gostring) :
  is_Some (<[str "method" := v]> m !! str "method").
Proof. rewrite lookup_insert_eq. eauto. Qed.

Lemma method_list (v : gostring) (rest : list (gostring * gostring)) :
  is_Some ((list_to_map ((str "method", v) :: rest) : gmap gostring gostring)
             !! str "method").
Proof. apply method_first. Qed.

Lemma method_insert (k v : gostring) (m : gmap gostring gostring) :
  is_Some (m !! str "method") -> is_Some (<[k := v]> m !! str "method").
Proof. intros H. rewrite lookup_insert_is_Some'. right. exact H. Qed.

(** A window of non-empty words, joined, is not empty. *)
Lemma window_content words i j :
  Forall (fun w => w <> []) words -> 0 <= i -> i < len words -> i < j ->
  strings_Join (slice words i j) space <> [].
Proof.
  intros Hw Hi Hl Hj.
  destruct (slice_head words i j Hi Hl Hj) as (x & rest & -> & Hin).
  apply Join_head_nonempty. rewrite List.Forall_forall in Hw. apply Hw, Hin.
Qed.

Lemma chunkFixedLoop_spec fuel c words i chunks :
  0 < TargetSize (config c) -> Forall (fun w => w <> []) words ->
  0 <= i -> (Z.to_nat (len words - i) <= fuel)%nat ->
  Forall goodChunk chunks -> denseFrom 0 chunks ->
  exists out, chunkFixedLoop fuel c words i chunks = Some out
              /\ Forall goodChunk out /\ denseFrom 0 out.
Proof.
  intros Ht Hw. revert i chunks.
  induction fuel as [|fuel IH]; intros i chunks Hi Hf Hg Hd.
  - simpl. destruct (i <? len words) eqn:E; [lia|]. eauto.
  - simpl. destruct (i <? len words) eqn:E; [|eauto].
    apply Z.ltb_lt in E.
    set (e := if i + TargetSize (config c) >? len words then len words
              else i + TargetSize (config c)).
    assert (He : i < e) by (unfold e; destruct (_ >? _); lia).
    match goal with |- context [chunks ++ [?x]] => set (new := x) end.
    assert (Hg' : Forall goodChunk (chunks ++ [new])).
    { apply Forall_app. split; [exact Hg|]. constructor; [|constructor].
      split; [apply window_content; assumption | subst new; simpl; apply method_first]. }
    assert (Hd' : denseFrom 0 (chunks ++ [new])).
    { apply denseFrom_snoc; [exact Hd|]. reflexivity. }
    destruct (e >=? len words); [eauto|].
    apply IH; try assumption.
    + pose proof (windowStep_pos (TargetSize (config c)) (Overlap (config c))). lia.
    + pose proof (windowStep_pos (TargetSize (config c)) (Overlap (config c))). lia.
Qed.

Lemma splitLongSentenceLoop_spec fuel c words start i chunks :
  0 < TargetSize (config c) -> Forall (fun w => w <> []) words ->
  0 <= i -> (Z.to_nat (len words - i) <= fuel)%nat ->
  Forall goodChunk chunks -> denseFrom start chunks ->
  exists out, splitLongSentenceLoop fuel c words start i chunks = Some out
              /\ Forall goodChunk out /\ denseFrom start out.
Proof.
  intros Ht Hw. revert i chunks.
  induction fuel as [|fuel IH]; intros i chunks Hi Hf Hg Hd.
  - simpl. destruct (i <? len words) eqn:E; [lia|]. eauto.
  - simpl. destruct (i <? len words) eqn:E; [|eauto].
    apply Z.ltb_lt in E.
    set (e := if i + TargetSize (config c) >? len words then len words
              else i + TargetSize (config c)).
    assert (He : i < e) by (unfold e; destruct (_ >? _); lia).
    match goal with |- context [chunks ++ [?x]] => set (new := x) end.
    assert (Hg' : Forall goodChunk (chunks ++ [new])).
    { apply Forall_app. split; [exact Hg|]. constructor; [|constructor].
      split; [apply window_content; assumption | subst new; simpl; apply method_first]. }
    assert (Hd' : denseFrom start (chunks ++ [new])).
    { apply denseFrom_snoc; [exact Hd|]. reflexivity. }
    destruct (e >=? len words); [eauto|].
    apply IH; try assumption.
    + pose proof (windowStep_pos (TargetSize (config c)) (Overlap (config c))). lia.
    + pose proof (windowStep_pos (TargetSize (config c)) (Overlap (config c))). lia.
Qed.

Section Sentences.
Variable unicodeLower : rune -> rune.

Lemma splitSentencesLoop_nonblank runes current sentences :
  Forall (fun s => hasNonSpace s = true) sentences ->
  Forall (fun s => hasNonSpace s = true)
         (splitSentencesLoop unicodeLower runes current sentences).
Proof.
  revert current sentences.
  induction runes as [|r rest IH]; intros current sentences Hs; simpl.
  - destruct (nonEmpty (strings_TrimSpace current)) eqn:E; [|exact Hs].
    apply Forall_app. split; [exact Hs|]. constructor; [|constructor].
    rewrite TrimSpace_hasNonSpace, <- TrimSpace_nonEmpty. exact E.
  - destruct (isTerminal r && _); [|apply IH, Hs].
    destruct (nonEmpty (strings_TrimSpace (current ++ [r]))) eqn:E;
      simpl; [|apply IH, Hs].
    destruct (negb _); [|apply IH, Hs].
    apply IH. apply Forall_app. split; [exact Hs|]. constructor; [|constructor].
    rewrite TrimSpace_hasNonSpace, <- TrimSpace_nonEmpty. exact E.
Qed.

Lemma splitSentences_nonblank text :
  Forall (fun s => hasNonSpace s = true) (splitSentences unicodeLower text).
Proof.
  unfold splitSentences. destruct (nonEmpty _); [|constructor].
  apply splitSentencesLoop_nonblank. constructor.
Qed.

Lemma joined_sentences_content sentences sep :
  sentences <> [] -> Forall (fun s => hasNonSpace s = true) sentences ->
  hasNonSpace (strings_Join sentences sep) = true.
Proof.
  intros Hne Hs. apply Join_hasNonSpace.
  destruct sentences as [|s rest]; [congruence|].
  inversion Hs; subst. simpl. rewrite H1. reflexivity.
Qed.

Lemma createSentenceChunk_good sentences index :
  sentences <> [] -> Forall (fun s => hasNonSpace s = true) sentences ->
  goodChunk (createSentenceChunk sentences index).
Proof.
  intros Hne Hs. split; simpl.
  - apply TrimSpace_not_nil, joined_sentences_content; assumption.
  - apply method_first.
Qed.

Lemma overlapLoop_spec overlap backwards acc ow :
  Forall (fun s => hasNonSpace s = true) backwards ->
  Forall (fun s => hasNonSpace s = true) acc ->
  (0 < ow -> acc <> []) ->
  Forall (fun s => hasNonSpace s = true) (overlapLoop overlap backwards acc ow).1
  /\ (0 < (overlapLoop overlap backwards acc ow).2
      -> (overlapLoop overlap backwards acc ow).1 <> []).
Proof.
  revert acc ow. induction backwards as [|s rest IH]; intros acc ow Hb Ha Hn; simpl.
  - split; assumption.
  - destruct (ow <? overlap); [|split; assumption].
    inversion Hb; subst. apply IH; [assumption | constructor; assumption | discriminate].
Qed.

Lemma calculateSentenceOverlap_spec c sentences s n :
  Forall (fun s => hasNonSpace s = true) sentences ->
  calculateSentenceOverlap c sentences = (s, n) ->
  Forall (fun s => hasNonSpace s = true) s /\ (0 < n -> s <> []).
Proof.
  unfold calculateSentenceOverlap. intros Hs.
  destruct (_ || _).
  - intros H; inversion H; subst. split; [constructor | lia].
  - intros H.
    destruct (overlapLoop_spec (Overlap (config c)) (rev sentences) [] 0) as [H1 H2].
    + apply Forall_rev, Hs.
    + constructor.
    + lia.
    + rewrite H in H1, H2. split; assumption.
Qed.

Lemma chunkSentenceLoop_spec c sentences chunks cur cnt :
  0 < TargetSize (config c) ->
  Forall (fun s => hasNonSpace s = true) sentences ->
  Forall goodChunk chunks -> denseFrom 0 chunks ->
  Forall (fun s => hasNonSpace s = true) cur -> (0 < cnt -> cur <> []) ->
  exists out, chunkSentenceLoop c sentences chunks cur cnt = Some out
              /\ Forall goodChunk out /\ denseFrom 0 out.
Proof.
  intros Ht. revert chunks cur cnt.
  induction sentences as [|sentence rest IH]; intros chunks cur cnt Hs Hg Hd Hc Hn.
  - simpl. destruct (0 <? len cur) eqn:E; [|eauto].
    eexists; split; [reflexivity|]. split.
    + apply Forall_app. split; [exact Hg|]. constructor; [|constructor].
      apply createSentenceChunk_good; [|exact Hc].
      intros ->. discriminate.
    + apply denseFrom_snoc; [exact Hd | reflexivity].
  - inversion Hs as [|? ? Hs1 Hs2]; subst.
    assert (Hflush : forall chunks cur,
               Forall goodChunk chunks -> denseFrom 0 chunks ->
               Forall (fun s => hasNonSpace s = true) cur -> cur <> [] ->
               Forall goodChunk (chunks ++ [createSentenceChunk cur (len chunks)])
               /\ denseFrom 0 (chunks ++ [createSentenceChunk cur (len chunks)])).
    { intros ch cu Hg' Hd' Hc' Hne. split.
      - apply Forall_app. split; [exact Hg'|]. constructor; [|constructor].
        apply createSentenceChunk_good; assumption.
      - apply denseFrom_snoc; [exact Hd' | reflexivity]. }
    cbn [chunkSentenceLoop].
    set (sw := len (strings_Fields sentence)).
    (* the state after the first flush *)
    match goal with
    | |- context [match ?e with pair _ _ => _ end] => set (st := e)
    end.
    assert (H1 : exists chunks1 cur1 cnt1,
               st = (chunks1, cur1, cnt1)
               /\ Forall goodChunk chunks1 /\ denseFrom 0 chunks1
               /\ Forall (fun s => hasNonSpace s = true) cur1
               /\ (0 < cnt1 -> cur1 <> [])).
    { subst st. destruct ((cnt + sw >? MaxSize (config c)) && (cnt >? 0)) eqn:E.
      - apply andb_true_iff in E as [_ E].
        destruct (calculateSentenceOverlap c cur) as [s n] eqn:Eo.
        destruct (calculateSentenceOverlap_spec c cur s n Hc Eo) as [Ho1 Ho2].
        destruct (Hflush chunks cur Hg Hd Hc) as [Hf1 Hf2]; [apply Hn; lia|].
        do 3 eexists. split; [reflexivity|]. auto.
      - do 3 eexists. split; [reflexivity|]. auto. }
    destruct H1 as (chunks1 & cur1 & cnt1 & -> & Hg1 & Hd1 & Hc1 & Hn1).
    cbv beta iota.
    destruct (sw >? MaxSize (config c)) eqn:Elong.
    + (* a long sentence *)
      match goal with
      | |- context [match ?e with pair _ _ => _ end] => set (st := e)
      end.
      assert (H2 : exists chunks2 cur2 cnt2,
                 st = (chunks2, cur2, cnt2)
                 /\ Forall goodChunk chunks2 /\ denseFrom 0 chunks2
                 /\ Forall (fun s => hasNonSpace s = true) cur2
                 /\ (0 < cnt2 -> cur2 <> [])).
      { subst st. destruct (cnt1 >? 0) eqn:E.
        - destruct (Hflush chunks1 cur1 Hg1 Hd1 Hc1) as [Hf1 Hf2]; [apply Hn1; lia|].
          do 3 eexists. split; [reflexivity|].
          repeat split; try assumption; [constructor | lia].
        - do 3 eexists. split; [reflexivity|]. auto. }
      destruct H2 as (chunks2 & cur2 & cnt2 & -> & Hg2 & Hd2 & Hc2 & Hn2).
      cbv beta iota.
      unfold splitLongSentence.
      destruct (splitLongSentenceLoop_spec
                  (S (length (strings_Fields sentence))) c
                  (strings_Fields sentence) (len chunks2) 0 [])
        as (split & -> & Hsg & Hsd);
        [exact Ht | apply Fields_nonempty | lia | unfold len; lia
         | constructor | apply denseFrom_nil |].
      apply IH; try assumption.
      * apply Forall_app. split; assumption.
      * apply denseFrom_app; [exact Hd2|]. rewrite Z.add_0_l. exact Hsd.
    + (* the sentence joins the current ones *)
      assert (Hc' : Forall (fun s => hasNonSpace s = true) (cur1 ++ [sentence])).
      { apply Forall_app. split; [exact Hc1|]. constructor; [exact Hs1 | constructor]. }
      assert (Hne' : cur1 ++ [sentence] <> []) by (destruct cur1; discriminate).
      destruct (cnt1 + sw >=? TargetSize (config c)).
      * destruct (calculateSentenceOverlap c (cur1 ++ [sentence])) as [s n] eqn:Eo.
        destruct (calculateSentenceOverlap_spec c _ s n Hc' Eo) as [Ho1 Ho2].
        destruct (Hflush chunks1 (cur1 ++ [sentence]) Hg1 Hd1 Hc' Hne') as [Hf1 Hf2].
        apply IH; assumption.
      * apply IH; try assumption. intros _. exact Hne'.
Qed.

Lemma chunkSentence_spec c content :
  0 < TargetSize (config c) ->
  exists out, chunkSentence unicodeLower c content = Some out
              /\ Forall goodChunk out /\ denseFrom 0 out.
Proof.
  intros Ht. unfold chunkSentence.
  destruct (len (splitSentences unicodeLower content) =? 0).
  - eexists; split; [reflexivity|]. split; [constructor | apply denseFrom_nil].
  - apply chunkSentenceLoop_spec; try assumption.
    + apply splitSentences_nonblank.
    + constructor.
    + apply denseFrom_nil.
    + constructor.
    + lia.
Qed.

End Sentences.

Lemma chunkFixed_spec c content :
  0 < TargetSize (config c) ->
  exists out, chunkFixed c content = Some out
              /\ Forall goodChunk out /\ denseFrom 0 out.
Proof.
  intros Ht. unfold chunkFixed.
  destruct (len (strings_Fields content) =? 0).
  - eexists; split; [reflexivity|]. split; [constructor | apply denseFrom_nil].
  - apply chunkFixedLoop_spec; try assumption.
    + apply Fields_nonempty.
    + lia.
    + unfold len. lia.
    + constructor.
    + apply denseFrom_nil.
Qed.

(** *** The semantic strategy *)

Lemma matchCodeBlockAt_nonblank s m :
  matchCodeBlockAt s = Some m -> hasNonSpace m = true.
Proof.
  unfold matchCodeBlockAt. destruct (strings_HasPrefix s fence); [|discriminate].
  destruct (dropWhile reWord (drop 3 s)) as [|ch s2]; [discriminate|].
  destruct (ch =? NL); [|discriminate].
  destruct (findFence [] s2); [|discriminate].
  intros H; inversion H. reflexivity.
Qed.

Lemma replaceCodeBlocks_nonblank s skip i k v :
  (replaceCodeBlocks skip i s).2 !! k = Some v -> hasNonSpace v = true.
Proof.
  revert skip i. induction s as [|r s IH]; intros skip i; simpl.
  - rewrite lookup_empty. discriminate.
  - destruct skip as [|skip]; [|apply IH].
    destruct (matchCodeBlockAt (r :: s)) as [m|] eqn:E.
    + destruct (replaceCodeBlocks _ (i + 1) s) as [p cm] eqn:Er. simpl.
      rewrite lookup_insert. case_decide as Hk.
      * intros Hv; inversion Hv; subst. eapply matchCodeBlockAt_nonblank, E.
      * intros Hv. eapply (IH _ (i + 1)). rewrite Er. exact Hv.
    + destruct (replaceCodeBlocks 0 i s) as [p cm] eqn:Er. simpl.
      intros H. eapply (IH _ i). rewrite Er. exact H.
Qed.

Lemma parseParagraphs_nonblank codeBlockMap paragraphs hdr lvl :
  (forall k v, codeBlockMap !! k = Some v -> hasNonSpace v = true) ->
  Forall nonblankBlock (parseParagraphs codeBlockMap paragraphs hdr lvl).
Proof.
  intros Hm. revert hdr lvl.
  induction paragraphs as [|para rest IH]; intros hdr lvl; simpl; [constructor|].
  destruct (nonEmpty (strings_TrimSpace para)) eqn:E; simpl; [|apply IH].
  assert (Hp : hasNonSpace (strings_TrimSpace para) = true).
  { rewrite TrimSpace_hasNonSpace, <- TrimSpace_nonEmpty. exact E. }
  assert (Hplain :
            Forall nonblankBlock
              match findHeader (strings_TrimSpace para) with
              | Some (hashes, title) =>
                  mkBlock header_ (strings_TrimSpace para) title (len hashes)
                    :: parseParagraphs codeBlockMap rest title (len hashes)
              | None =>
                  if matchTable (strings_TrimSpace para)
                  then mkBlock table_ (strings_TrimSpace para) hdr lvl
                         :: parseParagraphs codeBlockMap rest hdr lvl
                  else if isListBlock (strings_TrimSpace para)
                  then mkBlock list_ (strings_TrimSpace para) hdr lvl
                         :: parseParagraphs codeBlockMap rest hdr lvl
                  else mkBlock paragraph_ (strings_TrimSpace para) hdr lvl
                         :: parseParagraphs codeBlockMap rest hdr lvl
              end).
  { destruct (findHeader _) as [[hashes title]|].
    - constructor; [exact Hp | apply IH].
    - destruct (matchTable _); [constructor; [exact Hp | apply IH]|].
      destruct (isListBlock _); constructor; try exact Hp; apply IH. }
  destruct (_ && _); [|exact Hplain].
  destruct (codeBlockMap !! strings_TrimSpace para) as [code|] eqn:Ec; [|exact Hplain].
  constructor; [eapply Hm, Ec | apply IH].
Qed.

Lemma parseIntoBlocks_nonblank c content :
  Forall nonblankBlock (parseIntoBlocks c content).
Proof.
  unfold parseIntoBlocks.
  destruct (replaceCodeBlocks 0 0 content) as [p cm] eqn:E.
  apply parseParagraphs_nonblank. intros k v H.
  apply (replaceCodeBlocks_nonblank content 0%nat 0 k v). rewrite E. exact H.
Qed.

Lemma contentPartsLoop_content first blocks headerAdded :
  blocks <> [] -> Forall nonblankBlock blocks ->
  existsb hasNonSpace (contentPartsLoop first blocks headerAdded) = true.
Proof.
  intros Hne Hb. destruct blocks as [|b rest]; [congruence|].
  inversion Hb as [|? ? Hb1 _]; subst. unfold nonblankBlock in Hb1.
  cbn [contentPartsLoop].
  destruct (nonEmpty (header b) && negb headerAdded); cbn [existsb].
  - destruct (_ || _); cbn [existsb]; rewrite Hb1, ?orb_true_r; reflexivity.
  - rewrite Hb1. reflexivity.
Qed.

Lemma flushChunk_inv st : groupInv st -> groupInv (flushChunk st).
Proof.
  intros [Hg Hb]. unfold flushChunk.
  destruct (currentBlocks st) as [|first rest] eqn:E; [split; [exact Hg | rewrite E; exact Hb]|].
  split; cbn [chunks currentBlocks]; [|constructor].
  apply Forall_app. split; [exact Hg|]. constructor; [|constructor].
  split; cbn [Content Metadata].
  - apply TrimSpace_not_nil, Join_hasNonSpace, contentPartsLoop_content;
      [discriminate | exact Hb].
  - repeat match goal with
           | |- context [if ?b then _ else _] => destruct b
           end;
      repeat first [apply method_list | apply method_insert].
Qed.

Lemma splitChunk_good block sentences words index :
  sentences <> [] -> Forall (fun s => hasNonSpace s = true) sentences ->
  goodChunk (splitChunk block sentences words index).
Proof.
  intros Hne Hs. split; simpl.
  - apply TrimSpace_not_nil. unfold withSection.
    destruct (nonEmpty (header block)).
    + rewrite !hasNonSpace_app, (joined_sentences_content _ _ Hne Hs).
      rewrite !orb_true_r. reflexivity.
    + apply joined_sentences_content; assumption.
  - apply method_first.
Qed.

Lemma splitLargeBlockLoop_good c block sentences chunks cur cw :
  Forall (fun s => hasNonSpace s = true) sentences ->
  Forall goodChunk chunks ->
  Forall (fun s => hasNonSpace s = true) cur -> (0 < cw -> cur <> []) ->
  Forall goodChunk (splitLargeBlockLoop c block sentences chunks cur cw).
Proof.
  revert chunks cur cw.
  induction sentences as [|sentence rest IH]; intros chunks cur cw Hs Hg Hc Hn; simpl.
  - destruct (0 <? len cur) eqn:E; [|exact Hg].
    apply Forall_app. split; [exact Hg|]. constructor; [|constructor].
    apply splitChunk_good; [|exact Hc]. intros ->. discriminate.
  - inversion Hs as [|? ? Hs1 Hs2]; subst.
    destruct ((cw + len (strings_Fields sentence) >? TargetSize (config c))
              && (cw >? 0)) eqn:E.
    + apply andb_true_iff in E as [_ E].
      apply IH; try assumption.
      * apply Forall_app. split; [exact Hg|]. constructor; [|constructor].
        apply splitChunk_good; [apply Hn; lia | exact Hc].
      * constructor; [exact Hs1 | constructor].
      * discriminate.
    + apply IH; try assumption.
      * apply Forall_app. split; [exact Hc|]. constructor; [exact Hs1 | constructor].
      * intros _. destruct cur; discriminate.
Qed.

Section Semantic.
Variable unicodeLower : rune -> rune.

Lemma splitLargeBlock_good c block :
  Forall goodChunk (splitLargeBlock unicodeLower c block).
Proof.
  apply splitLargeBlockLoop_good;
    [apply splitSentences_nonblank | constructor | constructor | lia].
Qed.

Lemma groupBlocksLoop_inv c blocks st :
  Forall nonblankBlock blocks -> groupInv st ->
  groupInv (groupBlocksLoop unicodeLower c blocks st).
Proof.
  revert st. induction blocks as [|block rest IH]; intros st Hb Hi; [exact Hi|].
  inversion Hb as [|? ? Hb1 Hb2]; subst.
  cbn [groupBlocksLoop].
  set (bw := len (strings_Fields (content block))).
  set (st1 := if blockKind_eqb (blockType block) header_
              then mkGroupState (chunks st) (currentBlocks st) (currentWords st)
                                (header block)
              else st).
  assert (Hi1 : groupInv st1).
  { subst st1. destruct (blockKind_eqb _ _); [|exact Hi]. exact Hi. }
  clearbody st1.
  assert (Happend : forall st' w,
             groupInv st' ->
             groupInv (mkGroupState (chunks st') (currentBlocks st' ++ [block]) w
                                    (currentHeader st'))).
  { intros st' w [Hg' Hb']. split; simpl; [exact Hg'|].
    apply Forall_app. split; [exact Hb' | constructor; [exact Hb1 | constructor]]. }
  destruct (bw >? MaxSize (config c)).
  - destruct (_ || _).
    + apply IH; [exact Hb2|]. apply flushChunk_inv, Happend, flushChunk_inv, Hi1.
    + apply IH; [exact Hb2|].
      destruct (flushChunk_inv st1 Hi1) as [Hg' Hb']. split; simpl; [|exact Hb'].
      apply Forall_app. split; [exact Hg' | apply splitLargeBlock_good].
  - destruct (_ && _).
    + destruct (_ && _).
      * apply IH; [exact Hb2|]. apply flushChunk_inv, Happend, Hi1.
      * apply IH; [exact Hb2|]. apply Happend, flushChunk_inv, Hi1.
    + apply IH; [exact Hb2|]. apply Happend, Hi1.
Qed.

Lemma groupBlocksIntoChunks_good c blocks :
  Forall nonblankBlock blocks ->
  Forall goodChunk (groupBlocksIntoChunks unicodeLower c blocks).
Proof.
  intros Hb. unfold groupBlocksIntoChunks.
  apply flushChunk_inv, groupBlocksLoop_inv; [exact Hb|].
  split; constructor.
Qed.

End Semantic.

Lemma overlapChunk_good c prev chunk :
  goodChunk chunk -> goodChunk (overlapChunk c prev chunk).
Proof.
  intros [Hc Hm]. unfold overlapChunk.
  repeat match goal with
         | |- goodChunk (if ?b then _ else _) => destruct b
         end; try (split; assumption).
  split; simpl; [discriminate|]. apply method_insert, method_insert, Hm.
Qed.

Lemma overlapLoopFrom_good c prev rest :
  Forall goodChunk rest -> Forall goodChunk (overlapLoopFrom c prev rest).
Proof.
  revert prev. induction rest as [|chunk rest IH]; intros prev H; simpl; [constructor|].
  inversion H; subst. constructor; [apply overlapChunk_good; assumption | apply IH; assumption].
Qed.

Lemma addSemanticOverlap_good c chunks :
  Forall goodChunk chunks -> Forall goodChunk (addSemanticOverlap c chunks).
Proof.
  intros H. unfold addSemanticOverlap. destruct (len chunks <=? 1); [exact H|].
  destruct chunks as [|chunk0 rest]; [constructor|].
  inversion H; subst. constructor; [assumption | apply overlapLoopFrom_good; assumption].
Qed.

Lemma renumber_spec chunks :
  Forall goodChunk chunks ->
  Forall goodChunk (renumber chunks) /\ denseFrom 0 (renumber chunks).
Proof.
  intros H. unfold renumber. split.
  - apply Forall_lookup. intros k c Hk.
    rewrite list_lookup_imap in Hk.
    destruct (chunks !! k) as [c0|] eqn:E; [|discriminate].
    inversion Hk; subst.
    rewrite Forall_lookup in H. exact (H _ _ E).
  - intros k c Hk. rewrite list_lookup_imap in Hk.
    destruct (chunks !! k) as [c0|]; [|discriminate].
    inversion Hk; subst. reflexivity.
Qed.

Lemma chunkSemantic_spec unicodeLower c content :
  Forall goodChunk (chunkSemantic unicodeLower c content)
  /\ denseFrom 0 (chunkSemantic unicodeLower c content).
Proof.
  unfold chunkSemantic. apply renumber_spec.
  assert (H : Forall goodChunk
                (groupBlocksIntoChunks unicodeLower c (parseIntoBlocks c content)))
    by apply groupBlocksIntoChunks_good, parseIntoBlocks_nonblank.
  destruct (Overlap (config c) >? 0); [apply addSemanticOverlap_good|]; exact H.
Qed.

Lemma NewChunker_target config : 0 < TargetSize (Ingestion.config (NewChunker config)).
Proof.
  unfold NewChunker.
  destruct (TargetSize config <=? 0) eqn:E;
    repeat match goal with
           | |- context [if ?b then _ else _] => destruct b
           end; simpl; lia.
Qed.

Lemma Chunker_Chunk_spec unicodeLower c content :
  0 < TargetSize (config c) ->
  exists out, Chunker_Chunk unicodeLower c content = Some out
              /\ Forall goodChunk out /\ denseFrom 0 out.
Proof.
  intros Ht. unfold Chunker_Chunk.
  destruct (negb _).
  { eexists; split; [reflexivity|]. split; [constructor | apply denseFrom_nil]. }
  destruct (streq _ _); [apply chunkFixed_spec, Ht|].
  destruct (streq _ _); [apply chunkSentence_spec, Ht|].
  destruct (streq _ _); eexists; (split; [reflexivity | apply chunkSemantic_spec]).
Qed.

(** The indices of a dense list are [0, 1, ..., N-1]. *)
Lemma denseFrom_indices chunks :
  denseFrom 0 chunks -> map Index chunks = map Z.of_nat (seq 0 (length chunks)).
Proof.
  intros H. apply list_eq. intros k.
  rewrite !list_lookup_fmap.
  destruct (chunks !! k) as [c|] eqn:E; simpl.
  - rewrite (H _ _ E), lookup_seq_lt; [reflexivity|].
    eapply lookup_lt_Some, E.
  - rewrite lookup_seq_ge; [reflexivity|]. apply lookup_ge_None, E.
Qed.

(** C6.  For every text and every configuration (the three strategies,
    and any other method name, which falls back to the semantic one),
    [Chunk] returns a list of chunks; every chunk has a content that is
    not empty and a [method] key in its metadata, and the [Index] fields
    are 0, 1, ..., N-1 in this order: no gap and no duplicate. *)
Theorem Chunk_chunks_well_formed :
  forall (unicodeLower : rune -> rune) (config : ChunkerConfig) (content : gostring),
  exists chunks,
    Chunker_Chunk unicodeLower (NewChunker config) content = Some chunks
    /\ Forall (fun c => Content c <> []
                        /\ is_Some (Metadata c !! str "method")) chunks
    /\ map Index chunks = map Z.of_nat (seq 0 (length chunks)).
Proof.
  intros unicodeLower config content.
  destruct (Chunker_Chunk_spec unicodeLower (NewChunker config) content
              (NewChunker_target config)) as (out & Ho & Hg & Hd).
  exists out. split; [exact Ho|]. split; [exact Hg|].
  apply denseFrom_indices, Hd.
Qed.

(** C1, on the semantic strategy.  A fenced code block that follows a
    line of text without a blank line between them is replaced by its
    placeholder in the only chunk that [Chunk] returns: the tokens of
    the input are not all in the contents of the chunks (the token
    [func] is in none of them). *)
Theorem Chunk_semantic_loses_inline_code :
  forall unicodeLower : rune -> rune,
    Chunker_Chunk unicodeLower (NewChunker DefaultChunkerConfig) Examples.inlineFence
    = Some [ mkChunk (str "Example:" ++ nl ++ str "___CODE_BLOCK_0___") 0
                     (list_to_map [ (str "method", str "semantic");
                                    (str "word_count", str "2") ]) ]
    /\ option_map (fun chunks => tokensInOrder (strings_Fields Examples.inlineFence)
                                               (chunkTokens chunks))
         (Chunker_Chunk unicodeLower (NewChunker DefaultChunkerConfig)
            Examples.inlineFence)
       = Some false
    /\ option_map (fun chunks => existsb (streq (str "func")) (chunkTokens chunks))
         (Chunker_Chunk unicodeLower (NewChunker DefaultChunkerConfig)
            Examples.inlineFence)
       = Some false.
Proof. intros unicodeLower. vm_compute. repeat split. Qed.

End ChunkerFacts.

(** ** Deduplication (C8, C10) *)
Module DedupFacts.
Import GoLib Service DedupSpec.

Lemma lookup_repeat_lt {A} (x : A) (n j : nat) :
  (j < n)%nat -> repeat x n !! j = Some x.
Proof.
  revert j. induction n as [|n IH]; intros j Hj; [lia|].
  destruct j as [|j]; [reflexivity|]. simpl. apply IH. lia.
Qed.

Section Mask.
Variable wordSets : list (gset gostring).
Variable threshold : float.
Variable n : nat.

Local Abbreviation dup := (DedupSpec.dup wordSets threshold).
Local Abbreviation outerStep := (DedupSpec.outerStep wordSets threshold n).
Local Abbreviation finalKeep := (DedupSpec.finalKeep wordSets threshold n).

Lemma kept_insert keep a j :
  kept keep a = true ->
  kept (<[a := false]> keep) j = if (j =? a)%nat then false else kept keep j.
Proof.
  unfold kept. intros Ha.
  destruct (Nat.eqb_spec j a) as [->|Hne].
  - rewrite list_lookup_insert_eq; [reflexivity|].
    apply lookup_lt_is_Some. destruct (keep !! a); [eauto | discriminate].
  - rewrite list_lookup_insert_ne; [reflexivity | congruence].
Qed.

Lemma dedupInner_spec i js keep :
  length (dedupInner wordSets threshold i js keep) = length keep
  /\ forall j, kept (dedupInner wordSets threshold i js keep) j
               = if bool_decide (j ∈ js) then kept keep j && negb (dup i j)
                 else kept keep j.
Proof.
  revert keep. induction js as [|a js IH]; intros keep.
  - split; [reflexivity|]. intros j. rewrite bool_decide_eq_false_2; [reflexivity|].
    apply not_elem_of_nil.
  - unfold dedupInner. cbn [fold_left]. fold (kept keep a). fold (dup i a).
    set (keep' := if negb (kept keep a) then keep
                  else if dup i a then <[a := false]> keep else keep).
    fold (dedupInner wordSets threshold i js keep').
    assert (Hlen : length keep' = length keep).
    { subst keep'. destruct (negb _); [reflexivity|].
      destruct (dup i a); [apply length_insert | reflexivity]. }
    assert (Hk : forall j, kept keep' j
                           = if (j =? a)%nat then kept keep a && negb (dup i a)
                             else kept keep j).
    { intros j. subst keep'. destruct (kept keep a) eqn:Ea; simpl.
      - destruct (dup i a) eqn:Ed; simpl.
        + apply kept_insert, Ea.
        + destruct (Nat.eqb_spec j a) as [->|]; [exact Ea | reflexivity].
      - destruct (Nat.eqb_spec j a) as [->|]; [exact Ea | reflexivity]. }
    destruct (IH keep') as [IH1 IH2]. split; [congruence|].
    intros j. rewrite IH2, Hk.
    destruct (Nat.eqb_spec j a) as [->|Hne].
    + rewrite (bool_decide_eq_true_2 (a ∈ a :: js)) by (apply elem_of_cons; left; reflexivity).
      destruct (bool_decide (a ∈ js)); [|reflexivity].
      destruct (kept keep a), (dup i a); reflexivity.
    + destruct (bool_decide (j ∈ js)) eqn:Ej.
      * apply bool_decide_eq_true in Ej.
        rewrite bool_decide_eq_true_2; [reflexivity | apply elem_of_cons; right; exact Ej].
      * apply bool_decide_eq_false in Ej.
        rewrite bool_decide_eq_false_2; [reflexivity|].
        rewrite elem_of_cons. tauto.
Qed.

Lemma outerStep_length keep i : length (outerStep keep i) = length keep.
Proof.
  unfold DedupSpec.outerStep. destruct (negb _); [reflexivity|]. apply dedupInner_spec.
Qed.

Lemma kept_outside keep j : (length keep <= j)%nat -> kept keep j = false.
Proof. intros H. unfold kept. rewrite (lookup_ge_None_2 _ _ H). reflexivity. Qed.

Lemma outerStep_spec keep i j :
  length keep = n ->
  kept (outerStep keep i) j
  = kept keep j && negb (kept keep i && (i <? j)%nat && dup i j).
Proof.
  intros Hlen. unfold DedupSpec.outerStep.
  destruct (kept keep i) eqn:Ei; simpl; [|rewrite andb_true_r; reflexivity].
  destruct (dedupInner_spec i (seq (S i) (n - S i)) keep) as [_ ->].
  destruct (bool_decide (j ∈ seq (S i) (n - S i))) eqn:Ej.
  - apply bool_decide_eq_true in Ej. apply elem_of_seq in Ej.
    replace (i <? j)%nat with true by (symmetry; apply Nat.ltb_lt; lia).
    reflexivity.
  - apply bool_decide_eq_false in Ej. rewrite elem_of_seq in Ej.
    destruct (Nat.ltb_spec i j) as [Hij|Hij]; simpl.
    + rewrite kept_outside by lia. reflexivity.
    + rewrite andb_true_r. reflexivity.
Qed.

Lemma dedupOuter_snoc idx i keep :
  dedupOuter wordSets threshold n (idx ++ [i]) keep
  = outerStep (dedupOuter wordSets threshold n idx keep) i.
Proof. unfold dedupOuter. rewrite fold_left_app. reflexivity. Qed.

Lemma dedupOuter_app idx1 idx2 keep :
  dedupOuter wordSets threshold n (idx1 ++ idx2) keep
  = dedupOuter wordSets threshold n idx2
      (dedupOuter wordSets threshold n idx1 keep).
Proof. unfold dedupOuter. apply fold_left_app. Qed.

Lemma dedupOuter_cons idx i keep :
  dedupOuter wordSets threshold n (i :: idx) keep
  = dedupOuter wordSets threshold n idx (outerStep keep i).
Proof. reflexivity. Qed.

Lemma dedupOuter_length idx keep :
  length (dedupOuter wordSets threshold n idx keep) = length keep.
Proof.
  revert keep. induction idx as [|i idx IH]; intros keep; [reflexivity|].
  rewrite dedupOuter_cons, IH. apply outerStep_length.
Qed.

(** A flag that is cleared stays cleared. *)
Lemma dedupOuter_mono idx keep j :
  length keep = n ->
  kept (dedupOuter wordSets threshold n idx keep) j = true -> kept keep j = true.
Proof.
  revert keep. induction idx as [|i idx IH]; intros keep Hlen; [tauto|].
  rewrite dedupOuter_cons. intros H.
  apply IH in H; [|rewrite outerStep_length; exact Hlen].
  rewrite outerStep_spec in H by exact Hlen.
  apply andb_true_iff in H. tauto.
Qed.

(** The rounds of the indices from [j] on leave [keep[j]] as it is. *)
Lemma dedupOuter_stable idx keep j :
  length keep = n -> Forall (fun i => (j <= i)%nat) idx ->
  kept (dedupOuter wordSets threshold n idx keep) j = kept keep j.
Proof.
  revert keep. induction idx as [|i idx IH]; intros keep Hlen Hidx; [reflexivity|].
  apply Forall_cons in Hidx as [Hi Hrest].
  rewrite dedupOuter_cons, IH; [|rewrite outerStep_length; exact Hlen | exact Hrest].
  rewrite outerStep_spec by exact Hlen.
  replace (i <? j)%nat with false by (symmetry; apply Nat.ltb_ge; lia).
  rewrite andb_false_r. simpl. apply andb_true_r.
Qed.

Lemma seq_split_at i :
  (i < n)%nat -> seq 0 n = seq 0 i ++ [i] ++ seq (S i) (n - S i).
Proof.
  intros Hi. replace n with (i + (1 + (n - S i)))%nat at 1 by lia.
  rewrite seq_app, seq_app. simpl. rewrite Nat.add_1_r. reflexivity.
Qed.

Lemma finalKeep_at i :
  (i < n)%nat ->
  kept finalKeep i
  = kept (dedupOuter wordSets threshold n (seq 0 i) (repeat true n)) i.
Proof.
  intros Hi. unfold DedupSpec.finalKeep. rewrite (seq_split_at i Hi).
  rewrite dedupOuter_app. cbn [app]. rewrite dedupOuter_cons.
  set (A := dedupOuter wordSets threshold n (seq 0 i) (repeat true n)).
  assert (HA : length A = n).
  { subst A. rewrite dedupOuter_length. apply repeat_length. }
  rewrite dedupOuter_stable.
  - rewrite outerStep_spec by exact HA.
    rewrite Nat.ltb_irrefl, andb_false_r. simpl. apply andb_true_r.
  - rewrite outerStep_length. exact HA.
  - apply List.Forall_forall. intros x Hx. apply in_seq in Hx. lia.
Qed.

(** Two survivors are not duplicates of each other. *)
Lemma finalKeep_pairwise i j :
  (i < j)%nat -> kept finalKeep i = true -> kept finalKeep j = true ->
  dup i j = false.
Proof.
  intros Hij Hi Hj.
  assert (Hin : (i < n)%nat).
  { destruct (Nat.lt_ge_cases i n) as [H|H]; [exact H|].
    rewrite kept_outside in Hi; [discriminate|].
    unfold DedupSpec.finalKeep. rewrite dedupOuter_length, repeat_length. exact H. }
  rewrite (finalKeep_at i Hin) in Hi.
  unfold DedupSpec.finalKeep in Hj. rewrite (seq_split_at i Hin) in Hj.
  rewrite dedupOuter_app in Hj. cbn [app] in Hj. rewrite dedupOuter_cons in Hj.
  set (A := dedupOuter wordSets threshold n (seq 0 i) (repeat true n)) in *.
  assert (HA : length A = n).
  { subst A. rewrite dedupOuter_length. apply repeat_length. }
  apply dedupOuter_mono in Hj; [|rewrite outerStep_length; exact HA].
  rewrite outerStep_spec in Hj by exact HA.
  rewrite Hi in Hj.
  replace (i <? j)%nat with true in Hj by (symmetry; apply Nat.ltb_lt; lia).
  simpl in Hj. apply andb_true_iff in Hj as [_ Hj].
  destruct (dup i j); [discriminate | reflexivity].
Qed.

(** A result that is dropped is the duplicate of a survivor before it. *)
Lemma dropped_by_prefix m j :
  (m <= n)%nat -> (j < n)%nat ->
  kept (dedupOuter wordSets threshold n (seq 0 m) (repeat true n)) j = false ->
  exists i, (i < m)%nat /\ (i < j)%nat
            /\ kept (dedupOuter wordSets threshold n (seq 0 i) (repeat true n)) i = true
            /\ dup i j = true.
Proof.
  intros Hm Hj. induction m as [|m IH].
  - simpl. unfold kept. rewrite (lookup_repeat_lt true n j Hj). discriminate.
  - rewrite seq_S, dedupOuter_snoc. simpl.
    set (A := dedupOuter wordSets threshold n (seq 0 m) (repeat true n)) in *.
    assert (HA : length A = n).
    { subst A. rewrite dedupOuter_length. apply repeat_length. }
    rewrite outerStep_spec by exact HA.
    destruct (kept A j) eqn:Ej; simpl.
    + intros H. apply negb_false_iff in H.
      apply andb_true_iff in H as [H Hd]. apply andb_true_iff in H as [Hk Hlt].
      apply Nat.ltb_lt in Hlt.
      exists m. repeat split; [lia | exact Hlt | exact Hk | exact Hd].
    + intros _. destruct IH as (i & Hi & Hij & Hk & Hd); [lia | reflexivity|].
      exists i. repeat split; [lia | exact Hij | exact Hk | exact Hd].
Qed.

Lemma finalKeep_dropped j :
  (j < n)%nat -> kept finalKeep j = false ->
  exists i, (i < j)%nat /\ kept finalKeep i = true /\ dup i j = true.
Proof.
  intros Hj H.
  destruct (dropped_by_prefix n j (le_n n) Hj H) as (i & Hi & Hij & Hk & Hd).
  exists i. rewrite (finalKeep_at i Hi). auto.
Qed.

(** Without duplicates in the list, the loops clear no flag. *)
Lemma dedupInner_id i js keep :
  Forall (fun j => dup i j = false) js ->
  dedupInner wordSets threshold i js keep = keep.
Proof.
  revert keep. induction js as [|a js IH]; intros keep H; [reflexivity|].
  inversion H as [|? ? Ha Hjs]; subst.
  unfold dedupInner. cbn [fold_left]. fold (dup i a). rewrite Ha.
  destruct (negb _); apply IH, Hjs.
Qed.

Lemma dedupOuter_id idx keep :
  (forall i j, (i < j < n)%nat -> dup i j = false) ->
  dedupOuter wordSets threshold n idx keep = keep.
Proof.
  intros H. revert keep. induction idx as [|i idx IH]; intros keep; [reflexivity|].
  rewrite dedupOuter_cons. unfold DedupSpec.outerStep.
  destruct (negb _); [apply IH|].
  rewrite dedupInner_id; [apply IH|].
  apply List.Forall_forall. intros j Hj. apply in_seq in Hj. apply H. lia.
Qed.

End Mask.

Lemma keptResults_all {A} (l : list A) :
  keptResults l (repeat true (length l)) = l.
Proof. induction l as [|x l IH]; simpl; [reflexivity | rewrite IH; reflexivity]. Qed.

Lemma keptResults_pairwise {A} (R : A -> A -> Prop) (l : list A) keep :
  (forall i j x y, (i < j)%nat -> l !! i = Some x -> l !! j = Some y ->
                   kept keep i = true -> kept keep j = true -> R x y) ->
  ForallOrdPairs R (keptResults l keep).
Proof.
  revert keep. induction l as [|x l IH]; intros keep H; simpl; [constructor|].
  destruct keep as [|k keep]; [constructor|].
  assert (Htail : ForallOrdPairs R (keptResults l keep)).
  { apply IH. intros i j a b Hij Ha Hb Hi Hj.
    apply (H (S i) (S j) a b); [lia | exact Ha | exact Hb | exact Hi | exact Hj]. }
  destruct k; [|exact Htail].
  constructor; [|exact Htail].
  apply List.Forall_forall. intros y Hy.
  assert (Hex : exists j, l !! j = Some y /\ kept keep j = true).
  { clear -Hy. revert keep Hy. induction l as [|a l IHl]; intros keep Hy; [destruct Hy|].
    destruct keep as [|k keep]; [destruct Hy|]. simpl in Hy.
    destruct k.
    - destruct Hy as [<-|Hy]; [exists 0%nat; split; reflexivity|].
      destruct (IHl keep Hy) as (j & Hj1 & Hj2). exists (S j). split; assumption.
    - destruct (IHl keep Hy) as (j & Hj1 & Hj2). exists (S j). split; assumption. }
  destruct Hex as (j & Hj1 & Hj2).
  apply (H 0%nat (S j) x y); [lia | reflexivity | exact Hj1 | reflexivity | exact Hj2].
Qed.

Lemma ForallOrdPairs_lookup {A} (R : A -> A -> Prop) (l : list A) i j x y :
  ForallOrdPairs R l -> (i < j)%nat -> l !! i = Some x -> l !! j = Some y -> R x y.
Proof.
  intros H. revert i j. induction H as [|a l Ha Hl IH]; intros i j Hij Hi Hj.
  - rewrite lookup_nil in Hi. discriminate.
  - destruct j as [|j]; [lia|]. simpl in Hj.
    destruct i as [|i].
    + simpl in Hi. inversion Hi; subst.
      rewrite List.Forall_forall in Ha. apply Ha.
      apply list_elem_of_In. eapply list_elem_of_lookup_2, Hj.
    + simpl in Hi. apply (IH i j); [lia | exact Hi | exact Hj].
Qed.

Section Dedup.
Variable unicodeLower : rune -> rune.

Local Abbreviation similar := (DedupSpec.similar unicodeLower).

Lemma dup_similar results threshold i j a b :
  results !! i = Some a -> results !! j = Some b ->
  dup (map (fun r => tokenize unicodeLower (Vectorstore.Content r)) results)
      threshold i j
  = similar threshold a b.
Proof.
  intros Ha Hb. unfold DedupSpec.dup, DedupSpec.similar.
  change (map ?f results) with (f <$> results).
  rewrite !list_lookup_fmap, Ha, Hb. reflexivity.
Qed.

Lemma deduplicateResults_pairwise results threshold :
  ForallOrdPairs (fun a b => similar threshold a b = false)
                 (deduplicateResults unicodeLower results threshold).
Proof.
  unfold deduplicateResults. destruct (len results <=? 1) eqn:E.
  - apply Z.leb_le in E. unfold len in E.
    destruct results as [|a [|b rest]]; simpl in E; try lia.
    + constructor.
    + constructor; constructor.
  - apply keptResults_pairwise. intros i j a b Hij Ha Hb Hi Hj.
    rewrite <- (dup_similar results threshold i j a b Ha Hb).
    eapply finalKeep_pairwise; [exact Hij | exact Hi | exact Hj].
Qed.

Lemma deduplicateResults_fixpoint results threshold :
  ForallOrdPairs (fun a b => similar threshold a b = false) results ->
  deduplicateResults unicodeLower results threshold = results.
Proof.
  intros H. unfold deduplicateResults. destruct (len results <=? 1); [reflexivity|].
  unfold dedupKeep. rewrite dedupOuter_id; [apply keptResults_all|].
  intros i j Hij.
  destruct (lookup_lt_is_Some_2 results i) as [a Ha]; [lia|].
  destruct (lookup_lt_is_Some_2 results j) as [b Hb]; [lia|].
  rewrite (dup_similar results threshold i j a b Ha Hb).
  apply (ForallOrdPairs_lookup _ results i j a b H); [lia | exact Ha | exact Hb].
Qed.

(** C8.  Deduplication at the threshold 0.7 is idempotent: the list it
    returns has no pair of results whose similarity reaches the
    threshold, and deduplicating that list again returns it as it is. *)
Theorem deduplicateResults_idempotent :
  forall results : list Vectorstore.SearchResult,
    deduplicateResults unicodeLower
      (deduplicateResults unicodeLower results dedupThreshold) dedupThreshold
    = deduplicateResults unicodeLower results dedupThreshold
    /\ ForallOrdPairs
         (fun a b =>
            PrimFloat.leb dedupThreshold
              (jaccardSimilarity (tokenize unicodeLower (Vectorstore.Content a))
                                 (tokenize unicodeLower (Vectorstore.Content b)))
            = false)
         (deduplicateResults unicodeLower results dedupThreshold).
Proof.
  intros results. split.
  - apply deduplicateResults_fixpoint, deduplicateResults_pairwise.
  - apply deduplicateResults_pairwise.
Qed.

Lemma dedupKeep_length results threshold :
  length (dedupKeep unicodeLower results threshold) = length results.
Proof. unfold dedupKeep. rewrite dedupOuter_length. apply repeat_length. Qed.

(** Among the results whose token set is empty only the first can
    survive, at the threshold 0.7. *)
Lemma empty_sets_dropped results (i j : nat) r1 r2 :
  (i < j)%nat -> results !! i = Some r1 -> results !! j = Some r2 ->
  tokenize unicodeLower (Vectorstore.Content r1) = ∅ ->
  tokenize unicodeLower (Vectorstore.Content r2) = ∅ ->
  dedupKeep unicodeLower results dedupThreshold !! j = Some false.
Proof.
  intros Hij H1 H2 E1 E2.
  pose proof (lookup_lt_Some _ _ _ H2) as Hj.
  set (ws := map (fun r => tokenize unicodeLower (Vectorstore.Content r)) results).
  assert (Hk : kept (finalKeep ws dedupThreshold (length results)) j = false).
  { destruct (kept (finalKeep ws dedupThreshold (length results)) j) eqn:Kj;
      [exfalso | reflexivity].
    assert (Hdup : forall k a, results !! k = Some a ->
                dup ws dedupThreshold k j = dup ws dedupThreshold k i).
    { intros k a Ha. subst ws.
      rewrite (dup_similar results _ k j a r2 Ha H2),
              (dup_similar results _ k i a r1 Ha H1).
      unfold DedupSpec.similar. rewrite E1, E2. reflexivity. }
    destruct (kept (finalKeep ws dedupThreshold (length results)) i) eqn:Ki.
    - pose proof (finalKeep_pairwise ws dedupThreshold (length results) i j Hij Ki Kj) as Hd.
      subst ws. rewrite (dup_similar results _ i j r1 r2 H1 H2) in Hd.
      unfold DedupSpec.similar in Hd. rewrite E1, E2 in Hd. vm_compute in Hd. discriminate.
    - destruct (finalKeep_dropped ws dedupThreshold (length results) i) as (k & Hki & Kk & Hd);
        [lia | exact Ki|].
      destruct (lookup_lt_is_Some_2 results k) as [a Ha]; [lia|].
      rewrite <- (Hdup k a Ha) in Hd.
      assert (Hkj : (k < j)%nat) by lia.
      pose proof (finalKeep_pairwise ws dedupThreshold (length results) k j Hkj Kk Kj) as Hd'.
      congruence. }
  unfold kept in Hk. fold (dedupKeep unicodeLower results dedupThreshold) in Hk.
  destruct (lookup_lt_is_Some_2 (dedupKeep unicodeLower results dedupThreshold) j)
    as [b Hb]; [rewrite dedupKeep_length; exact Hj|].
  change (finalKeep ws dedupThreshold (length results))
    with (dedupKeep unicodeLower results dedupThreshold) in Hk.
  rewrite Hb in Hk. simpl in Hk. subst b. exact Hb.
Qed.

(** C10.  When the contents of two retrieved chunks both tokenize to
    the empty set, [jaccardSimilarity] of their token sets is 1.0;
    hence [deduplicateResults] at the threshold 0.7 takes them for
    duplicates: of the two alone it keeps the first, and in any list it
    clears the [keep] flag of the lower-ranked one, whatever their raw
    contents are. *)
Theorem empty_token_sets_are_duplicates :
  forall c1 c2 : gostring,
    tokenize unicodeLower c1 = ∅ -> tokenize unicodeLower c2 = ∅ ->
    jaccardSimilarity (tokenize unicodeLower c1) (tokenize unicodeLower c2) = 1%float
    /\ (forall r1 r2,
          Vectorstore.Content r1 = c1 -> Vectorstore.Content r2 = c2 ->
          deduplicateResults unicodeLower [r1; r2] dedupThreshold = [r1])
    /\ (forall results (i j : nat) r1 r2,
          (i < j)%nat -> results !! i = Some r1 -> results !! j = Some r2 ->
          Vectorstore.Content r1 = c1 -> Vectorstore.Content r2 = c2 ->
          dedupKeep unicodeLower results dedupThreshold !! j = Some false).
Proof.
  intros c1 c2 E1 E2. split; [|split].
  - rewrite E1, E2. reflexivity.
  - intros r1 r2 <- <-. unfold deduplicateResults, dedupKeep.
    cbn [len length map Z.of_nat]. rewrite E1, E2.
    replace (dedupOuter [∅; ∅] dedupThreshold 2 (seq 0 2) (repeat true 2))
      with [true; false] by (vm_compute; reflexivity).
    reflexivity.
  - intros results i j r1 r2 Hij H1 H2 <- <-.
    eapply empty_sets_dropped; eassumption.
Qed.

End Dedup.

Lemma empty_token_sets_witness :
  jaccardSimilarity (tokenize Examples.asciiOnly (str "to be"))
                    (tokenize Examples.asciiOnly (str "?? !!"))
  = 1%float
  /\ deduplicateResults Examples.asciiOnly [Examples.shortWords; Examples.marksOnly]
       dedupThreshold
     = [Examples.shortWords].
Proof.
  destruct (empty_token_sets_are_duplicates Examples.asciiOnly (str "to be")
              (str "?? !!"))
    as (H1 & H2 & _); [vm_compute; reflexivity | vm_compute; reflexivity|].
  split; [exact H1 | apply H2; reflexivity].
Defined.

End DedupFacts.

(** ** The validators of the configuration (C4) *)
Module ServiceFacts.
Import GoLib Repository Service Examples.

(** *** The tenant validator (C4) *)

Lemma validate_accepts config :
  nonEmpty (EmbeddingModel config) = true -> nonEmpty (LLMModel config) = true ->
  (Method (Chunker config) = [] \/ Ingestion.validMethod (Method (Chunker config)) = true) ->
  0 <= TopK config ->
  PrimFloat.ltb (MinScore config) 0 = false -> PrimFloat.ltb 1 (MinScore config) = false ->
  TargetSize (Chunker config) <= MaxSize (Chunker config) ->
  0 <= Overlap (Chunker config) < TargetSize (Chunker config) ->
  validateTenantConfig config = None.
Proof.
  intros He Hl Hm Hk Hs0 Hs1 Htm Ho. unfold validateTenantConfig.
  rewrite He, Hl. simpl.
  replace (nonEmpty (Method (Chunker config))
           && negb (Ingestion.validMethod (Method (Chunker config)))) with false
    by (destruct Hm as [-> | ->]; [reflexivity | symmetry; apply andb_false_r]).
  replace (TargetSize (Chunker config) <? 0) with false by (symmetry; apply Z.ltb_ge; lia).
  replace (MaxSize (Chunker config) <? 0) with false by (symmetry; apply Z.ltb_ge; lia).
  replace (TargetSize (Chunker config) >? MaxSize (Chunker config)) with false
    by (symmetry; rewrite Z.gtb_ltb; apply Z.ltb_ge; lia).
  rewrite andb_false_r.
  replace (Overlap (Chunker config) <? 0) with false by (symmetry; apply Z.ltb_ge; lia).
  replace (TopK config <? 0) with false by (symmetry; apply Z.ltb_ge; lia).
  rewrite Hs0, Hs1. reflexivity.
Qed.

Lemma validate_rejects config :
  nonEmpty (EmbeddingModel config) = true -> nonEmpty (LLMModel config) = true ->
  (Method (Chunker config) = [] \/ Ingestion.validMethod (Method (Chunker config)) = true) ->
  TargetSize (Chunker config) < 0 \/ MaxSize (Chunker config) < 0
  \/ Overlap (Chunker config) < 0
  \/ 0 < MaxSize (Chunker config) < TargetSize (Chunker config) ->
  is_Some (validateTenantConfig config).
Proof.
  intros He Hl Hm H. unfold validateTenantConfig.
  rewrite He, Hl. simpl.
  replace (nonEmpty (Method (Chunker config))
           && negb (Ingestion.validMethod (Method (Chunker config)))) with false
    by (destruct Hm as [-> | ->]; [reflexivity | symmetry; apply andb_false_r]).
  destruct (TargetSize (Chunker config) <? 0) eqn:E1; [eauto|].
  destruct (MaxSize (Chunker config) <? 0) eqn:E2; [eauto|].
  destruct ((TargetSize (Chunker config) >? 0) && (MaxSize (Chunker config) >? 0)
            && (TargetSize (Chunker config) >? MaxSize (Chunker config))) eqn:E3; [eauto|].
  destruct (Overlap (Chunker config) <? 0) eqn:E4; [eauto|].
  exfalso. apply Z.ltb_ge in E1, E2, E4.
  destruct H as [H|[H|[H|H]]]; lia.
Qed.

Lemma ValidateChunkerConfig_accepts config :
  (Method config = [] \/ Ingestion.validMethod (Method config) = true) ->
  TargetSize config <= MaxSize config -> 0 <= Overlap config < TargetSize config ->
  Ingestion.ValidateChunkerConfig config = None.
Proof.
  intros Hm Htm Ho. unfold Ingestion.ValidateChunkerConfig.
  replace (nonEmpty (Method config) && negb (Ingestion.validMethod (Method config)))
    with false
    by (destruct Hm as [-> | ->]; [reflexivity | symmetry; apply andb_false_r]).
  replace (TargetSize config <? 0) with false by (symmetry; apply Z.ltb_ge; lia).
  replace (MaxSize config <? 0) with false by (symmetry; apply Z.ltb_ge; lia).
  replace (TargetSize config >? MaxSize config) with false
    by (symmetry; rewrite Z.gtb_ltb; apply Z.ltb_ge; lia).
  rewrite andb_false_r.
  replace (Overlap config <? 0) with false by (symmetry; apply Z.ltb_ge; lia).
  replace (Overlap config >=? TargetSize config) with false
    by (symmetry; rewrite Z.geb_leb; apply Z.leb_gt; lia).
  rewrite andb_false_r. reflexivity.
Qed.

Lemma ValidateChunkerConfig_rejects config :
  TargetSize config < 0 \/ MaxSize config < 0 \/ Overlap config < 0
  \/ 0 < MaxSize config < TargetSize config
  \/ (0 < TargetSize config <= Overlap config) ->
  is_Some (Ingestion.ValidateChunkerConfig config).
Proof.
  intros H. unfold Ingestion.ValidateChunkerConfig.
  destruct (nonEmpty (Method config) && _); [eauto|].
  destruct (TargetSize config <? 0) eqn:E1; [eauto|].
  destruct (MaxSize config <? 0) eqn:E2; [eauto|].
  destruct ((TargetSize config >? 0) && (MaxSize config >? 0)
            && (TargetSize config >? MaxSize config)) eqn:E3; [eauto|].
  destruct (Overlap config <? 0) eqn:E4; [eauto|].
  destruct ((Overlap config >? 0) && (TargetSize config >? 0)
            && (Overlap config >=? TargetSize config)) eqn:E5; [eauto|].
  exfalso. apply Z.ltb_ge in E1, E2, E4.
  rewrite !andb_false_iff, !Z.gtb_ltb, !Z.ltb_ge in E3.
  rewrite !andb_false_iff, !Z.gtb_ltb, !Z.ltb_ge, Z.geb_leb, Z.leb_gt in E5.
  lia.
Qed.

(** C4, as amended.  With valid models, method, top_k and min_score,
    the tenant-config validator accepts every chunker configuration
    with target <= max and 0 <= overlap < target; it rejects a negative
    target, max or overlap, and a target above a max when both are
    positive (a size of 0 stands for "not set" and is not compared).
    [ValidateChunkerConfig] accepts and rejects the same
    configurations, and it also rejects an overlap that reaches a
    positive target. *)
Theorem validators_on_chunker_config :
  forall config : TenantConfig,
    nonEmpty (EmbeddingModel config) = true -> nonEmpty (LLMModel config) = true ->
    (Method (Chunker config) = []
     \/ Ingestion.validMethod (Method (Chunker config)) = true) ->
    0 <= TopK config ->
    PrimFloat.ltb (MinScore config) 0 = false ->
    PrimFloat.ltb 1 (MinScore config) = false ->
    let ch := Chunker config in
    (TargetSize ch <= MaxSize ch -> 0 <= Overlap ch < TargetSize ch ->
     validateTenantConfig config = None
     /\ Ingestion.ValidateChunkerConfig ch = None)
    /\ (TargetSize ch < 0 \/ MaxSize ch < 0 \/ Overlap ch < 0
        \/ 0 < MaxSize ch < TargetSize ch ->
        is_Some (validateTenantConfig config)
        /\ is_Some (Ingestion.ValidateChunkerConfig ch))
    /\ (0 < TargetSize ch <= Overlap ch ->
        is_Some (Ingestion.ValidateChunkerConfig ch)).
Proof.
  intros config He Hl Hm Hk Hs0 Hs1 ch. split; [|split].
  - intros Htm Ho. split;
      [apply validate_accepts | apply ValidateChunkerConfig_accepts]; assumption.
  - intros H. split; [apply validate_rejects; assumption|].
    apply ValidateChunkerConfig_rejects. tauto.
  - intros H. apply ValidateChunkerConfig_rejects. tauto.
Qed.

Lemma validators_on_chunker_config_witness :
  validateTenantConfig
    (exampleTenantConfig (mkChunkerConfig (str "semantic") 256 512 50)) = None
  /\ is_Some (Ingestion.ValidateChunkerConfig (mkChunkerConfig (str "semantic") 256 512 256)).
Proof.
  split.
  - apply (validators_on_chunker_config
             (exampleTenantConfig (mkChunkerConfig (str "semantic") 256 512 50)));
      try reflexivity; simpl; try lia.
    right. reflexivity.
  - apply (validators_on_chunker_config
             (exampleTenantConfig (mkChunkerConfig (str "semantic") 256 512 256)));
      try reflexivity; simpl; try lia.
    right. reflexivity.
Defined.

(** The counterexample to C4 as stated: a target above the max is
    accepted when the max is 0. *)
Lemma validator_accepts_target_above_unset_max :
  (TargetSize (mkChunkerConfig (str "semantic") 5 0 1)
   >? MaxSize (mkChunkerConfig (str "semantic") 5 0 1)) = true
  /\ validateTenantConfig (exampleTenantConfig (mkChunkerConfig (str "semantic") 5 0 1))
     = None
  /\ Ingestion.ValidateChunkerConfig (mkChunkerConfig (str "semantic") 5 0 1) = None.
Proof. vm_compute. repeat split. Qed.

(** The tenant validator has no test of the overlap against the target,
    which [ValidateChunkerConfig] has. *)
Lemma validator_accepts_overlap_above_target :
  validateTenantConfig (exampleTenantConfig (mkChunkerConfig (str "semantic") 10 20 15))
  = None
  /\ is_Some (Ingestion.ValidateChunkerConfig (mkChunkerConfig (str "semantic") 10 20 15)).
Proof. split; [vm_compute; reflexivity | vm_compute; eauto]. Qed.

End ServiceFacts.

(** ** The query handlers (C3, C7) *)
Module QueryFacts.
Import GoLib Repository Service QuerySpec Examples.

(** *** Streaming *)

Lemma Send_ok stream event :
  (forall n, sendError stream n = None) ->
  Send stream event = (None, mkStream (sent stream ++ [event]) (sendError stream)).
Proof. intros H. unfold Send. rewrite H. reflexivity. Qed.

Lemma sendSources_ok searchResults : forall stream,
  (forall n, sendError stream n = None) ->
  sendSources stream searchResults
  = (None, mkStream (sent stream ++ map (fun r => Event_Source (resultToSource r)) searchResults)
                    (sendError stream)).
Proof.
  induction searchResults as [|r rest IH]; intros stream H; simpl.
  - rewrite app_nil_r. destruct stream; reflexivity.
  - rewrite Send_ok by assumption. rewrite IH by exact H. simpl.
    rewrite <- app_assoc. reflexivity.
Qed.

Lemma streamTokens_ok tokenChan : forall stream fullResponse,
  (forall n, sendError stream n = None) ->
  streamTokens tokenChan stream fullResponse
  = (match firstError tokenChan with
     | Some _ => Returned None
     | None => Drained (fullResponse ++ concat (tokensSent tokenChan))
     end,
     mkStream (sent stream ++ map Event_Token (tokensSent tokenChan)
               ++ match firstError tokenChan with
                  | Some message => [Event_Error "generation_error" message]
                  | None => []
                  end)
              (sendError stream)).
Proof.
  induction tokenChan as [|chunk rest IH]; intros stream fullResponse H; simpl.
  - rewrite !app_nil_r. destruct stream; reflexivity.
  - destruct (Llm.Error chunk) as [message|].
    + rewrite Send_ok by assumption. reflexivity.
    + destruct (nonEmpty (Llm.Token chunk)).
      * rewrite Send_ok by assumption. rewrite IH by exact H. simpl.
        rewrite <- !app_assoc. reflexivity.
      * rewrite IH by exact H. reflexivity.
Qed.

(** C7, as amended.  When the handler reaches the LLM stream and no
    [Send] fails, the events it sends are: one source event per
    retrieved chunk, then one token event per non-empty token that the
    channel delivers before its first error (there may be none), then
    one last event, which is the error event of the first failing chunk
    or, when no chunk fails, the metadata event.  The handler returns
    [nil]. *)
Theorem QueryStream_event_order :
  forall unicodeLower uuid_Parse (s : RAGService) (memory : Memory.Store)
         (req : QueryRequest) (stream : ServerStream)
         tenantID tenant searchResults tokenChan,
    resolveTenant uuid_Parse s req = inr (tenantID, tenant) ->
    let options := buildQueryOptions tenant (Options req) in
    retrieve unicodeLower s tenant tenantID (Query_ req) options = inr searchResults ->
    Llm.GenerateStream (llmClient s)
      (buildRAGPrompt (systemPrompt options) (map resultToContext searchResults)
                      (Query_ req) (loadHistory memory req).1)
      (llmOptions options) = inr tokenChan ->
    (forall n, sendError stream n = None) ->
    let out := QueryStream unicodeLower uuid_Parse s memory req stream in
    out.1.1 = None
    /\ sent out.1.2
       = sent stream
         ++ map (fun r => Event_Source (resultToSource r)) searchResults
         ++ map Event_Token (tokensSent tokenChan)
         ++ [finalEvent tokenChan
               (mkQueryMetadata (len searchResults) (model options) 0 0)].
Proof.
  intros ul parse s memory req stream tenantID tenant searchResults tokenChan
         Htenant options Hretrieve Hstream Hsend out.
  subst out. unfold QueryStream. rewrite Htenant. fold options. rewrite Hretrieve.
  rewrite sendSources_ok by exact Hsend.
  destruct (loadHistory memory req) as [history memory1]. simpl in Hstream.
  rewrite Hstream. rewrite streamTokens_ok by exact Hsend.
  unfold finalEvent.
  destruct (firstError tokenChan) as [message|].
  - simpl. split; [reflexivity|]. rewrite <- !app_assoc. reflexivity.
  - rewrite Send_ok by exact Hsend. simpl. split; [reflexivity|].
    rewrite !app_nil_r, <- !app_assoc. reflexivity.
Qed.

Lemma QueryStream_event_order_witness :
  sent (QueryStream asciiOnly parseKey (serviceWith None false twoTokens)
          Memory.DefaultStore request openStream).1.2
  = map (fun r => Event_Source (resultToSource r)) candidates
    ++ [Event_Token (str "Use "); Event_Token (str "apt.")]
    ++ [Event_Metadata (mkQueryMetadata 2 (str "llama3.2") 0 0)].
Proof.
  assert (H1 : resolveTenant parseKey (serviceWith None false twoTokens) request
               = inr (tenantKey, tenantWith false))
    by (vm_compute; reflexivity).
  assert (H2 : retrieve asciiOnly (serviceWith None false twoTokens) (tenantWith false)
                 tenantKey (Query_ request)
                 (buildQueryOptions (tenantWith false) (Options request))
               = inr candidates)
    by (vm_compute; reflexivity).
  exact (proj2 (QueryStream_event_order asciiOnly parseKey
                  (serviceWith None false twoTokens) Memory.DefaultStore request
                  openStream tenantKey (tenantWith false) candidates twoTokens
                  H1 H2 eq_refl (fun _ => eq_refl))).
Defined.

(** The counterexample to C7 as stated: a stream that succeeds and has
    no token event between the sources and the metadata. *)
Lemma QueryStream_success_without_token :
  (QueryStream asciiOnly parseKey (serviceWith None false noToken)
     Memory.DefaultStore request openStream).1.1 = None
  /\ sent (QueryStream asciiOnly parseKey (serviceWith None false noToken)
             Memory.DefaultStore request openStream).1.2
     = map (fun r => Event_Source (resultToSource r)) candidates
       ++ [Event_Metadata (mkQueryMetadata 2 (str "llama3.2") 0 0)].
Proof. vm_compute. split; reflexivity. Qed.

(** *** The bound on the sources *)

Lemma buildQueryOptions_topK tenant opts :
  topK (buildQueryOptions tenant opts) = resolvedTopK tenant opts.
Proof.
  unfold resolvedTopK. cbv delta [buildQueryOptions]. cbv beta.
  do 3 step_let. destruct (TopK (Tenant_Config tenant) <=? 0);
  step_let; destruct (PrimFloat.leb _ 0);
  step_let; destruct (negb _);
  (destruct opts as [o|]; [|reflexivity]);
  step_let; destruct (Options_TopK o >? 0);
  step_let; destruct (PrimFloat.ltb 0 (Options_MinScore o));
  step_let; destruct (nonEmpty (Options_SystemPrompt o));
  step_let; destruct (PrimFloat.ltb 0 (Options_Temperature o));
  destruct (Options_MaxTokens o >? 0); reflexivity.
Qed.

Lemma resolvedTopK_pos tenant opts : 1 <= resolvedTopK tenant opts.
Proof.
  unfold resolvedTopK.
  destruct (TopK (Tenant_Config tenant) <=? 0) eqn:E1;
    destruct opts as [o|]; try destruct (Options_TopK o >? 0) eqn:E2; lia.
Qed.

Lemma limitTopK_len options l :
  0 <= topK options -> len (limitTopK options l) <= topK options.
Proof.
  intros H. unfold limitTopK, len.
  destruct (Z.of_nat (length l) >? topK options) eqn:E.
  - rewrite length_take. lia.
  - lia.
Qed.

Lemma keptResults_Forall {A} (P : A -> Prop) (l : list A) : forall keep,
  Forall P l -> Forall P (keptResults l keep).
Proof.
  induction l as [|x l IH]; intros keep H; simpl; [constructor|].
  destruct keep as [|k keep]; [constructor|].
  apply Forall_cons in H as [Hx Hl].
  destruct k; [constructor|]; auto.
Qed.

Lemma deduplicateResults_Forall unicodeLower (P : Vectorstore.SearchResult -> Prop)
    l threshold :
  Forall P l -> Forall P (deduplicateResults unicodeLower l threshold).
Proof.
  intros H. unfold deduplicateResults.
  destruct (len l <=? 1); [exact H|]. apply keptResults_Forall, H.
Qed.

Lemma limitTopK_Forall (P : Vectorstore.SearchResult -> Prop) options l :
  Forall P l -> Forall P (limitTopK options l).
Proof.
  intros H. unfold limitTopK.
  destruct (len l >? topK options); [apply Forall_take|]; exact H.
Qed.

(** The loop of [HybridSearch] over the response honours [minScore]. *)
Lemma hybridResults_honours response m :
  Forall (fun r => PrimFloat.leb m (Vectorstore.Score r) = true)
         (Vectorstore.hybridResults response m).
Proof.
  unfold Vectorstore.hybridResults. apply Forall_forall. intros r Hr.
  apply list_elem_of_filter in Hr. tauto.
Qed.

Lemma retrieve_searched unicodeLower s tenant tenantID query options results :
  retrieve unicodeLower s tenant tenantID query options = inr results ->
  exists queryVector searched,
    embedder_Embed s query = inr queryVector
    /\ match (if useHybrid s then sparseModel s else None) with
       | Some vectorize =>
           Vectorstore.HybridSearch (vectorDB s) tenantID queryVector
             (vectorize query) (topK options * 3) (minScore options)
       | None =>
           Vectorstore.Search (vectorDB s) tenantID queryVector
             (topK options * 3) (minScore options)
       end = inr searched
    /\ results = limitTopK options
                   (rerankStep s tenant query options
                      (deduplicateResults unicodeLower searched dedupThreshold))
    /\ (honoursMinScore (vectorDB s) ->
        Forall (fun r => PrimFloat.leb (minScore options) (Vectorstore.Score r) = true)
               searched).
Proof.
  unfold retrieve. intros H.
  destruct (embedder_Embed s query) as [|queryVector]; [discriminate|].
  exists queryVector.
  destruct (if useHybrid s then sparseModel s else None) as [vectorize|].
  - destruct (Vectorstore.HybridSearch _ _ _ _ _ _) as [|searched] eqn:E; [discriminate|].
    exists searched. split; [reflexivity|]. split; [reflexivity|].
    split; [congruence|]. intros [_ Hh]. eapply Hh, E.
  - destruct (Vectorstore.Search _ _ _ _ _) as [|searched] eqn:E; [discriminate|].
    exists searched. split; [reflexivity|]. split; [reflexivity|].
    split; [congruence|]. intros [Hs _]. eapply Hs, E.
Qed.

(** The three cases in which the rerank step hands on its candidates as
    they are. *)
Lemma rerankStep_keeps s tenant query options cands :
  reranker s = None
  \/ RerankerEnabled (Tenant_Config tenant) = false
  \/ (exists rerank err,
        reranker s = Some rerank /\ rerank query cands (topK options) = inl err) ->
  rerankStep s tenant query options cands = cands.
Proof.
  intros H. unfold rerankStep.
  destruct (reranker s) as [rerank|]; [|reflexivity].
  destruct H as [H|[H|(rerank' & err & Hr & H)]]; [discriminate | |].
  - rewrite H. reflexivity.
  - injection Hr as <-. destruct (_ && _); [|reflexivity]. rewrite H. reflexivity.
Qed.

(** C3, as amended.  A [Query] call that answers resolves top_k to K
    as the specification says (the tenant value, 4 when that value is
    not positive, then a positive value of the request), K is at least
    1, and the response has at most K sources.  The call has embedded
    the query and searched the vector store once; its candidates are
    the results of that search, deduplicated.  When the vector store
    returns only results whose score reaches the min_score it is given,
    and the rerank step does not rescore these candidates (no reranker
    is attached, reranking is disabled for the tenant, or the reranker
    returns an error for them), every source has a score of at least
    the resolved min_score. *)
Theorem Query_sources_bounded :
  forall unicodeLower uuid_Parse (s : RAGService) (memory memory' : Memory.Store)
         (req : QueryRequest) (resp : QueryResponse),
    Query unicodeLower uuid_Parse s memory req = (inr resp, memory') ->
    exists tenantID tenant queryVector searched,
      resolveTenant uuid_Parse s req = inr (tenantID, tenant)
      /\ let options := buildQueryOptions tenant (Options req) in
         let candidates := deduplicateResults unicodeLower searched dedupThreshold in
         topK options = resolvedTopK tenant (Options req)
         /\ 1 <= topK options
         /\ len (Sources resp) <= topK options
         /\ embedder_Embed s (Query_ req) = inr queryVector
         /\ match (if useHybrid s then sparseModel s else None) with
            | Some vectorize =>
                Vectorstore.HybridSearch (vectorDB s) tenantID queryVector
                  (vectorize (Query_ req)) (topK options * 3) (minScore options)
            | None =>
                Vectorstore.Search (vectorDB s) tenantID queryVector
                  (topK options * 3) (minScore options)
            end = inr searched
         /\ (honoursMinScore (vectorDB s) ->
             reranker s = None
             \/ RerankerEnabled (Tenant_Config tenant) = false
             \/ (exists rerank err,
                   reranker s = Some rerank
                   /\ rerank (Query_ req) candidates (topK options) = inl err) ->
             Forall (fun source =>
                       PrimFloat.leb (minScore options) (Chunk_Score source) = true)
                    (Sources resp)).
Proof.
  intros ul parse s memory memory' req resp H. unfold Query in H.
  destruct (resolveTenant parse s req) as [|[tenantID tenant]]; [discriminate|].
  set (options := buildQueryOptions tenant (Options req)) in *.
  destruct (retrieve ul s tenant tenantID (Query_ req) options)
    as [|results] eqn:Hretrieve; [discriminate|].
  destruct (loadHistory memory req) as [history memory1].
  destruct (Llm.Generate _ _ _) as [|answer]; [discriminate|].
  injection H as <- _. cbn [Sources].
  assert (Htop : topK options = resolvedTopK tenant (Options req))
    by apply buildQueryOptions_topK.
  assert (Hpos : 1 <= topK options)
    by (rewrite Htop; apply resolvedTopK_pos).
  apply retrieve_searched in Hretrieve
    as (queryVector & searched & Hembed & Hsearch & -> & Hscores).
  exists tenantID, tenant, queryVector, searched. split; [reflexivity|].
  cbv zeta. fold options.
  split; [exact Htop|]. split; [exact Hpos|]. split; [|split; [|split]].
  - unfold len. rewrite length_map. apply limitTopK_len. lia.
  - exact Hembed.
  - exact Hsearch.
  - intros Hstore Hrerank. apply Forall_map.
    rewrite (rerankStep_keeps _ _ _ _ _ Hrerank).
    apply limitTopK_Forall, deduplicateResults_Forall. cbn [Chunk_Score resultToSource].
    exact (Hscores Hstore).
Qed.

Lemma store_honoursMinScore : honoursMinScore store.
Proof.
  split.
  - intros t v k m rs [= <-]. apply hybridResults_honours.
  - intros t v sv k m rs [= <-]. apply hybridResults_honours.
Qed.

Lemma Query_sources_bounded_witness :
  exists resp,
    (Query asciiOnly parseKey (serviceWith (Some flakyReranker) true [])
           Memory.DefaultStore request).1
    = inr resp
    /\ len (Sources resp) <= 4
    /\ map Chunk_Score (Sources resp) = [0.875%float; 0.75%float]
    /\ Forall (fun source => PrimFloat.leb 0.5 (Chunk_Score source) = true)
              (Sources resp).
Proof.
  destruct (Query asciiOnly parseKey (serviceWith (Some flakyReranker) true [])
              Memory.DefaultStore request) as [[st|resp] memory'] eqn:E;
    [vm_compute in E; discriminate|].
  exists resp. split; [reflexivity|].
  destruct (Query_sources_bounded _ _ _ _ _ _ _ E)
    as (tenantID & tenant & queryVector & searched & Htenant & Htop & _ & Hlen
        & _ & Hsearch & Hscores).
  assert (Ht : tenant = tenantWith true)
    by (vm_compute in Htenant; injection Htenant as _ <-; reflexivity).
  subst tenant.
  assert (Hs : searched = candidates)
    by (vm_compute in Hsearch; injection Hsearch as <-; vm_compute; reflexivity).
  subst searched. split; [exact Hlen|]. split.
  - vm_compute in E. injection E as <- _. vm_compute. reflexivity.
  - apply Hscores; [exact store_honoursMinScore|].
    right. right. exists flakyReranker, "unavailable"%string.
    split; [reflexivity | vm_compute; reflexivity].
Defined.

(** The counterexample to C3 as stated: the reranker gives the two
    candidates the scores 0.125 and 0.25, and both are returned as
    sources although the resolved min_score is 0.5. *)
Lemma Query_reranked_sources_below_min_score :
  minScore (buildQueryOptions (tenantWith true) (Options request)) = 0.5%float
  /\ sourceScores
       (Query asciiOnly parseKey (serviceWith (Some llmReranker) true [])
          Memory.DefaultStore request).1
     = [0.25%float; 0.125%float]
  /\ forallb (PrimFloat.leb 0.5) [0.25%float; 0.125%float] = false.
Proof. vm_compute. repeat split. Qed.

End QueryFacts.

(** ** The rerank step (C9) *)
Module RerankFacts.
Import GoLib Repository Service QuerySpec Examples.









End RerankFacts.

(** ** Ingestion (C2, C5) *)
Module DocumentFacts.
Import GoLib Repository Service Documents DocumentSpec Examples DocExamples.

Lemma streq_refl s : streq s s = true.
Proof. unfold streq. apply bool_decide_eq_true. reflexivity. Qed.

Lemma streq_eq a b : streq a b = true -> a = b.
Proof. unfold streq. apply bool_decide_eq_true. Qed.

Lemma find_app {A} (P : A -> bool) l l' :
  List.find P (l ++ l') = match List.find P l with
                          | Some x => Some x
                          | None => List.find P l'
                          end.
Proof.
  induction l as [|x l IH]; simpl; [reflexivity|].
  destruct (P x); [reflexivity | exact IH].
Qed.

Lemma find_map_same {A} (P : A -> bool) (f : A -> A) l :
  (forall d, d ∈ l -> P (f d) = P d) ->
  List.find P (map f l) = option_map f (List.find P l).
Proof.
  induction l as [|x l IH]; intros H; simpl; [reflexivity|].
  rewrite (H x) by (apply elem_of_cons; left; reflexivity).
  destruct (P x); [reflexivity|].
  apply IH. intros d Hd. apply H, elem_of_cons. right. exact Hd.
Qed.

Lemma find_elem_of {A} (P : A -> bool) l x : List.find P l = Some x -> x ∈ l.
Proof.
  intros H. apply List.find_some in H as [H _]. apply list_elem_of_In, H.
Qed.

Lemma backgroundStep_found tenantID hash id ts w w' :
  backgroundStep tenantID hash w w' ->
  found tenantID hash id ts w -> found tenantID hash id ts w'.
Proof.
  intros Hstep (Hts & d & Hd & Hid).
  destruct Hstep as [doc Hkeep Hup | doc Hcr | chunks Hch | t chunks -> | n ->].
  - unfold DocumentRepo_Update in Hup.
    destruct (List.find (sameDocument (Document_ID doc)) (documents w)) as [old|];
      [|discriminate].
    destruct (existsb _ _); [discriminate|]. injection Hup as <-.
    split; [exact Hts|]. unfold DocumentRepo_GetByHash in *. cbn [documents].
    rewrite find_map_same.
    + rewrite Hd. simpl. eexists. split; [reflexivity|].
      destruct (sameDocument (Document_ID doc) d); [|exact Hid]. exact Hid.
    + intros d0 Hd0. destruct (sameDocument (Document_ID doc) d0) eqn:E; [|reflexivity].
      exact (Hkeep d0 Hd0 E).
  - unfold DocumentRepo_Create in Hcr.
    destruct (_ || _); [discriminate|]. injection Hcr as <-.
    split; [exact Hts|]. unfold DocumentRepo_GetByHash in *. cbn [documents].
    rewrite find_app, Hd. eauto.
  - unfold DocumentRepo_CreateChunks in Hch.
    destruct (forallb _ _); [|discriminate]. injection Hch as <-.
    split; [exact Hts|]. exists d. split; [exact Hd | exact Hid].
  - split; [exact Hts|]. exists d. split; [exact Hd | exact Hid].
  - split; [exact Hts|]. exists d. split; [exact Hd | exact Hid].
Qed.

Lemma rtc_found tenantID hash id ts w w' :
  rtc (backgroundStep tenantID hash) w w' ->
  found tenantID hash id ts w -> found tenantID hash id ts w'.
Proof.
  induction 1 as [|w w1 w2 Hstep _ IH]; [auto|].
  intros H. apply IH. eapply backgroundStep_found; eassumption.
Qed.

(** What a successful [IngestDocument] leaves. *)
Lemma IngestDocument_found uuid_Parse uuid_New sha256_hex s w req resp w1 task :
  IngestDocument uuid_Parse uuid_New sha256_hex s w req = (inr resp, w1, task) ->
  exists tenantID tenant,
    nonEmpty (Request_TenantId req) = true
    /\ nonEmpty (Request_Content req) = true
    /\ uuid_Parse (Request_TenantId req) = Some tenantID
    /\ TenantRepo_GetByID w tenantID = Some tenant
    /\ found tenantID
         (hashContent sha256_hex (Request_Source req ++ nl ++ Request_Content req))
         (DocumentId resp) (tenants w) w1.
Proof.
  unfold IngestDocument. intros H.
  destruct (nonEmpty (Request_TenantId req)) eqn:Hid; [|discriminate].
  destruct (nonEmpty (Request_Content req)) eqn:Hcontent; [|discriminate]. cbn [negb] in H.
  destruct (uuid_Parse (Request_TenantId req)) as [tenantID|] eqn:Hparse; [|discriminate].
  destruct (TenantRepo_GetByID w tenantID) as [tenant|] eqn:Ht; [|discriminate].
  exists tenantID, tenant. do 4 (split; [reflexivity || assumption|]).
  destruct (DocumentRepo_GetByHash w tenantID _) as [existing|] eqn:Hfind.
  - injection H as <- <- _. split; [reflexivity|]. eauto.
  - match type of H with
    | context [DocumentRepo_Create ?w0 ?doc] =>
        destruct (DocumentRepo_Create w0 doc) as [w'|] eqn:Hcreate; [|discriminate]
    end.
    injection H as <- <- _.
    unfold DocumentRepo_Create in Hcreate.
    destruct (_ || _); [discriminate|]. injection Hcreate as <-.
    split; [reflexivity|]. eexists. split.
    + unfold DocumentRepo_GetByHash in *. cbn [documents drawUUIDs] in *.
      rewrite find_app, Hfind. cbn [List.find]. unfold sameHash.
      cbn [Document_TenantID Document_ContentHash]. rewrite !streq_refl. reflexivity.
    + reflexivity.
Qed.

(** The document that [IngestDocument] hands to its goroutine has the
    hash of the source, a line feed and the content. *)
Lemma IngestDocument_hash uuid_Parse uuid_New sha256_hex s w req resp w1 doc content
    tenant :
  IngestDocument uuid_Parse uuid_New sha256_hex s w req
  = (inr resp, w1, Some (processDocumentTask doc content tenant)) ->
  Document_ContentHash doc
  = sha256_hex (Request_Source req ++ nl ++ Request_Content req)
  /\ doc ∈ documents w1.
Proof.
  unfold IngestDocument. intros H.
  destruct (nonEmpty (Request_TenantId req)); [|discriminate].
  destruct (nonEmpty (Request_Content req)); [|discriminate]. cbn [negb] in H.
  destruct (uuid_Parse (Request_TenantId req)) as [tenantID|]; [|discriminate].
  destruct (TenantRepo_GetByID w tenantID) as [t|]; [|discriminate].
  destruct (DocumentRepo_GetByHash w tenantID _); [discriminate|].
  match type of H with
  | context [DocumentRepo_Create ?w0 ?d] =>
      destruct (DocumentRepo_Create w0 d) as [w'|] eqn:Hcreate; [|discriminate]
  end.
  injection H as _ <- <- _ _. split; [reflexivity|].
  unfold DocumentRepo_Create in Hcreate.
  destruct (_ || _); [discriminate|]. injection Hcreate as <-.
  cbn [documents]. apply elem_of_app. right. apply list_elem_of_singleton. reflexivity.
Qed.

(** The status of the API that [convertStatus] gives for each status
    that the service stores. *)
Lemma convertStatus_names (text : gostring) :
  (text = str "PENDING" -> convertStatus text = DOCUMENT_STATUS_PENDING)
  /\ (text = str "PROCESSING" -> convertStatus text = DOCUMENT_STATUS_PROCESSING)
  /\ (text = str "READY" -> convertStatus text = DOCUMENT_STATUS_READY)
  /\ (text = str "FAILED" -> convertStatus text = DOCUMENT_STATUS_FAILED)
  /\ (text ∉ [str "PENDING"; str "PROCESSING"; str "READY"; str "FAILED"] ->
      convertStatus text = DOCUMENT_STATUS_UNSPECIFIED).
Proof.
  repeat split; try (intros ->; vm_compute; reflexivity).
  intros Hnot. unfold convertStatus, streq.
  repeat case_bool_decide; try reflexivity; exfalso; apply Hnot; subst text; set_solver.
Qed.

(** C5.  After an [IngestDocument] call that answers, and after any
    operations of the background on the stores, an [IngestDocument]
    call for the same tenant (its id may be spelled in another way)
    with the same source and content (the title and the metadata may
    differ) answers with the id of the first answer and with the
    current status of that document: the status of the API that has
    the name of the status in the row of the document now, PENDING,
    PROCESSING, READY or FAILED.  The call leaves the stores as they
    are (no document row, chunk row or vector record is added) and
    starts no goroutine. *)
Theorem IngestDocument_idempotent :
  forall uuid_Parse uuid_New sha256_hex (s : DocumentService) (w w1 w2 : World)
         (req again : IngestDocumentRequest) (resp : IngestDocumentResponse)
         (task : option Task) (tenantID : UUID),
    IngestDocument uuid_Parse uuid_New sha256_hex s w req = (inr resp, w1, task) ->
    uuid_Parse (Request_TenantId req) = Some tenantID ->
    Request_TenantId again <> [] ->
    uuid_Parse (Request_TenantId again) = Some tenantID ->
    Request_Source again = Request_Source req ->
    Request_Content again = Request_Content req ->
    rtc (backgroundStep tenantID
           (sha256_hex (Request_Source req ++ nl ++ Request_Content req))) w1 w2 ->
    exists d status,
      d ∈ documents w2
      /\ Document_ID d = DocumentId resp
      /\ Document_TenantID d = tenantID
      /\ Document_ContentHash d
         = sha256_hex (Request_Source req ++ nl ++ Request_Content req)
      /\ IngestDocument uuid_Parse uuid_New sha256_hex s w2 again
         = (inr (mkIngestDocumentResponse (DocumentId resp) status), w2, None)
      /\ (Document_Status d = str "PENDING" -> status = DOCUMENT_STATUS_PENDING)
      /\ (Document_Status d = str "PROCESSING" -> status = DOCUMENT_STATUS_PROCESSING)
      /\ (Document_Status d = str "READY" -> status = DOCUMENT_STATUS_READY)
      /\ (Document_Status d = str "FAILED" -> status = DOCUMENT_STATUS_FAILED)
      /\ (Document_Status d ∉ [str "PENDING"; str "PROCESSING"; str "READY";
                                str "FAILED"] ->
          status = DOCUMENT_STATUS_UNSPECIFIED).
Proof.
  intros parse new sha s w w1 w2 req again resp task tenantID H Hparse0 Hne Hparse2
         Esource Econtent Hreach.
  apply IngestDocument_found in H
    as (tenantID' & tenant & Hid & Hcontent & Hparse & Htenant & Hfound).
  rewrite Hparse0 in Hparse. injection Hparse as <-.
  apply (rtc_found _ _ _ _ _ _ Hreach) in Hfound as (Hts & d & Hd & Hdid).
  exists d, (convertStatus (Document_Status d)).
  split; [eapply find_elem_of, Hd|]. split; [exact Hdid|].
  assert (Hkey : sameHash tenantID
                   (sha (Request_Source req ++ nl ++ Request_Content req)) d = true).
  { unfold DocumentRepo_GetByHash in Hd. apply List.find_some in Hd as [_ Hd]. exact Hd. }
  unfold sameHash in Hkey. apply andb_true_iff in Hkey as [Hkt Hkh].
  split; [apply streq_eq, Hkt|]. split; [apply streq_eq, Hkh|].
  split; [|apply convertStatus_names].
  unfold IngestDocument. rewrite Esource, Econtent.
  replace (nonEmpty (Request_TenantId again)) with true
    by (destruct (Request_TenantId again); [congruence | reflexivity]).
  rewrite Hcontent, Hparse2. cbn [negb].
  replace (TenantRepo_GetByID w2 tenantID) with (Some tenant)
    by (unfold TenantRepo_GetByID in *; rewrite Hts; symmetry; exact Htenant).
  unfold hashContent in *. rewrite Hd, Hdid. reflexivity.
Qed.

(** An update that writes another hash into rows that do not have
    [hash], such as the update by which [processURL] gives its hash to
    a document that is not a lookup away, is an operation of the
    background. *)
Lemma update_with_another_hash tenantID hash w w' doc :
  Document_ContentHash doc <> hash ->
  (forall d, d ∈ documents w -> sameDocument (Document_ID doc) d = true ->
             Document_ContentHash d <> hash) ->
  DocumentRepo_Update w doc = Some w' ->
  backgroundStep tenantID hash w w'.
Proof.
  intros Hnew Hold Hup. eapply step_update; [|exact Hup].
  intros d Hd Hsame. unfold sameHash. cbn [updatedRow Document_TenantID Document_ContentHash].
  replace (streq (Document_ContentHash doc) hash) with false
    by (symmetry; apply bool_decide_eq_false; exact Hnew).
  replace (streq (Document_ContentHash d) hash) with false
    by (symmetry; apply bool_decide_eq_false; exact (Hold d Hd Hsame)).
  reflexivity.
Qed.

(** *** The goroutine of [IngestDocument] is made of background steps *)

Lemma keepsHash_same w doc doc' :
  Document_ID doc' = Document_ID doc ->
  Document_ContentHash doc' = Document_ContentHash doc ->
  keepsHash w doc -> keepsHash w doc'.
Proof. unfold keepsHash. intros -> ->. auto. Qed.

Lemma updateIgnoringError_step tenantID hash w doc doc' :
  Document_ID doc' = Document_ID doc ->
  Document_ContentHash doc' = Document_ContentHash doc ->
  keepsHash w doc ->
  rtc (backgroundStep tenantID hash) w (updateIgnoringError w doc')
  /\ keepsHash (updateIgnoringError w doc') doc.
Proof.
  intros Hid Hhash Hkeep. unfold updateIgnoringError.
  destruct (DocumentRepo_Update w doc') as [w'|] eqn:E; simpl.
  - split.
    + apply rtc_once. eapply step_update; [|exact E].
      intros d Hd Hsame. unfold sameHash.
      cbn [updatedRow Document_TenantID Document_ContentHash].
      rewrite (keepsHash_same w doc doc' Hid Hhash Hkeep d Hd Hsame). reflexivity.
    + unfold DocumentRepo_Update in E.
      destruct (List.find _ _); [|discriminate].
      destruct (existsb _ _); [discriminate|]. injection E as <-.
      intros d1 Hd Hsame. cbn [documents] in Hd.
      apply list_elem_of_fmap in Hd as (d0 & -> & Hd0). rewrite Hid in *.
      destruct (sameDocument (Document_ID doc) d0) eqn:E0.
      * cbn [updatedRow Document_ContentHash]. exact Hhash.
      * exact (Hkeep d0 Hd0 Hsame).
  - split; [apply rtc_refl | exact Hkeep].
Qed.

Lemma markDocumentFailed_step tenantID hash w doc doc' message :
  Document_ID doc' = Document_ID doc ->
  Document_ContentHash doc' = Document_ContentHash doc ->
  keepsHash w doc ->
  rtc (backgroundStep tenantID hash) w (markDocumentFailed w doc' message).
Proof.
  intros Hid Hhash Hkeep. unfold markDocumentFailed.
  apply (updateIgnoringError_step tenantID hash w doc);
    [exact Hid | exact Hhash | exact Hkeep].
Qed.

Lemma keepsHash_documents w w' doc :
  documents w' = documents w -> keepsHash w doc -> keepsHash w' doc.
Proof. unfold keepsHash. intros ->. auto. Qed.

(** The run of [processDocument] on a document whose row has its hash
    is a sequence of background steps. *)
Lemma processDocument_background tenantID hash unicodeLower uuid_New sha256_hex s w doc
    content tenant w' :
  keepsHash w doc ->
  processDocument unicodeLower uuid_New sha256_hex s w doc content tenant = Some w' ->
  rtc (backgroundStep tenantID hash) w w'.
Proof.
  intros Hkeep H. unfold processDocument in H.
  destruct (updateIgnoringError_step tenantID hash w doc (withStatus doc (str "PROCESSING"))
              eq_refl eq_refl Hkeep) as [Hstep1 Hkeep1].
  set (w1 := updateIgnoringError w (withStatus doc (str "PROCESSING"))) in *.
  etrans; [exact Hstep1|]. clearbody w1. clear Hstep1 Hkeep w.
  unfold ProcessWithMetadata in H.
  destruct (negb (nonEmpty (strings_TrimSpace content))).
  { injection H as <-. apply (markDocumentFailed_step tenantID hash w1 doc); auto. }
  destruct (Ingestion.Chunker_Chunk _ _ _) as [chunks|]; [|discriminate].
  match type of H with
  | context [DocumentRepo_CreateChunks ?w0 ?cs] =>
      assert (Hstep2 : rtc (backgroundStep tenantID hash) w1 w0)
        by (eapply rtc_l; [eapply step_uuids; reflexivity|];
            apply rtc_once; eapply step_uuids; reflexivity);
      assert (Hkeep2 : keepsHash w0 doc)
        by (eapply keepsHash_documents; [|exact Hkeep1]; reflexivity);
      set (w2 := w0) in *; set (docChunks := cs) in *
  end.
  etrans; [exact Hstep2|]. clearbody w2 docChunks. clear Hstep2.
  destruct (DocumentRepo_CreateChunks w2 _) as [w3|] eqn:Hchunks.
  2:{ injection H as <-. apply (markDocumentFailed_step tenantID hash w2 doc); auto. }
  assert (Hkeep3 : keepsHash w3 doc).
  { eapply keepsHash_documents; [|exact Hkeep2].
    unfold DocumentRepo_CreateChunks in Hchunks.
    destruct (forallb _ _); [|discriminate]. injection Hchunks as <-. reflexivity. }
  eapply rtc_l; [eapply step_chunks; exact Hchunks|].
  destruct (embedder_EmbedBatch s _) as [|embeddings].
  { injection H as <-. apply (markDocumentFailed_step tenantID hash w3 doc); auto. }
  destruct (vectorDB_UpsertError s _ _).
  { injection H as <-. apply (markDocumentFailed_step tenantID hash w3 doc); auto. }
  injection H as <-.
  eapply rtc_l; [eapply step_points; reflexivity|].
  eapply (updateIgnoringError_step tenantID hash _ doc); [reflexivity | reflexivity|].
  eapply keepsHash_documents; [|exact Hkeep3]. reflexivity.
Qed.

(** The goroutine that [IngestDocument] starts is such a sequence. *)
Lemma IngestDocument_keepsHash uuid_Parse uuid_New sha256_hex s w req resp w1 doc
    content tenant :
  IngestDocument uuid_Parse uuid_New sha256_hex s w req
  = (inr resp, w1, Some (processDocumentTask doc content tenant)) ->
  keepsHash w1 doc.
Proof.
  unfold IngestDocument. intros H.
  destruct (nonEmpty (Request_TenantId req)); [|discriminate].
  destruct (nonEmpty (Request_Content req)); [|discriminate]. cbn [negb] in H.
  destruct (uuid_Parse (Request_TenantId req)) as [tenantID|]; [|discriminate].
  destruct (TenantRepo_GetByID w tenantID) as [t|]; [|discriminate].
  destruct (DocumentRepo_GetByHash w tenantID _); [discriminate|].
  match type of H with
  | context [DocumentRepo_Create ?w0 ?d] =>
      destruct (DocumentRepo_Create w0 d) as [w'|] eqn:Hcreate; [|discriminate]
  end.
  injection H as _ <- <- _ _.
  unfold DocumentRepo_Create in Hcreate.
  destruct (existsb _ _) eqn:Hids; [discriminate|].
  destruct (_ || _); [discriminate|]. injection Hcreate as <-.
  intros d Hd Hsame. cbn [documents drawUUIDs] in Hd.
  apply elem_of_app in Hd as [Hd|Hd].
  - exfalso. cbn [documents drawUUIDs Document_ID] in Hids.
    rewrite <- not_true_iff_false in Hids. apply Hids.
    apply existsb_exists. exists d. split; [apply list_elem_of_In, Hd | exact Hsame].
  - apply list_elem_of_singleton in Hd. subst d. reflexivity.
Qed.

Lemma IngestDocument_goroutine_background tenantID hash unicodeLower uuid_Parse uuid_New
    sha256_hex regexp_ReplaceAllString s w req resp w1 task w2 :
  IngestDocument uuid_Parse uuid_New sha256_hex s w req = (inr resp, w1, Some task) ->
  runTask unicodeLower uuid_New sha256_hex regexp_ReplaceAllString s w1 task
  = Some (Finished w2) ->
  rtc (backgroundStep tenantID hash) w1 w2.
Proof.
  intros H Hrun.
  assert (Htask : exists doc content tenant, task = processDocumentTask doc content tenant).
  { unfold IngestDocument in H.
    destruct (negb _); [discriminate|]. destruct (negb _); [discriminate|].
    destruct (uuid_Parse _); [|discriminate].
    destruct (TenantRepo_GetByID _ _); [|discriminate].
    destruct (DocumentRepo_GetByHash _ _ _); [discriminate|].
    destruct (DocumentRepo_Create _ _); [|discriminate].
    injection H as _ _ <-. eauto. }
  destruct Htask as (doc & content & tenant & ->).
  apply IngestDocument_keepsHash in H. cbn [runTask] in Hrun.
  destruct (processDocument _ _ _ _ _ _ _ _) as [w'|] eqn:E; [|discriminate].
  injection Hrun as <-. eapply processDocument_background; eassumption.
Qed.

Lemma IngestDocument_idempotent_witness :
  exists d,
    d ∈ documents worldAfterDirect
    /\ Document_ID d = str "doc-0"
    /\ Document_Status d = str "READY"
    /\ IngestDocument parseKey newID digestOf docService worldAfterDirect
         repeatedRequest
       = (inr (mkIngestDocumentResponse (str "doc-0") DOCUMENT_STATUS_READY),
          worldAfterDirect, None).
Proof.
  destruct (IngestDocument parseKey newID digestOf docService world0 directRequest)
    as [[[st|resp] w1] [[doc content tenant|doc url tenant]|]] eqn:E;
    try (vm_compute in E; discriminate).
  pose proof E as E'. vm_compute in E'.
  injection E' as Hresp Hw1 Hdoc Hcontent Htenant.
  assert (Hreach : rtc (backgroundStep tenantKey
                          (digestOf (Request_Source directRequest ++ nl
                                     ++ Request_Content directRequest)))
                       w1 worldAfterDirect).
  { apply (processDocument_background _ _ asciiOnly newID digestOf docService w1 doc
             content tenant).
    - subst w1 doc. intros d Hd _. apply list_elem_of_singleton in Hd. subst d.
      reflexivity.
    - subst w1 doc content tenant. vm_compute. reflexivity. }
  subst resp.
  destruct (IngestDocument_idempotent parseKey newID digestOf docService world0 w1
              worldAfterDirect directRequest repeatedRequest _ _ tenantKey E
              eq_refl ltac:(discriminate) eq_refl eq_refl eq_refl Hreach)
    as (d & status & Hin & Hid & _ & _ & Hagain & _ & _ & Hready & _).
  assert (Hstatus : Document_Status d = str "READY").
  { apply list_elem_of_In in Hin. vm_compute in Hin.
    destruct Hin as [<-|[]]. reflexivity. }
  exists d. split; [exact Hin|]. split; [exact Hid|]. split; [exact Hstatus|].
  rewrite <- (Hready Hstatus). exact Hagain.
Defined.

(** *** The hash of a URL document *)

(** C2, for URL ingestion.  When the page is fetched, [processURL]
    either panics in [stripHTML] (the pattern is refused) before any
    hash is stored, or it gives the document the hash of the stripped
    body alone: the URL is no part of what is hashed.  Then a document
    of the tenant with another id and that hash makes [processURL] mark
    its document as failed, a duplicate, whatever the two URLs are;
    otherwise the stripped body is processed under that hash. *)
Theorem processURL_hashes_stripped_body_only :
  forall unicodeLower uuid_New sha256_hex regexp_ReplaceAllString
         (s : DocumentService) (w : World) (doc : Document) (url : gostring)
         (tenant : Tenant) (resp : HTTPResponse) (body : gostring),
    httpClient_Do s url = inr resp -> StatusCode resp = 200 -> Body resp = inr body ->
    let w1 := updateIgnoringError w (withStatus doc (str "PROCESSING")) in
    let run := processURL unicodeLower uuid_New sha256_hex regexp_ReplaceAllString
                 s w doc url tenant in
    (stripHTML regexp_ReplaceAllString body = None -> run = Some (Panicked w1))
    /\ (forall text existing,
          stripHTML regexp_ReplaceAllString body = Some text ->
          DocumentRepo_GetByHash w1 (Document_TenantID doc) (sha256_hex text)
          = Some existing ->
          streq (Document_ID existing) (Document_ID doc) = false ->
          run = Some (Finished
                        (markDocumentFailed w1
                           (fetchedDocument sha256_hex doc url body text)
                           (str "duplicate content exists in document "
                            ++ Document_ID existing))))
    /\ (forall text,
          stripHTML regexp_ReplaceAllString body = Some text ->
          DocumentRepo_GetByHash w1 (Document_TenantID doc) (sha256_hex text) = None
          \/ (exists existing,
                DocumentRepo_GetByHash w1 (Document_TenantID doc) (sha256_hex text)
                = Some existing
                /\ streq (Document_ID existing) (Document_ID doc) = true) ->
          run = option_map Finished
                  (processDocument unicodeLower uuid_New sha256_hex s w1
                     (fetchedDocument sha256_hex doc url body text) text tenant)).
Proof.
  intros ul new sha regexp s w doc url tenant resp body Hdo Hcode Hbody w1 run.
  subst run. unfold processURL. fold w1. rewrite Hdo, Hcode, Hbody.
  cbn [Z.eqb Pos.eqb negb].
  cbn [Document_ID Document_TenantID Document_Source Document_Title
       Document_ContentHash Document_ChunkCount Document_Status
       Document_ErrorMessage Document_Metadata withStatus].
  unfold urlContentHash, hashContent. fold (fetchedDocument sha doc url body).
  split; [|split].
  - intros ->. reflexivity.
  - intros text existing -> -> Hne. rewrite Hne. reflexivity.
  - intros text -> [-> | (existing & -> & ->)]; reflexivity.
Qed.

Lemma processURL_hashes_stripped_body_only_witness :
  processURL asciiOnly newID digestOf replaceInPlainText docService createdB docB
    urlB (tenantWith false)
  = Some (Finished (updateIgnoringError createdB (withStatus docB (str "PROCESSING"))))
  /\ map rowSummary
       (documents (updateIgnoringError createdB (withStatus docB (str "PROCESSING"))))
     = [ (urlA, digestOf pageBody, str "READY", 1);
         (urlB, [], str "PROCESSING", 0) ].
Proof.
  split; [|vm_compute; reflexivity].
  destruct (DocumentRepo_GetByHash
              (updateIgnoringError createdB (withStatus docB (str "PROCESSING")))
              (Document_TenantID docB) (digestOf pageBody))
    as [existing|] eqn:G; [|vm_compute in G; discriminate].
  assert (Hid : Document_ID existing = str "doc-0")
    by (vm_compute in G; injection G as <-; reflexivity).
  destruct (processURL_hashes_stripped_body_only asciiOnly newID digestOf
              replaceInPlainText docService createdB docB urlB (tenantWith false)
              (mkHTTPResponse 200 (str "200 OK") (inr pageBody)) pageBody
              eq_refl eq_refl eq_refl) as (_ & Hdup & _).
  rewrite (Hdup pageBody existing eq_refl G)
    by (rewrite Hid; vm_compute; reflexivity).
  rewrite Hid. vm_compute. reflexivity.
Defined.

(** The same page under two URLs: the second document is not
    processed.  Its row keeps the empty hash and the status
    [PROCESSING], because the update that would mark it as failed
    carries the hash of the first document and is refused by the
    unique index; the hash of the first document is not the hash of its
    URL followed by the body. *)
Lemma url_ingest_collapses_identical_bodies :
  map rowSummary (documents (worldAfterURL replaceInPlainText worldA urlB))
  = [ (urlA, digestOf pageBody, str "READY", 1);
      (urlB, [], str "PROCESSING", 0) ]
  /\ map DocumentChunk_DocumentID
       (document_chunks (worldAfterURL replaceInPlainText worldA urlB))
     = [str "doc-0"]
  /\ length (points (worldAfterURL replaceInPlainText worldA urlB)) = 1%nat
  /\ streq (digestOf pageBody) (digestOf (urlA ++ nl ++ pageBody)) = false.
Proof. vm_compute. repeat split. Qed.

(** With a [regexp] that refuses the backreference, as Go's does, the
    goroutine of a URL ingestion panics and the row keeps the empty
    hash. *)
Lemma url_ingest_panics_in_stripHTML :
  isPanicked (thenRun replaceAsGo
                (IngestURL parseKey newID docService world0 (urlRequest urlA))) = true
  /\ map rowSummary
       (documents (worldAfterURL replaceAsGo world0 urlA))
     = [ (urlA, [], str "PROCESSING", 0) ].
Proof. vm_compute. split; reflexivity. Qed.

(** The direct ingestion hashes the source, a line feed and the
    content. *)
Lemma direct_ingest_hashes_source_and_content :
  map rowSummary (documents worldAfterDirect)
  = [ (str "guide/install.md",
       digestOf (str "guide/install.md" ++ nl ++ pageBody), str "READY", 1) ].
Proof. vm_compute. reflexivity. Qed.

End DocumentFacts.

(** ** The conversation store *)
Module MemoryFacts.
Import GoLib Memory Sessions MemorySpec.

Lemma message_eta m : mkMessage (Role m) (Content m) = m.
Proof. destruct m; reflexivity. Qed.

Lemma GetHistory_addMessage s sessionID role content :
  0 <= maxMessages s ->
  GetHistory (addMessage s sessionID role content) sessionID
  = lastMessages (maxMessages s) (GetHistory s sessionID ++ [mkMessage role content]).
Proof.
  intros Hmax. unfold GetHistory, addMessage, lastMessages. cbn [conversations].
  rewrite lookup_insert_eq. cbn [default].
  set (messages := default [] (conversations s !! sessionID) ++ [mkMessage role content]).
  unfold len, slice.
  destruct (Z.of_nat (length messages) >? maxMessages s) eqn:E.
  - rewrite Z.gtb_ltb in E. apply Z.ltb_lt in E.
    replace (Z.to_nat (Z.of_nat (length messages) - maxMessages s))
      with (length messages - Z.to_nat (maxMessages s))%nat by lia.
    apply take_ge. rewrite length_drop. lia.
  - rewrite Z.gtb_ltb in E. apply Z.ltb_ge in E.
    replace (length messages - Z.to_nat (maxMessages s))%nat with 0%nat by lia.
    reflexivity.
Qed.

Lemma maxMessages_addMessage s sessionID role content :
  maxMessages (addMessage s sessionID role content) = maxMessages s.
Proof. reflexivity. Qed.

Lemma maxMessages_addMessages msgs : forall s sessionID,
  maxMessages (addMessages s sessionID msgs) = maxMessages s.
Proof.
  induction msgs as [|m msgs IH]; intros s sessionID; [reflexivity|].
  cbn [addMessages fold_left]. unfold addMessages in IH. rewrite IH. reflexivity.
Qed.

Lemma lastMessages_length n (l : list Message) :
  0 <= n -> len (lastMessages n l) = Z.min n (len l).
Proof. intros Hn. unfold lastMessages, len. rewrite length_drop. lia. Qed.

Lemma lastMessages_snoc n (l : list Message) m :
  0 <= n -> lastMessages n (lastMessages n l ++ [m]) = lastMessages n (l ++ [m]).
Proof.
  intros Hn. unfold lastMessages. rewrite !length_app, length_drop. cbn [length].
  destruct (decide (length l <= Z.to_nat n)%nat) as [Hle|Hgt].
  - replace (length l - Z.to_nat n)%nat with 0%nat by lia. cbn [drop].
    rewrite Nat.sub_0_r. reflexivity.
  - destruct (decide (Z.to_nat n = 0%nat)) as [Hz|Hnz].
    + rewrite !drop_ge; [reflexivity | |];
        rewrite ?length_app, ?length_drop; cbn [length]; lia.
    + rewrite drop_app_le by (rewrite length_drop; lia).
      rewrite drop_app_le by lia. rewrite drop_drop. f_equal. f_equal. lia.
Qed.

(** X1.  The history of a session is a window on what was said: after
    any number of messages it is the last [maxMessages] of the history
    before followed by these messages, so it never holds more than
    [maxMessages] messages and always ends with the newest ones. *)
Theorem history_is_the_recent_window :
  forall (s : Store) (sessionID : gostring) (msgs : list Message),
    0 <= maxMessages s ->
    len (GetHistory s sessionID) <= maxMessages s ->
    GetHistory (addMessages s sessionID msgs) sessionID
    = lastMessages (maxMessages s) (GetHistory s sessionID ++ msgs)
    /\ len (GetHistory (addMessages s sessionID msgs) sessionID) <= maxMessages s.
Proof.
  intros s sessionID msgs Hmax Hlen.
  assert (H : GetHistory (addMessages s sessionID msgs) sessionID
              = lastMessages (maxMessages s) (GetHistory s sessionID ++ msgs)).
  { revert s Hmax Hlen. induction msgs as [|m msgs IH] using rev_ind; intros s Hmax Hlen.
    - cbn [addMessages fold_left]. rewrite app_nil_r. unfold lastMessages, len in *.
      replace (length (GetHistory s sessionID) - Z.to_nat (maxMessages s))%nat
        with 0%nat by lia.
      reflexivity.
    - unfold addMessages. rewrite fold_left_app. cbn [fold_left].
      fold (addMessages s sessionID msgs).
      rewrite GetHistory_addMessage by (rewrite maxMessages_addMessages; exact Hmax).
      rewrite maxMessages_addMessages, IH by assumption.
      rewrite message_eta, lastMessages_snoc by exact Hmax.
      rewrite app_assoc. reflexivity. }
  split; [exact H|]. rewrite H, lastMessages_length by exact Hmax. lia.
Qed.

Lemma history_is_the_recent_window_witness :
  GetHistory (addMessages (mkStore ∅ 2) (str "s1")
                [mkMessage (str "user") (str "a");
                 mkMessage (str "assistant") (str "b");
                 mkMessage (str "user") (str "c")]) (str "s1")
  = [mkMessage (str "assistant") (str "b"); mkMessage (str "user") (str "c")].
Proof.
  exact (proj1 (history_is_the_recent_window (mkStore ∅ 2) (str "s1")
                  [mkMessage (str "user") (str "a");
                   mkMessage (str "assistant") (str "b");
                   mkMessage (str "user") (str "c")]
                  ltac:(vm_compute; discriminate) ltac:(vm_compute; discriminate))).
Defined.

(** X2.  [GetRecentHistory] with a count [n] (not negative) returns the
    last [n] messages of the session, all of them when there are
    fewer: after any messages, the last [min n maxMessages] of what was
    said. *)
Theorem recent_history_is_a_suffix :
  forall (s : Store) (sessionID : gostring) (n : Z),
    0 <= n ->
    GetRecentHistory s sessionID n = lastMessages n (GetHistory s sessionID)
    /\ len (GetRecentHistory s sessionID n) = Z.min n (len (GetHistory s sessionID)).
Proof.
  intros s sessionID n Hn.
  assert (H : GetRecentHistory s sessionID n = lastMessages n (GetHistory s sessionID)).
  { unfold GetRecentHistory, lastMessages, len, slice.
    set (history := GetHistory s sessionID).
    destruct (Z.of_nat (length history) <=? n) eqn:E.
    - apply Z.leb_le in E.
      replace (length history - Z.to_nat n)%nat with 0%nat by lia. reflexivity.
    - apply Z.leb_gt in E.
      replace (Z.to_nat (Z.of_nat (length history) - n))
        with (length history - Z.to_nat n)%nat by lia.
      apply take_ge. rewrite length_drop. lia. }
  split; [exact H|]. rewrite H. apply lastMessages_length, Hn.
Qed.

Lemma recent_history_is_a_suffix_witness :
  GetRecentHistory
    (addMessages DefaultStore (str "s1")
       [mkMessage (str "user") (str "a"); mkMessage (str "assistant") (str "b");
        mkMessage (str "user") (str "c")]) (str "s1") 2
  = [mkMessage (str "assistant") (str "b"); mkMessage (str "user") (str "c")].
Proof.
  exact (proj1 (recent_history_is_a_suffix
                  (addMessages DefaultStore (str "s1")
                     [mkMessage (str "user") (str "a");
                      mkMessage (str "assistant") (str "b");
                      mkMessage (str "user") (str "c")]) (str "s1") 2
                  ltac:(lia))).
Defined.

(** X3.  Sessions do not see each other: a message added to a session,
    and the clearing of a session, leave the history of every other
    session as it is; a cleared session has no history, and starts
    again with the next message. *)
Theorem sessions_are_isolated :
  forall (s : Store) (sessionID other role content : gostring),
    other <> sessionID ->
    GetHistory (addMessage s sessionID role content) other = GetHistory s other
    /\ GetHistory (ClearSession s sessionID) other = GetHistory s other
    /\ GetHistory (ClearSession s sessionID) sessionID = []
    /\ (1 <= maxMessages s ->
        GetHistory (addMessage (ClearSession s sessionID) sessionID role content)
                   sessionID
        = [mkMessage role content]).
Proof.
  intros s sessionID other role content Hne. repeat split.
  - unfold GetHistory, addMessage. cbn [conversations].
    rewrite lookup_insert_ne by congruence. reflexivity.
  - unfold GetHistory, ClearSession. cbn [conversations].
    rewrite lookup_delete_ne by congruence. reflexivity.
  - unfold GetHistory, ClearSession. cbn [conversations].
    rewrite lookup_delete_eq. reflexivity.
  - intros Hmax. rewrite GetHistory_addMessage by (cbn; lia).
    unfold GetHistory, ClearSession. cbn [conversations maxMessages].
    rewrite lookup_delete_eq. cbn [default app]. unfold lastMessages.
    cbn [length]. replace (1 - Z.to_nat (maxMessages s))%nat with 0%nat by lia.
    reflexivity.
Qed.

Lemma sessions_are_isolated_witness :
  GetHistory (addMessage (addMessage DefaultStore (str "s1") (str "user") (str "a"))
                (str "s2") (str "user") (str "b")) (str "s1")
  = [mkMessage (str "user") (str "a")].
Proof.
  rewrite (proj1 (sessions_are_isolated
                    (addMessage DefaultStore (str "s1") (str "user") (str "a"))
                    (str "s2") (str "s1") (str "user") (str "b")
                    ltac:(vm_compute; discriminate))).
  vm_compute. reflexivity.
Defined.

End MemoryFacts.

(** ** Tokens, similarity and what deduplication drops *)
Module SimilarityFacts.
Import GoLib Service DedupSpec.

(** *** [tokenize] *)

Lemma tokenize_fold (words : list gostring) (acc : gset gostring) w :
  w ∈ fold_left
        (fun wordSet word =>
           let word := strings_Trim word tokenCutset in
           if byteLen word >? 2 then {[ word ]} ∪ wordSet else wordSet)
        words acc
  <-> w ∈ acc
      \/ exists word, word ∈ words /\ w = strings_Trim word tokenCutset
                      /\ 2 < byteLen w.
Proof.
  revert acc. induction words as [|word words IH]; intros acc; cbn [fold_left].
  - split; [tauto|]. intros [H|(word & Hin & _)]; [exact H|].
    apply elem_of_nil in Hin. contradiction.
  - rewrite IH. cbv zeta.
    destruct (byteLen (strings_Trim word tokenCutset) >? 2) eqn:E.
    + rewrite Z.gtb_ltb in E. apply Z.ltb_lt in E. rewrite elem_of_union, elem_of_singleton.
      split.
      * intros [[->|H]|(word' & Hin & Hw & Hlen)].
        -- right. exists word. split; [apply elem_of_cons; left; reflexivity|]. tauto.
        -- left. exact H.
        -- right. exists word'. split; [apply elem_of_cons; right; exact Hin|]. tauto.
      * intros [H|(word' & Hin & Hw & Hlen)]; [tauto|].
        apply elem_of_cons in Hin as [->|Hin]; [left; left; exact Hw|].
        right. exists word'. tauto.
    + rewrite Z.gtb_ltb in E. apply Z.ltb_ge in E. split.
      * intros [H|(word' & Hin & Hw & Hlen)]; [tauto|].
        right. exists word'. split; [apply elem_of_cons; right; exact Hin|]. tauto.
      * intros [H|(word' & Hin & Hw & Hlen)]; [tauto|].
        apply elem_of_cons in Hin as [->|Hin]; [subst w; lia|].
        right. exists word'. tauto.
Qed.

Lemma dropWhile_suffix {A} (p : A -> bool) l : dropWhile p l `suffix_of` l.
Proof.
  induction l as [|x l IH]; cbn [dropWhile]; [reflexivity|].
  destruct (p x); [|reflexivity]. apply suffix_cons_r, IH.
Qed.

Lemma Trim_head cutset s x r :
  strings_Trim s cutset = x :: r -> inCutset cutset x = false.
Proof.
  unfold strings_Trim. intros H.
  set (t := dropWhile (inCutset cutset) s) in *.
  destruct (dropWhile_suffix (inCutset cutset) (rev t)) as [k Hk].
  apply (f_equal (@rev _)) in Hk. rewrite rev_involutive, rev_app_distr, H in Hk.
  cbn [app] in Hk. eapply GoLibFacts.dropWhile_head. exact Hk.
Qed.

Lemma Trim_last cutset s x r :
  strings_Trim s cutset = r ++ [x] -> inCutset cutset x = false.
Proof.
  unfold strings_Trim. intros H.
  apply (f_equal (@rev _)) in H. rewrite rev_involutive, rev_app_distr in H.
  cbn [rev app] in H. eapply GoLibFacts.dropWhile_head, H.
Qed.

Lemma Trim_infix cutset s : exists before after,
  s = before ++ strings_Trim s cutset ++ after.
Proof.
  unfold strings_Trim.
  destruct (dropWhile_suffix (inCutset cutset) s) as [before Hb].
  destruct (dropWhile_suffix (inCutset cutset) (rev (dropWhile (inCutset cutset) s)))
    as [k Hk].
  apply (f_equal (@rev _)) in Hk. rewrite rev_involutive, rev_app_distr in Hk.
  exists before, (rev k). rewrite <- Hk. exact Hb.
Qed.

Lemma fieldsFrom_no_space cur s w :
  Forall (fun r => unicode_IsSpace r = false) cur ->
  w ∈ fieldsFrom cur s -> Forall (fun r => unicode_IsSpace r = false) w.
Proof.
  revert cur. induction s as [|r s IH]; intros cur Hcur Hin; cbn [fieldsFrom] in Hin.
  - destruct cur; [apply elem_of_nil in Hin; contradiction|].
    apply list_elem_of_singleton in Hin. subst w. apply Forall_rev, Hcur.
  - destruct (unicode_IsSpace r) eqn:E.
    + destruct cur.
      * apply (IH [] ltac:(constructor) Hin).
      * apply elem_of_cons in Hin as [->|Hin]; [apply Forall_rev, Hcur|].
        apply (IH [] ltac:(constructor) Hin).
    + apply (IH (r :: cur)); [constructor; assumption | exact Hin].
Qed.

(** X4.  The tokens of a text are the words of the lower-cased text
    (its maximal runs without white space), each with the punctuation
    of the cutset stripped from its two ends, that still have more than
    two bytes.  Hence a token has three bytes or more, no white space,
    and neither starts nor ends with a rune of the cutset. *)
Theorem tokens_are_trimmed_words :
  forall (unicodeLower : rune -> rune) (content w : gostring),
    (w ∈ tokenize unicodeLower content
     <-> exists word,
           word ∈ strings_Fields (strings_ToLower unicodeLower content)
           /\ w = strings_Trim word tokenCutset /\ 2 < byteLen w)
    /\ (w ∈ tokenize unicodeLower content ->
        3 <= byteLen w
        /\ Forall (fun r => unicode_IsSpace r = false) w
        /\ (forall x r, w = x :: r -> inCutset tokenCutset x = false)
        /\ (forall x r, w = r ++ [x] -> inCutset tokenCutset x = false)).
Proof.
  intros unicodeLower content w.
  assert (Hiff : w ∈ tokenize unicodeLower content
                 <-> exists word,
                       word ∈ strings_Fields (strings_ToLower unicodeLower content)
                       /\ w = strings_Trim word tokenCutset /\ 2 < byteLen w).
  { etransitivity;
      [exact (tokenize_fold
                (strings_Fields (strings_ToLower unicodeLower content)) ∅ w)|].
    split.
    - intros [H|H]; [apply elem_of_empty in H; contradiction | exact H].
    - intros H. right. exact H. }
  split; [exact Hiff|]. intros Hin. apply Hiff in Hin as (word & Hword & -> & Hlen).
  split; [lia|]. split; [|split].
  - apply (fieldsFrom_no_space [] _ word ltac:(constructor)) in Hword.
    destruct (Trim_infix tokenCutset word) as (before & after & Heq).
    rewrite Heq in Hword. apply Forall_app in Hword as [_ Hword].
    apply Forall_app in Hword as [Hword _]. exact Hword.
  - intros x r Heq. eapply Trim_head, Heq.
  - intros x r Heq. eapply Trim_last, Heq.
Qed.

(** *** [jaccardSimilarity] *)

(** X5.  The similarity of two token sets does not depend on the order
    of the two; against the empty set it is 1.0 for the empty set and
    0.0 for any other. *)
Theorem jaccardSimilarity_symmetric :
  forall set1 set2 : gset gostring,
    jaccardSimilarity set1 set2 = jaccardSimilarity set2 set1
    /\ jaccardSimilarity set1 ∅
       = (if decide (set1 = ∅) then 1%float else 0%float).
Proof.
  intros set1 set2. split.
  - unfold jaccardSimilarity.
    rewrite (andb_comm (size set1 =? 0)%nat), (orb_comm (size set1 =? 0)%nat).
    replace (set2 ∩ set1) with (set1 ∩ set2) by (apply (comm_L (∩))).
    rewrite (Z.add_comm (Z.of_nat (size set2))). reflexivity.
  - unfold jaccardSimilarity. rewrite size_empty. cbn [Nat.eqb].
    rewrite andb_true_r, orb_true_r.
    destruct (decide (set1 = ∅)) as [->|Hne].
    + rewrite size_empty. reflexivity.
    + destruct (size set1 =? 0)%nat eqn:E; [|reflexivity].
      apply Nat.eqb_eq, size_empty_inv in E. exfalso. apply Hne.
      apply set_eq. intros x. split; [apply E | intros H; apply elem_of_empty in H; contradiction].
Qed.

(** *** [deduplicateResults] *)

Lemma keptResults_sublist {A} (l : list A) keep : keptResults l keep `sublist_of` l.
Proof.
  revert keep. induction l as [|x l IH]; intros keep; cbn [keptResults].
  - constructor.
  - destruct keep as [|k keep]; [apply sublist_nil_l|].
    destruct k; [apply sublist_skip | apply sublist_cons]; apply IH.
Qed.

Lemma keptResults_elem {A} (l : list A) keep i x :
  l !! i = Some x -> kept keep i = true -> x ∈ keptResults l keep.
Proof.
  revert keep i. induction l as [|y l IH]; intros keep i Hx Hk; [discriminate|].
  destruct keep as [|k keep]; [discriminate|]. cbn [keptResults].
  destruct i as [|i].
  - cbn in Hx, Hk. injection Hx as ->. subst k. apply elem_of_cons. left. reflexivity.
  - cbn in Hx. change (kept keep i = true) in Hk.
    destruct k; [apply elem_of_cons; right|]; eapply IH; eassumption.
Qed.

Lemma keptResults_head {A} (l : list A) keep :
  kept keep 0 = true -> head (keptResults l keep) = head l.
Proof.
  destruct l as [|x l]; [reflexivity|]. destruct keep as [|k keep]; [discriminate|].
  cbn. intros ->. reflexivity.
Qed.

(** X6.  Deduplication only removes results: what it returns is the
    input with some results left out, in the same order; the first
    result is never left out; and a result is left out only if a result
    ranked before it, which stays, is similar to it at the threshold. *)
Theorem deduplicateResults_drops_only_duplicates :
  forall (unicodeLower : rune -> rune) (results : list Vectorstore.SearchResult)
         (threshold : float),
    let out := deduplicateResults unicodeLower results threshold in
    out `sublist_of` results
    /\ head out = head results
    /\ forall (j : nat) r, results !! j = Some r ->
         r ∈ out
         \/ exists (i : nat) a,
              (i < j)%nat /\ results !! i = Some a /\ a ∈ out
              /\ similar unicodeLower threshold a r = true.
Proof.
  intros unicodeLower results threshold out. subst out.
  unfold deduplicateResults. destruct (len results <=? 1) eqn:E.
  - split; [reflexivity|]. split; [reflexivity|].
    intros j r Hr. left. eapply list_elem_of_lookup_2, Hr.
  - apply Z.leb_gt in E. unfold len in E.
    set (wordSets := map (fun r => tokenize unicodeLower (Vectorstore.Content r)) results).
    set (n := length results).
    change (dedupKeep unicodeLower results threshold)
      with (finalKeep wordSets threshold n).
    split; [apply keptResults_sublist|]. split.
    + apply keptResults_head.
      rewrite (DedupFacts.finalKeep_at wordSets threshold n 0) by (subst n; lia).
      cbn [seq dedupOuter fold_left]. unfold kept.
      destruct n eqn:En; [subst n; lia|]. reflexivity.
    + intros j r Hr.
      destruct (kept (finalKeep wordSets threshold n) j) eqn:Hk.
      * left. eapply keptResults_elem; eassumption.
      * right. assert (Hj : (j < n)%nat) by (eapply lookup_lt_Some, Hr).
        destruct (DedupFacts.finalKeep_dropped wordSets threshold n j Hj Hk)
          as (i & Hij & Hi & Hd).
        destruct (lookup_lt_is_Some_2 results i ltac:(subst n; lia)) as [a Ha].
        exists i, a. split; [exact Hij|]. split; [exact Ha|].
        split; [eapply keptResults_elem; eassumption|].
        rewrite <- (DedupFacts.dup_similar unicodeLower results threshold i j a r Ha Hr).
        exact Hd.
Qed.

End SimilarityFacts.

(** ** The scores read from the reranking response *)
Module RerankParseFacts.
Import GoLib Reranker Examples.

Lemma clampScore_range score :
  PrimFloat.ltb (clampScore score) 0 = false
  /\ PrimFloat.ltb 1 (clampScore score) = false.
Proof.
  unfold clampScore. destruct (PrimFloat.ltb score 0) eqn:E0.
  - vm_compute. split; reflexivity.
  - destruct (PrimFloat.ltb 1 score) eqn:E1.
    + vm_compute. split; reflexivity.
    + split; assumption.
Qed.

Section Scores.
Variable numResults : Z.

(** The loop of [parseRerankResponse] over the parsed entries. *)
Local Abbreviation storeScores :=
  (fold_left
     (fun scores s =>
        if (DocIndex s >=? 0) && (DocIndex s <? numResults)
        then <[Z.to_nat (DocIndex s) := clampScore (Score s)]> scores
        else scores)).

Lemma storeScores_length parsed (scores : list float) :
  length (storeScores parsed scores) = length scores.
Proof.
  revert scores. induction parsed as [|s parsed IH]; intros scores; [reflexivity|].
  cbn [fold_left]. rewrite IH.
  destruct ((DocIndex s >=? 0) && (DocIndex s <? numResults)); [|reflexivity].
  apply length_insert.
Qed.

Lemma storeScores_lookup parsed (scores : list float) (i : Z) :
  0 <= i < numResults -> length scores = Z.to_nat numResults ->
  storeScores parsed scores !! Z.to_nat i
  = match last (filter (fun s => DocIndex s = i) parsed) with
    | Some s => Some (clampScore (Score s))
    | None => scores !! Z.to_nat i
    end.
Proof.
  intros Hi. revert scores.
  induction parsed as [|s parsed IH]; intros scores Hlen; [reflexivity|].
  cbn [fold_left]. rewrite IH.
  2:{ destruct ((DocIndex s >=? 0) && (DocIndex s <? numResults)); [|exact Hlen].
      rewrite length_insert. exact Hlen. }
  rewrite filter_cons. destruct (decide (DocIndex s = i)) as [Hs|Hs].
  - rewrite last_cons.
    destruct (last (filter (fun s => DocIndex s = i) parsed)); [reflexivity|].
    replace ((DocIndex s >=? 0) && (DocIndex s <? numResults)) with true
      by (symmetry; apply andb_true_iff; split;
          [rewrite Z.geb_leb; apply Z.leb_le | apply Z.ltb_lt]; lia).
    rewrite Hs. apply list_lookup_insert_eq. lia.
  - destruct (last (filter (fun s => DocIndex s = i) parsed)); [reflexivity|].
    destruct ((DocIndex s >=? 0) && (DocIndex s <? numResults)) eqn:E; [|reflexivity].
    apply andb_true_iff in E as [E1 E2].
    rewrite Z.geb_leb in E1. apply Z.leb_le in E1.
    apply list_lookup_insert_ne. intros H. apply Hs. lia.
Qed.

Lemma storeScores_range parsed (scores : list float) :
  Forall (fun s => PrimFloat.ltb s 0 = false /\ PrimFloat.ltb 1 s = false) scores ->
  Forall (fun s => PrimFloat.ltb s 0 = false /\ PrimFloat.ltb 1 s = false)
         (storeScores parsed scores).
Proof.
  revert scores. induction parsed as [|s parsed IH]; intros scores H; [exact H|].
  cbn [fold_left]. apply IH.
  destruct ((DocIndex s >=? 0) && (DocIndex s <? numResults)); [|exact H].
  apply Forall_insert; [exact H | apply clampScore_range].
Qed.

End Scores.

(** X7.  When the response of the model parses, there is one score for
    each of the [numResults] documents: the score of the last entry of
    the response with the document's index, brought into the range from
    0 to 1, or 0.5 where the response has no entry for the document.
    Entries with an index outside the documents are ignored, and no
    score is below 0 or above 1. *)
Theorem parsed_scores_by_document :
  forall (json_Unmarshal : gostring -> option (list relevanceScore))
         (response : gostring) (numResults : Z) (scores : list float),
    0 <= numResults ->
    parseRerankResponse json_Unmarshal response numResults = Some scores ->
    exists parsed,
      json_Unmarshal (strings_TrimSpace (unfence (strings_TrimSpace response)))
      = Some parsed
      /\ len scores = numResults
      /\ (forall i, 0 <= i < numResults ->
            scores !! Z.to_nat i
            = Some match last (filter (fun s => DocIndex s = i) parsed) with
                   | Some s => clampScore (Score s)
                   | None => 0.5%float
                   end)
      /\ Forall (fun s => PrimFloat.ltb s 0 = false /\ PrimFloat.ltb 1 s = false)
                scores.
Proof.
  intros json response n scores Hn. unfold parseRerankResponse. cbv zeta.
  destruct (json _) as [parsed|] eqn:E; [|discriminate].
  intros [= <-]. exists parsed. split; [reflexivity|]. split; [|split].
  - unfold len. rewrite storeScores_length, repeat_length. lia.
  - intros i Hi. rewrite (storeScores_lookup n parsed _ i Hi) by apply repeat_length.
    destruct (last _); [reflexivity|].
    apply DedupFacts.lookup_repeat_lt. lia.
  - apply storeScores_range. apply Forall_forall. intros s Hs.
    apply list_elem_of_In, repeat_spec in Hs. subst s. vm_compute. split; reflexivity.
Qed.

Lemma parsed_scores_by_document_witness :
  parseRerankResponse decodeScores scoresJSON 2 = Some [0.125%float; 0.25%float]
  /\ exists parsed,
      decodeScores (strings_TrimSpace (unfence (strings_TrimSpace scoresJSON)))
      = Some parsed
      /\ len [0.125%float; 0.25%float] = 2
      /\ (forall i, 0 <= i < 2 ->
            [0.125%float; 0.25%float] !! Z.to_nat i
            = Some match last (filter (fun s => DocIndex s = i) parsed) with
                   | Some s => clampScore (Score s)
                   | None => 0.5%float
                   end)
      /\ Forall (fun s => PrimFloat.ltb s 0 = false /\ PrimFloat.ltb 1 s = false)
                [0.125%float; 0.25%float].
Proof.
  split; [vm_compute; reflexivity|].
  apply (parsed_scores_by_document decodeScores scoresJSON 2); [lia|].
  vm_compute. reflexivity.
Defined.

End RerankParseFacts.

(** ** What the vector store gives back of a chunk *)
Module QdrantFacts.
Import GoLib Vectorstore Qdrant.

(** X8.  A chunk that [Upsert] has written comes back from [Search]
    with its identifier and the score of the engine.  Its document and
    its content come back as well, unless the metadata of the chunk has
    a key [document_id] or [content]: the value of that key then takes
    their place.  The metadata come back without these two keys. *)
Theorem search_reads_back_upserted_chunk :
  forall (chunk : Chunk) (score : float),
    let result := pointToResult (storedPoint chunk score) in
    ID result = Chunk_ID chunk
    /\ Score result = score
    /\ DocumentID result
       = default (Chunk_DocumentID chunk) (Chunk_Metadata chunk !! str "document_id")
    /\ Content result
       = default (Chunk_Content chunk) (Chunk_Metadata chunk !! str "content")
    /\ Metadata result
       = delete (str "document_id") (delete (str "content") (Chunk_Metadata chunk)).
Proof.
  intros chunk score result. subst result.
  unfold pointToResult, storedPoint, upsertPayload. cbn [Point_Payload Point_Id Point_Score
    ID Score DocumentID Content Metadata].
  assert (Hne : str "document_id" <> str "content") by (vm_compute; discriminate).
  split; [reflexivity|]. split; [reflexivity|]. split; [|split].
  - rewrite lookup_union.
    rewrite lookup_insert_eq.
    destruct (Chunk_Metadata chunk !! str "document_id"); reflexivity.
  - rewrite lookup_union.
    rewrite lookup_insert_ne by exact Hne. rewrite lookup_insert_eq.
    destruct (Chunk_Metadata chunk !! str "content"); reflexivity.
  - apply map_eq. intros k.
    destruct (decide (k = str "document_id")) as [->|Hd].
    { rewrite !lookup_delete_eq. reflexivity. }
    rewrite !(lookup_delete_ne _ (str "document_id")) by congruence.
    destruct (decide (k = str "content")) as [->|Hc].
    { rewrite !lookup_delete_eq. reflexivity. }
    rewrite !(lookup_delete_ne _ (str "content")) by congruence.
    rewrite lookup_union, !lookup_insert_ne by congruence.
    rewrite lookup_empty. destruct (Chunk_Metadata chunk !! k); reflexivity.
Qed.

End QdrantFacts.

(** ** The configuration of a tenant *)
Module TenantConfigFacts.
Import GoLib Repository Service Tenants.

Lemma overrideChunker_twice chunker pc :
  overrideChunker (overrideChunker chunker pc) pc = overrideChunker chunker pc.
Proof.
  destruct pc as [pc|]; [|reflexivity]. destruct chunker as [m t x o].
  unfold overrideChunker.
  destruct (nonEmpty (Proto_Method pc)) eqn:E1;
    destruct (Proto_TargetSize pc >? 0) eqn:E2;
    destruct (Proto_MaxSize pc >? 0) eqn:E3;
    destruct (Proto_Overlap pc >? 0) eqn:E4;
    cbn [Method TargetSize MaxSize Overlap];
    rewrite ?E1, ?E2, ?E3, ?E4; reflexivity.
Qed.

Lemma mergeConfig_reranker existing protoConfig :
  RerankerEnabled (mergeConfig existing protoConfig) = RerankerEnabled existing.
Proof. reflexivity. Qed.

Lemma updates_keep_reranker updates config :
  RerankerEnabled (fold_left mergeConfig updates config) = RerankerEnabled config.
Proof.
  revert config. induction updates as [|u updates IH]; intros config; [reflexivity|].
  cbn [fold_left]. rewrite IH. apply mergeConfig_reranker.
Qed.

Lemma GetModelConfig_sizes modelName :
  0 < TargetChunkWords (GetModelConfig modelName)
  /\ TargetChunkWords (GetModelConfig modelName)
     <= MaxChunkWords (GetModelConfig modelName)
  /\ MaxChunkWords (GetModelConfig modelName)
     <= ContextLength (GetModelConfig modelName).
Proof.
  unfold GetModelConfig.
  repeat (match goal with |- context [streq ?a ?b] => destruct (streq a b) end);
    cbn; lia.
Qed.

(** X9.  The configuration that the tenant service builds for a new
    tenant has reranking off, and no update of the configuration turns
    it on: for a tenant configured through the service alone, the
    rerank step of the query pipeline hands on its candidates as they
    are, whatever reranker is attached. *)
Theorem service_never_enables_reranking :
  forall (cfg : Config) (protoConfig : option ProtoTenantConfig)
         (updates : list ProtoTenantConfig)
         (s : RAGService) (id : UUID) (name apiKey : gostring) (usage : TenantUsage)
         (query : gostring) (options : queryOptions)
         (cands : list Vectorstore.SearchResult),
    let config := fold_left mergeConfig updates (buildTenantConfig cfg protoConfig) in
    RerankerEnabled config = false
    /\ rerankStep s (mkTenant id name apiKey config usage) query options cands = cands.
Proof.
  intros cfg protoConfig updates s id name apiKey usage query options cands config.
  assert (H : RerankerEnabled config = false).
  { subst config. rewrite updates_keep_reranker.
    destruct protoConfig; reflexivity. }
  split; [exact H|].
  unfold rerankStep. cbn [Tenant_Config]. rewrite H.
  destruct (reranker s); reflexivity.
Qed.

(** X10.  An update of the configuration replaces the fields that the
    request sets (a non-empty string, a positive number) and keeps the
    others: applying the same update twice is the same as applying it
    once, and an update with no chunker part leaves the chunker as it
    is, also when it names another embedding model. *)
Theorem mergeConfig_idempotent :
  forall (existing : TenantConfig) (protoConfig : ProtoTenantConfig),
    mergeConfig (mergeConfig existing protoConfig) protoConfig
    = mergeConfig existing protoConfig
    /\ (Proto_Chunker protoConfig = None ->
        Chunker (mergeConfig existing protoConfig) = Chunker existing).
Proof.
  intros existing protoConfig. split.
  - unfold mergeConfig.
    cbn [EmbeddingModel LLMModel Chunker TopK MinScore SystemPrompt RerankerEnabled].
    rewrite overrideChunker_twice.
    destruct (nonEmpty (Proto_EmbeddingModel protoConfig));
      destruct (nonEmpty (Proto_LlmModel protoConfig));
      destruct (Proto_TopK protoConfig >? 0);
      destruct (PrimFloat.ltb 0 (Proto_MinScore protoConfig));
      destruct (nonEmpty (Proto_SystemPrompt protoConfig)); reflexivity.
  - intros H. unfold mergeConfig. cbn [Chunker]. rewrite H. reflexivity.
Qed.

(** X11.  Creating a tenant with a configuration that names no
    embedding model gives the configuration of a tenant created with no
    configuration and then updated with that one. *)
Theorem create_is_default_then_update :
  forall (cfg : Config) (protoConfig : ProtoTenantConfig),
    Proto_EmbeddingModel protoConfig = [] ->
    buildTenantConfig cfg (Some protoConfig)
    = mergeConfig (buildTenantConfig cfg None) protoConfig.
Proof.
  intros cfg protoConfig H. unfold buildTenantConfig, mergeConfig.
  rewrite H. reflexivity.
Qed.

Lemma create_is_default_then_update_witness :
  Proto_EmbeddingModel
    (mkProtoTenantConfig [] (str "mistral")
       (Some (mkProtoChunkerConfig (str "fixed") 100 0 10)) 8 0%float []) = []
  /\ buildTenantConfig defaultConfig
       (Some (mkProtoTenantConfig [] (str "mistral")
                (Some (mkProtoChunkerConfig (str "fixed") 100 0 10)) 8 0%float []))
     = mergeConfig (buildTenantConfig defaultConfig None)
         (mkProtoTenantConfig [] (str "mistral")
            (Some (mkProtoChunkerConfig (str "fixed") 100 0 10)) 8 0%float []).
Proof.
  split; [reflexivity|].
  apply (create_is_default_then_update defaultConfig). reflexivity.
Defined.

(** X12.  A new tenant gets the chunk sizes of its embedding model,
    those of the model that the request names when it names one: a
    positive target that is not above the maximum, for a known model
    and for an unknown one.  With server defaults that are in range,
    the configuration built from an absent request passes the
    validation of [CreateTenant]. *)
Theorem default_configuration_is_valid :
  forall (cfg : Config),
    nonEmpty (OllamaEmbeddingModel cfg) = true ->
    nonEmpty (OllamaLLMModel cfg) = true ->
    DefaultChunkMethod cfg = [] \/ Ingestion.validMethod (DefaultChunkMethod cfg) = true ->
    0 <= DefaultChunkOverlap cfg ->
    0 <= DefaultTopK cfg ->
    PrimFloat.ltb (DefaultMinScore cfg) 0 = false ->
    PrimFloat.ltb 1 (DefaultMinScore cfg) = false ->
    let config := buildTenantConfig cfg None in
    validateTenantConfig config = None
    /\ TargetSize (Chunker config)
       = TargetChunkWords (GetModelConfig (OllamaEmbeddingModel cfg))
    /\ MaxSize (Chunker config)
       = MaxChunkWords (GetModelConfig (OllamaEmbeddingModel cfg))
    /\ 0 < TargetSize (Chunker config) <= MaxSize (Chunker config).
Proof.
  intros cfg He Hl Hm Ho Hk Hs0 Hs1 config. subst config.
  pose proof (GetModelConfig_sizes (OllamaEmbeddingModel cfg)) as (Ht & Htm & _).
  split; [|split; [reflexivity | split; [reflexivity | cbn; lia]]].
  unfold validateTenantConfig, buildTenantConfig.
  cbn [EmbeddingModel LLMModel Chunker TopK MinScore Method TargetSize MaxSize Overlap].
  rewrite He, Hl. cbn [negb].
  replace (nonEmpty (DefaultChunkMethod cfg)
           && negb (Ingestion.validMethod (DefaultChunkMethod cfg))) with false
    by (destruct Hm as [-> | ->]; [reflexivity | symmetry; apply andb_false_r]).
  replace (TargetChunkWords (GetModelConfig (OllamaEmbeddingModel cfg)) <? 0)
    with false by (symmetry; apply Z.ltb_ge; lia).
  replace (MaxChunkWords (GetModelConfig (OllamaEmbeddingModel cfg)) <? 0)
    with false by (symmetry; apply Z.ltb_ge; lia).
  replace (TargetChunkWords (GetModelConfig (OllamaEmbeddingModel cfg))
           >? MaxChunkWords (GetModelConfig (OllamaEmbeddingModel cfg))) with false
    by (symmetry; rewrite Z.gtb_ltb; apply Z.ltb_ge; lia).
  rewrite andb_false_r.
  replace (DefaultChunkOverlap cfg <? 0) with false by (symmetry; apply Z.ltb_ge; lia).
  replace (DefaultTopK cfg <? 0) with false by (symmetry; apply Z.ltb_ge; lia).
  rewrite Hs0, Hs1. reflexivity.
Qed.

Lemma default_configuration_is_valid_witness :
  validateTenantConfig (buildTenantConfig defaultConfig None) = None
  /\ TargetSize (Chunker (buildTenantConfig defaultConfig None)) = 256
  /\ MaxSize (Chunker (buildTenantConfig defaultConfig None)) = 512.
Proof.
  pose proof (default_configuration_is_valid defaultConfig
                eq_refl eq_refl (or_intror eq_refl)
                ltac:(cbn; lia) ltac:(cbn; lia) eq_refl eq_refl) as (H & Ht & Hx & _).
  split; [exact H|]. split; [rewrite Ht | rewrite Hx]; reflexivity.
Defined.

End TenantConfigFacts.

(** ** What a query leaves in the conversation store *)
Module QueryMemoryFacts.
Import GoLib Repository Service HandlerSpec.

Section Handlers.
Variable unicodeLower : rune -> rune.
Variable uuid_Parse : gostring -> option UUID.

Lemma resolveTenant_error s req err :
  resolveTenant uuid_Parse s req = inl err -> generationFailed err = false.
Proof.
  unfold resolveTenant.
  destruct (negb (nonEmpty (TenantId req))); [intros [= <-]; reflexivity|].
  destruct (negb (nonEmpty (Query_ req))); [intros [= <-]; reflexivity|].
  destruct (uuid_Parse (TenantId req)); [|intros [= <-]; reflexivity].
  destruct (tenantRepo_GetByID s _); [intros [= <-]; reflexivity | discriminate].
Qed.

Lemma retrieve_error s tenant tenantID query options err :
  retrieve unicodeLower s tenant tenantID query options = inl err ->
  generationFailed err = false.
Proof.
  unfold retrieve.
  destruct (embedder_Embed s query); [intros [= <-]; reflexivity|].
  destruct (if useHybrid s then sparseModel s else None).
  - destruct (Vectorstore.HybridSearch _ _ _ _ _ _); [intros [= <-]; reflexivity|].
    discriminate.
  - destruct (Vectorstore.Search _ _ _ _ _); [intros [= <-]; reflexivity|].
    discriminate.
Qed.

End Handlers.

(** X13.  [Query] writes to the conversation store only for a request
    with a session.  When it answers, the session has the question and
    then the answer added.  When the generation fails, the question
    stays in the session without an answer.  With any other error the
    store is as it was. *)
Theorem Query_remembers_the_exchange :
  forall (unicodeLower : rune -> rune) (uuid_Parse : gostring -> option UUID)
         (s : RAGService) (memory : Memory.Store) (req : QueryRequest),
    let out := Query unicodeLower uuid_Parse s memory req in
    let asked := Memory.AddUserMessage memory (SessionId req) (Query_ req) in
    match fst out with
    | inr resp =>
        snd out = if nonEmpty (SessionId req)
                  then Memory.AddAssistantMessage asked (SessionId req) (Answer resp)
                  else memory
    | inl err =>
        snd out = if nonEmpty (SessionId req) && generationFailed err
                  then asked else memory
    end.
Proof.
  intros unicodeLower uuid_Parse s memory req out asked. subst out asked.
  unfold Query.
  destruct (resolveTenant uuid_Parse s req) as [err|[tenantID tenant]] eqn:Er.
  { cbn [fst snd]. rewrite (resolveTenant_error _ _ _ _ Er), andb_false_r. reflexivity. }
  destruct (retrieve unicodeLower s tenant tenantID (Query_ req) _)
    as [err|searchResults] eqn:Es.
  { cbn [fst snd]. rewrite (retrieve_error _ _ _ _ _ _ _ Es), andb_false_r. reflexivity. }
  unfold loadHistory.
  destruct (nonEmpty (SessionId req)) eqn:Esid.
  - destruct (Llm.Generate _ _ _); reflexivity.
  - destruct (Llm.Generate _ _ _); reflexivity.
Qed.

End QueryMemoryFacts.

(** ** Reading and deleting documents *)
Module DocumentAPIFacts.
Import GoLib Repository Service Documents DocumentAPI Examples DocExamples DocAPIExamples.

Lemma find_existsb_false {A} (P : A -> bool) l :
  existsb P l = false -> List.find P l = None.
Proof.
  induction l as [|x l IH]; cbn [existsb List.find]; [reflexivity|].
  destruct (P x); [discriminate | exact IH].
Qed.

Lemma find_existsb_true {A} (P : A -> bool) l x :
  List.find P l = Some x -> existsb P l = true.
Proof.
  induction l as [|y l IH]; cbn [existsb List.find]; [discriminate|].
  destruct (P y); [reflexivity | exact IH].
Qed.

Lemma find_filter_negb {A} (P : A -> bool) l :
  List.find P (List.filter (fun x => negb (P x)) l) = None.
Proof.
  induction l as [|x l IH]; cbn [List.filter List.find]; [reflexivity|].
  destruct (P x) eqn:E; cbn [negb]; [exact IH|].
  cbn [List.find]. rewrite E. exact IH.
Qed.

Lemma filter_twice {A} (P : A -> bool) l :
  List.filter P (List.filter P l) = List.filter P l.
Proof.
  induction l as [|x l IH]; cbn [List.filter]; [reflexivity|].
  destruct (P x) eqn:E; [|exact IH].
  cbn [List.filter]. rewrite E, IH. reflexivity.
Qed.


Section Handlers.
Variable uuid_Parse : gostring -> option UUID.
Variable uuid_New : nat -> UUID.
Variable sha256_hex : gostring -> gostring.

Lemma Create_documents w doc w1 :
  DocumentRepo_Create w doc = Some w1 ->
  existsb (sameDocument (Document_ID doc)) (documents w) = false
  /\ documents w1 = documents w ++ [doc]
  /\ tenants w1 = tenants w /\ document_chunks w1 = document_chunks w
  /\ points w1 = points w.
Proof.
  unfold DocumentRepo_Create.
  destruct (existsb (sameDocument (Document_ID doc)) (documents w)) eqn:E;
    [discriminate|].
  destruct (_ || _); [discriminate|]. intros [= <-]. auto.
Qed.

End Handlers.

(** X15.  A document that [IngestDocument] has created can be read with
    [GetDocument] under the identifier of the response, provided the
    identifier parses to itself: it belongs to the tenant of the
    request, is in the status PROCESSING with no chunk yet, has the
    hash of the source, a line feed and the content, the metadata of
    the request, and [direct-upload] and [Untitled Document] for a
    source and a title that the request leaves empty. *)
Theorem created_document_can_be_read :
  forall (uuid_Parse : gostring -> option UUID) (uuid_New : nat -> UUID)
         (sha256_hex : gostring -> gostring) (s : DocumentService) (w w1 : World)
         (req : IngestDocumentRequest) (resp : IngestDocumentResponse) (task : Task),
    IngestDocument uuid_Parse uuid_New sha256_hex s w req = (inr resp, w1, Some task) ->
    nonEmpty (DocumentId resp) = true ->
    uuid_Parse (DocumentId resp) = Some (DocumentId resp) ->
    exists tenantID,
      uuid_Parse (Request_TenantId req) = Some tenantID
      /\ Status_ resp = DOCUMENT_STATUS_PROCESSING
      /\ GetDocument uuid_Parse w1 (DocumentId resp)
         = inr {| Proto_Id := DocumentId resp;
                  Proto_TenantId := tenantID;
                  Proto_Source := if nonEmpty (Request_Source req)
                                  then Request_Source req else str "direct-upload";
                  Proto_Title := if nonEmpty (Request_Title req)
                                 then Request_Title req else str "Untitled Document";
                  Proto_ContentHash :=
                    sha256_hex (Request_Source req ++ nl ++ Request_Content req);
                  Proto_ChunkCount := 0;
                  Proto_Status := DOCUMENT_STATUS_PROCESSING;
                  Proto_ErrorMessage := [];
                  Proto_Metadata := Request_Metadata req |}.
Proof.
  intros uuid_Parse uuid_New sha256_hex s w w1 req resp task H Hne Hparse.
  unfold IngestDocument in H.
  destruct (nonEmpty (Request_TenantId req)); [|discriminate].
  destruct (nonEmpty (Request_Content req)); [|discriminate]. cbn [negb] in H.
  destruct (uuid_Parse (Request_TenantId req)) as [tenantID|]; [|discriminate].
  destruct (TenantRepo_GetByID w tenantID) as [tenant|]; [|discriminate].
  destruct (DocumentRepo_GetByHash w tenantID _); [discriminate|]. cbv zeta in H.
  match type of H with
  | context [DocumentRepo_Create ?w0 ?d] =>
      destruct (DocumentRepo_Create w0 d) as [w2|] eqn:Ec; [|discriminate];
      apply Create_documents in Ec as (Hfresh & Hdocs & _)
  end.
  injection H as <- <- _. cbn [DocumentId Status_] in *.
  exists tenantID. split; [reflexivity|]. split; [reflexivity|].
  unfold GetDocument. rewrite Hne, Hparse. cbn [negb].
  unfold DocumentRepo_GetByID. rewrite Hdocs.
  cbn [documents drawUUIDs Document_ID] in Hfresh |- *.
  rewrite DocumentFacts.find_app, (find_existsb_false _ _ Hfresh).
  cbn [List.find]. unfold sameDocument at 1. cbn [Document_ID].
  rewrite DocumentFacts.streq_refl. unfold documentToProto.
  cbn [Document_ID Document_TenantID Document_Source Document_Title
       Document_ContentHash Document_ChunkCount Document_Status
       Document_ErrorMessage Document_Metadata].
  reflexivity.
Qed.

Lemma created_document_can_be_read_witness :
  IngestDocument parseAny newID digestOf docService world0 directRequest
  = (inr (mkIngestDocumentResponse (str "doc-0") DOCUMENT_STATUS_PROCESSING),
     (IngestDocument parseAny newID digestOf docService world0 directRequest).1.2,
     Some (processDocumentTask
             (mkDocument (str "doc-0") tenantKey (str "guide/install.md") (str "Install")
                         (digestOf (str "guide/install.md" ++ nl ++ pageBody)) 0
                         (str "PROCESSING") [] ∅)
             pageBody (tenantWith false)))
  /\ exists tenantID,
      parseAny tenantKey = Some tenantID
      /\ DOCUMENT_STATUS_PROCESSING = DOCUMENT_STATUS_PROCESSING
      /\ GetDocument parseAny
           (IngestDocument parseAny newID digestOf docService world0 directRequest).1.2
           (str "doc-0")
         = inr {| Proto_Id := str "doc-0";
                  Proto_TenantId := tenantID;
                  Proto_Source := str "guide/install.md";
                  Proto_Title := str "Install";
                  Proto_ContentHash :=
                    digestOf (str "guide/install.md" ++ nl ++ pageBody);
                  Proto_ChunkCount := 0;
                  Proto_Status := DOCUMENT_STATUS_PROCESSING;
                  Proto_ErrorMessage := [];
                  Proto_Metadata := ∅ |}.
Proof.
  assert (E : IngestDocument parseAny newID digestOf docService world0 directRequest
              = (inr (mkIngestDocumentResponse (str "doc-0") DOCUMENT_STATUS_PROCESSING),
                 (IngestDocument parseAny newID digestOf docService world0
                    directRequest).1.2,
                 Some (processDocumentTask
                         (mkDocument (str "doc-0") tenantKey (str "guide/install.md")
                            (str "Install")
                            (digestOf (str "guide/install.md" ++ nl ++ pageBody)) 0
                            (str "PROCESSING") [] ∅)
                         pageBody (tenantWith false))))
    by (vm_compute; reflexivity).
  split; [exact E|].
  exact (created_document_can_be_read parseAny newID digestOf docService world0 _
           directRequest _ _ E eq_refl eq_refl).
Defined.

(** X16.  After a successful [DeleteDocument] the document cannot be
    read any more.  Its row and its chunk rows are gone, the other rows
    are as they were, and so are the tenants.  The points of the
    collection of the tenant whose payload names the document are gone
    as well, unless the vector store reported an error: the handler
    drops that error, answers with success and leaves every point in
    place. *)
Theorem DeleteDocument_removes_document :
  forall (uuid_Parse : gostring -> option UUID)
         (vectorDB_DeleteError : gostring -> gostring -> option string)
         (w w' : World) (id : gostring),
    DeleteDocument uuid_Parse vectorDB_DeleteError w id = (inr true, w') ->
    exists docID doc,
      uuid_Parse id = Some docID
      /\ DocumentRepo_GetByID w docID = Some doc
      /\ GetDocument uuid_Parse w' id = inl (NotFound, "document not found"%string)
      /\ documents w' = List.filter (fun d => negb (sameDocument docID d)) (documents w)
      /\ document_chunks w'
         = List.filter (fun c => negb (streq (DocumentChunk_DocumentID c) docID))
                       (document_chunks w)
      /\ points w'
         = match vectorDB_DeleteError (Document_TenantID doc) (Document_ID doc) with
           | Some _ => points w
           | None =>
               List.filter
                 (fun point =>
                    negb (selectedPoint (Document_TenantID doc) (Document_ID doc) point))
                 (points w)
           end
      /\ tenants w' = tenants w.
Proof.
  intros uuid_Parse delErr w w' id H. unfold DeleteDocument in H.
  destruct (nonEmpty id) eqn:Hne; [|discriminate]. cbn [negb] in H.
  destruct (uuid_Parse id) as [docID|] eqn:Hparse; [|discriminate].
  destruct (DocumentRepo_GetByID w docID) as [doc|] eqn:Hget; [|discriminate].
  cbv zeta in H.
  match type of H with
  | context [DocumentRepo_Delete ?w0 docID] =>
      destruct (DocumentRepo_Delete w0 docID) as [w2|] eqn:Ed; [|discriminate]
  end.
  injection H as <-. unfold DocumentRepo_Delete in Ed.
  destruct (existsb _ _); [|discriminate]. injection Ed as <-.
  exists docID, doc. split; [reflexivity|]. split; [exact Hget|].
  split; [|split; [|split; [|split]]].
  - unfold GetDocument. rewrite Hne, Hparse. cbn [negb].
    unfold DocumentRepo_GetByID. cbn [documents].
    destruct (delErr _ _); cbn [documents DocumentRepo_DeleteChunks deletePoints];
      rewrite find_filter_negb; reflexivity.
  - destruct (delErr _ _); reflexivity.
  - cbn [document_chunks].
    destruct (delErr _ _); cbn [document_chunks DocumentRepo_DeleteChunks deletePoints];
      apply filter_twice.
  - destruct (delErr _ _); reflexivity.
  - destruct (delErr _ _); reflexivity.
Qed.

Lemma DeleteDocument_removes_document_witness :
  DeleteDocument parseAny deleteFails worldAfterDirect (str "doc-0")
  = (inr true,
     (DeleteDocument parseAny deleteFails worldAfterDirect (str "doc-0")).2)
  /\ exists docID doc,
      parseAny (str "doc-0") = Some docID
      /\ DocumentRepo_GetByID worldAfterDirect docID = Some doc
      /\ GetDocument parseAny
           (DeleteDocument parseAny deleteFails worldAfterDirect (str "doc-0")).2
           (str "doc-0")
         = inl (NotFound, "document not found"%string)
      /\ documents (DeleteDocument parseAny deleteFails worldAfterDirect (str "doc-0")).2
         = List.filter (fun d => negb (sameDocument docID d)) (documents worldAfterDirect)
      /\ document_chunks
           (DeleteDocument parseAny deleteFails worldAfterDirect (str "doc-0")).2
         = List.filter (fun c => negb (streq (DocumentChunk_DocumentID c) docID))
                       (document_chunks worldAfterDirect)
      /\ points (DeleteDocument parseAny deleteFails worldAfterDirect (str "doc-0")).2
         = match deleteFails (Document_TenantID doc) (Document_ID doc) with
           | Some _ => points worldAfterDirect
           | None =>
               List.filter
                 (fun point =>
                    negb (selectedPoint (Document_TenantID doc) (Document_ID doc) point))
                 (points worldAfterDirect)
           end
      /\ tenants (DeleteDocument parseAny deleteFails worldAfterDirect (str "doc-0")).2
         = tenants worldAfterDirect.
Proof.
  assert (E : DeleteDocument parseAny deleteFails worldAfterDirect (str "doc-0")
              = (inr true,
                 (DeleteDocument parseAny deleteFails worldAfterDirect (str "doc-0")).2))
    by (vm_compute; reflexivity).
  split; [exact E|].
  exact (DeleteDocument_removes_document parseAny deleteFails worldAfterDirect _
           (str "doc-0") E).
Defined.

End DocumentAPIFacts.

(** ** The rows that the ingestion handlers create *)
Module IngestFacts.
Import GoLib Repository Service Documents Examples DocExamples.

Lemma Create_appends w doc w1 :
  DocumentRepo_Create w doc = Some w1 ->
  documents w1 = documents w ++ [doc]
  /\ tenants w1 = tenants w /\ document_chunks w1 = document_chunks w
  /\ points w1 = points w.
Proof.
  unfold DocumentRepo_Create. destruct (_ || _); [discriminate|].
  intros [= <-]. auto.
Qed.

Lemma Create_refused_by_hash w doc d :
  d ∈ documents w ->
  Document_TenantID d = Document_TenantID doc ->
  Document_ContentHash d = Document_ContentHash doc ->
  DocumentRepo_Create w doc = None.
Proof.
  intros Hd Ht Hh. unfold DocumentRepo_Create.
  replace (existsb (sameHash (Document_TenantID doc) (Document_ContentHash doc))
                   (documents w)) with true.
  { rewrite orb_true_r. reflexivity. }
  symmetry. apply existsb_exists. exists d. split; [apply list_elem_of_In, Hd|].
  unfold sameHash. rewrite Ht, Hh, !DocumentFacts.streq_refl. reflexivity.
Qed.

(** X17.  An ingestion handler touches nothing but the table of the
    documents, and adds one row to it exactly when it starts a
    goroutine: the goroutine gets that row, with the content or the URL
    of the request.  [IngestDocument] creates the row in the status
    PROCESSING and answers with its identifier; [IngestURL] creates it
    in the status PENDING, with the URL as source and with an empty
    content hash.  In every other case the rows are as they were. *)
Theorem ingestion_adds_the_row_of_its_goroutine :
  forall (uuid_Parse : gostring -> option UUID) (uuid_New : nat -> UUID)
         (sha256_hex : gostring -> gostring) (s : DocumentService) (w : World)
         (req : IngestDocumentRequest) (urlReq : IngestURLRequest),
    (let '(out, w1, task) := IngestDocument uuid_Parse uuid_New sha256_hex s w req in
     tenants w1 = tenants w /\ document_chunks w1 = document_chunks w
     /\ points w1 = points w
     /\ match task with
        | Some (processDocumentTask doc content tenant) =>
            documents w1 = documents w ++ [doc]
            /\ out = inr (mkIngestDocumentResponse (Document_ID doc)
                            DOCUMENT_STATUS_PROCESSING)
            /\ content = Request_Content req
            /\ Document_Status doc = str "PROCESSING"
        | Some (processURLTask _ _ _) => False
        | None => documents w1 = documents w
        end)
    /\ (let '(out, w1, task) := IngestURL uuid_Parse uuid_New s w urlReq in
        tenants w1 = tenants w /\ document_chunks w1 = document_chunks w
        /\ points w1 = points w
        /\ match task with
           | Some (processURLTask doc url tenant) =>
               documents w1 = documents w ++ [doc]
               /\ out = inr (mkIngestDocumentResponse (Document_ID doc)
                               DOCUMENT_STATUS_PENDING)
               /\ url = URLRequest_Url urlReq
               /\ Document_Source doc = url
               /\ Document_Status doc = str "PENDING"
               /\ Document_ContentHash doc = []
           | Some (processDocumentTask _ _ _) => False
           | None => documents w1 = documents w
           end).
Proof.
  intros uuid_Parse uuid_New sha256_hex s w req urlReq. split.
  - unfold IngestDocument.
    destruct (negb (nonEmpty (Request_TenantId req))); [auto|].
    destruct (negb (nonEmpty (Request_Content req))); [auto|].
    destruct (uuid_Parse (Request_TenantId req)) as [tenantID|]; [|auto].
    destruct (TenantRepo_GetByID w tenantID) as [tenant|]; [|auto].
    destruct (DocumentRepo_GetByHash w tenantID _); [auto|]. cbv zeta.
    match goal with
    | |- context [DocumentRepo_Create ?w0 ?d] =>
        destruct (DocumentRepo_Create w0 d) as [w2|] eqn:Ec
    end.
    + apply Create_appends in Ec as (Hd & Ht & Hc & Hp).
      rewrite Hd, Ht, Hc, Hp. cbn [drawUUIDs tenants documents document_chunks points
                                    Document_ID Document_Status]. auto 10.
    + cbn [drawUUIDs tenants documents document_chunks points]. auto.
  - unfold IngestURL.
    destruct (negb (nonEmpty (URLRequest_TenantId urlReq))); [auto|].
    destruct (negb (nonEmpty (URLRequest_Url urlReq))); [auto|].
    destruct (uuid_Parse (URLRequest_TenantId urlReq)) as [tenantID|]; [|auto].
    destruct (TenantRepo_GetByID w tenantID) as [tenant|]; [|auto]. cbv zeta.
    match goal with
    | |- context [DocumentRepo_Create ?w0 ?d] =>
        destruct (DocumentRepo_Create w0 d) as [w2|] eqn:Ec
    end.
    + apply Create_appends in Ec as (Hd & Ht & Hc & Hp).
      rewrite Hd, Ht, Hc, Hp. cbn [drawUUIDs tenants documents document_chunks points
                                    Document_ID Document_Status Document_Source
                                    Document_ContentHash]. auto 10.
    + cbn [drawUUIDs tenants documents document_chunks points]. auto.
Qed.

(** X18.  [IngestURL] creates its row with an empty content hash, and
    the rows of a tenant have distinct hashes.  While a document of the
    tenant has the empty hash (a URL document that is not fetched yet,
    or whose fetch has failed), every [IngestURL] for that tenant is
    refused: the handler answers with the code Internal, stores nothing
    and starts no goroutine. *)
Theorem IngestURL_refused_while_a_hash_is_empty :
  forall (uuid_Parse : gostring -> option UUID) (uuid_New : nat -> UUID)
         (s : DocumentService) (w : World) (req : IngestURLRequest)
         (tenantID : UUID) (tenant : Tenant) (d : Document),
    nonEmpty (URLRequest_TenantId req) = true ->
    nonEmpty (URLRequest_Url req) = true ->
    uuid_Parse (URLRequest_TenantId req) = Some tenantID ->
    TenantRepo_GetByID w tenantID = Some tenant ->
    d ∈ documents w ->
    Document_TenantID d = tenantID ->
    Document_ContentHash d = [] ->
    IngestURL uuid_Parse uuid_New s w req
    = (inl (Internal, "failed to create document"%string), drawUUIDs w 1, None)
    /\ documents (drawUUIDs w 1) = documents w.
Proof.
  intros uuid_Parse uuid_New s w req tenantID tenant d Hid Hurl Hparse Htenant Hd Ht Hh.
  split; [|reflexivity].
  unfold IngestURL. rewrite Hid, Hurl, Hparse, Htenant. cbn [negb]. cbv zeta.
  rewrite (Create_refused_by_hash _ _ d); [reflexivity | exact Hd | exact Ht | exact Hh].
Qed.

Lemma IngestURL_refused_while_a_hash_is_empty_witness :
  (exists d, d ∈ documents createdB
             /\ Document_TenantID d = tenantKey /\ Document_ContentHash d = []
             /\ Document_Source d = urlB /\ Document_Status d = str "PENDING")
  /\ IngestURL parseKey newID docService createdB (urlRequest urlA)
     = (inl (Internal, "failed to create document"%string), drawUUIDs createdB 1, None)
  /\ documents (drawUUIDs createdB 1) = documents createdB.
Proof.
  assert (Hd : docB ∈ documents createdB).
  { apply list_elem_of_In. vm_compute. right. left. reflexivity. }
  split.
  - exists docB. repeat split; try reflexivity. exact Hd.
  - exact (IngestURL_refused_while_a_hash_is_empty parseKey newID docService createdB
             (urlRequest urlA) tenantKey (tenantWith false) docB
             eq_refl eq_refl eq_refl eq_refl Hd eq_refl eq_refl).
Defined.

End IngestFacts.

(** ** What the processing of a document stores *)
Module ProcessingFacts.
Import GoLib Repository Service Documents DocumentAPI Spec.

Lemma Forall2_imap_l {A B} (P : B -> A -> Prop) (g : nat -> A -> B) (l : list A) :
  (forall i x, l !! i = Some x -> P (g i x) x) -> Forall2 P (imap g l) l.
Proof.
  revert g. induction l as [|x l IH]; intros g H; cbn [imap]; constructor.
  - apply (H 0%nat). reflexivity.
  - apply IH. intros i y Hy. apply (H (S i)). exact Hy.
Qed.

Lemma Forall_imap {A B} (P : B -> Prop) (g : nat -> A -> B) (l : list A) :
  (forall i x, l !! i = Some x -> P (g i x)) -> Forall P (imap g l).
Proof.
  revert g. induction l as [|x l IH]; intros g H; cbn [imap]; constructor.
  - apply (H 0%nat). reflexivity.
  - apply IH. intros i y Hy. apply (H (S i)). exact Hy.
Qed.

Lemma map_imap {A B C} (f : B -> C) (g : nat -> A -> B) (l : list A) :
  map f (imap g l) = imap (fun i x => f (g i x)) l.
Proof.
  revert g. induction l as [|x l IH]; intros g; cbn [imap map]; [reflexivity|].
  f_equal. apply IH.
Qed.

Lemma imap_const {A B} (f : A -> B) (l : list A) : imap (fun _ x => f x) l = map f l.
Proof. induction l as [|x l IH]; cbn [imap map]; [reflexivity|]. f_equal. exact IH. Qed.

Section Processing.
Variable unicodeLower : rune -> rune.
Variable uuid_New : nat -> UUID.
Variable sha256_hex : gostring -> gostring.

Lemma updateIgnoringError_frame w doc :
  tenants (updateIgnoringError w doc) = tenants w
  /\ document_chunks (updateIgnoringError w doc) = document_chunks w
  /\ points (updateIgnoringError w doc) = points w
  /\ uuids (updateIgnoringError w doc) = uuids w
  /\ map Document_ID (documents (updateIgnoringError w doc))
     = map Document_ID (documents w).
Proof.
  unfold updateIgnoringError, DocumentRepo_Update.
  destruct (List.find _ _); [|cbn; auto].
  destruct (existsb _ _); cbn; [auto|].
  repeat split. rewrite map_map. apply map_ext. intros row.
  destruct (sameDocument (Document_ID doc) row); reflexivity.
Qed.

Lemma markDocumentFailed_frame w doc message :
  tenants (markDocumentFailed w doc message) = tenants w
  /\ document_chunks (markDocumentFailed w doc message) = document_chunks w
  /\ points (markDocumentFailed w doc message) = points w
  /\ uuids (markDocumentFailed w doc message) = uuids w
  /\ map Document_ID (documents (markDocumentFailed w doc message))
     = map Document_ID (documents w).
Proof. unfold markDocumentFailed. apply updateIgnoringError_frame. Qed.

End Processing.


(** [ProcessWithMetadata] comes to an end, with an error for a blank
    content and with the chunks of the chunker otherwise. *)
Lemma ProcessWithMetadata_total (unicodeLower : rune -> rune) (uuid_New : nat -> UUID)
    (sha256_hex : gostring -> gostring) (chunkerConfig : ChunkerConfig)
    (defaults metadata : gmap gostring gostring) (w : World) (content : gostring) :
  match ProcessWithMetadata unicodeLower uuid_New sha256_hex chunkerConfig defaults w
                            content metadata with
  | Some (inl err, w') =>
      strings_TrimSpace content = [] /\ w' = w
      /\ err = "content cannot be empty"%string
  | Some (inr chunks, w') =>
      strings_TrimSpace content <> [] /\ w' = drawUUIDs w 1
      /\ exists raw,
           Ingestion.Chunker_Chunk unicodeLower (Ingestion.NewChunker chunkerConfig)
                                   (strings_TrimSpace content) = Some raw
           /\ denseFrom 0 raw
           /\ chunks = map (mergeMetadata defaults metadata (uuid_New (uuids w))
                              (sha256_hex (strings_TrimSpace content))) raw
  | None => False
  end.
Proof.
  unfold ProcessWithMetadata.
  destruct (nonEmpty (strings_TrimSpace content)) eqn:Hne; cbn [negb].
  2:{ destruct (strings_TrimSpace content); [auto | discriminate]. }
  cbv zeta.
  destruct (ChunkerFacts.Chunker_Chunk_spec unicodeLower
              (Ingestion.NewChunker chunkerConfig)
              (strings_TrimSpace content) (ChunkerFacts.NewChunker_target chunkerConfig))
    as (raw & -> & _ & Hdense).
  split; [intros E; rewrite E in Hne; discriminate|]. split; [reflexivity|].
  exists raw. auto.
Qed.


(** X20.  [processDocument] always comes to an end.  It leaves the
    tenants and the identifiers of the documents as they are, and adds
    chunk rows and points only: the chunk rows belong to the document
    and are numbered from 0; points are added only together with their
    chunk rows, one point for each row, in the collection of the tenant
    of the document, made from the row and from the document.  (Chunk
    rows can be added without points: the embedding or the vector store
    has failed.) *)
Theorem processDocument_adds_points_with_their_rows :
  forall (unicodeLower : rune -> rune) (uuid_New : nat -> UUID)
         (sha256_hex : gostring -> gostring) (s : DocumentService) (w : World)
         (doc : Document) (content : gostring) (tenant : Tenant),
  exists w',
    processDocument unicodeLower uuid_New sha256_hex s w doc content tenant = Some w'
    /\ tenants w' = tenants w
    /\ map Document_ID (documents w') = map Document_ID (documents w)
    /\ exists rows vectors,
         document_chunks w' = document_chunks w ++ rows
         /\ points w'
            = points w
              ++ map (fun c => (Vectorstore.collectionName (Document_TenantID doc), c))
                     vectors
         /\ Forall (fun r => DocumentChunk_DocumentID r = Document_ID doc) rows
         /\ map DocumentChunk_ChunkIndex rows = map Z.of_nat (seq 0 (length rows))
         /\ (vectors = []
             \/ Forall2 (fun v r => exists embedding, v = vectorChunk doc embedding r)
                        vectors rows).
Proof.
  intros unicodeLower uuid_New sha256_hex s w doc content tenant.
  unfold processDocument.
  set (doc1 := withStatus doc (str "PROCESSING")).
  pose proof (updateIgnoringError_frame w doc1) as (Ht1 & Hc1 & Hp1 & Hu1 & Hd1).
  set (w1 := updateIgnoringError w doc1) in *. clearbody w1.
  cbv zeta.
  assert (Hnone : forall w2 message,
            tenants w2 = tenants w -> document_chunks w2 = document_chunks w ->
            points w2 = points w ->
            map Document_ID (documents w2) = map Document_ID (documents w) ->
            tenants (markDocumentFailed w2 doc1 message) = tenants w
            /\ map Document_ID (documents (markDocumentFailed w2 doc1 message))
               = map Document_ID (documents w)
            /\ exists rows vectors,
                 document_chunks (markDocumentFailed w2 doc1 message)
                 = document_chunks w ++ rows
                 /\ points (markDocumentFailed w2 doc1 message)
                    = points w
                      ++ map (fun c => (Vectorstore.collectionName (Document_TenantID doc),
                                        c)) vectors
                 /\ Forall (fun r => DocumentChunk_DocumentID r = Document_ID doc) rows
                 /\ map DocumentChunk_ChunkIndex rows = map Z.of_nat (seq 0 (length rows))
                 /\ (vectors = []
                     \/ Forall2 (fun v r => exists embedding,
                                   v = vectorChunk doc embedding r) vectors rows)).
  { intros w2 message Ht Hc Hp Hd.
    pose proof (markDocumentFailed_frame w2 doc1 message) as (Ht' & Hc' & Hp' & _ & Hd').
    split; [congruence|]. split; [congruence|].
    exists [], []. rewrite !app_nil_r. cbn [map length seq].
    split; [congruence|]. split; [congruence|]. auto. }
  pose proof (ProcessWithMetadata_total unicodeLower uuid_New sha256_hex
                (Chunker (Tenant_Config tenant))
                (list_to_map [ (str "source", Document_Source doc1);
                               (str "title", Document_Title doc1) ])
                (Document_Metadata doc1) w1 content) as Hpipe.
  destruct (ProcessWithMetadata _ _ _ _ _ _ _ _) as [[[err|chunks] w2]|];
    [| |contradiction].
  { destruct Hpipe as (_ & -> & _). eexists. split; [reflexivity|].
    apply Hnone; assumption. }
  destruct Hpipe as (_ & -> & raw & Hraw & Hdense & Hchunks).
  set (rows := ChunksToDocumentChunks uuid_New (uuids (drawUUIDs w1 1)) chunks
                                      (Document_ID doc1)).
  assert (Hrows : Forall (fun r => DocumentChunk_DocumentID r = Document_ID doc) rows).
  { apply Forall_imap. intros i x _. reflexivity. }
  assert (Hidx : map DocumentChunk_ChunkIndex rows = map Z.of_nat (seq 0 (length rows))).
  { apply ChunkerFacts.denseFrom_indices in Hdense.
    subst rows. unfold ChunksToDocumentChunks.
    rewrite length_imap, map_imap. cbn [DocumentChunk_ChunkIndex].
    rewrite imap_const, Hchunks, map_map, length_map. cbn [mergeMetadata Ingestion.Index].
    exact Hdense. }
  destruct (DocumentRepo_CreateChunks _ rows) as [w3|] eqn:Ec.
  2:{ eexists. split; [reflexivity|]. apply Hnone; assumption. }
  unfold DocumentRepo_CreateChunks in Ec.
  destruct (forallb _ _); [|discriminate]. injection Ec as <-.
  destruct (embedder_EmbedBatch s _) as [|embeddings].
  { eexists. split; [reflexivity|].
    match goal with
    | |- context [markDocumentFailed ?w0 doc1 ?m] =>
        pose proof (markDocumentFailed_frame w0 doc1 m) as (Ht' & Hc' & Hp' & _ & Hd')
    end.
    cbn [tenants documents document_chunks points drawUUIDs] in Ht', Hc', Hp', Hd'.
    split; [congruence|]. split; [congruence|].
    exists rows, []. rewrite app_nil_r. cbn [map].
    split; [congruence|]. split; [congruence|]. auto. }
  set (vectors := imap (fun i chunk => vectorChunk doc1 (default [] (embeddings !! i)) chunk)
                       rows).
  assert (Hvec : Forall2 (fun v r => exists embedding, v = vectorChunk doc embedding r)
                         vectors rows).
  { apply Forall2_imap_l. intros i r _. eexists. reflexivity. }
  destruct (vectorDB_UpsertError s _ vectors).
  { eexists. split; [reflexivity|].
    match goal with
    | |- context [markDocumentFailed ?w0 doc1 ?m] =>
        pose proof (markDocumentFailed_frame w0 doc1 m) as (Ht' & Hc' & Hp' & _ & Hd')
    end.
    cbn [tenants documents document_chunks points drawUUIDs] in Ht', Hc', Hp', Hd'.
    split; [congruence|]. split; [congruence|].
    exists rows, []. rewrite app_nil_r. cbn [map].
    split; [congruence|]. split; [congruence|]. auto. }
  eexists. split; [reflexivity|].
  match goal with
  | |- context [updateIgnoringError ?w0 ?d] =>
      pose proof (updateIgnoringError_frame w0 d) as (Ht' & Hc' & Hp' & _ & Hd')
  end.
  cbn [tenants documents document_chunks points drawUUIDs upsertPoints
       Document_TenantID] in Ht', Hc', Hp', Hd'.
  split; [congruence|]. split; [congruence|].
  exists rows, vectors.
  split; [congruence|]. split; [rewrite Hp', Hp1; reflexivity|]. auto.
Qed.

(** X21.  What a search returns for a point that [processDocument] has
    made from a chunk row: the identifier of the row, the identifier of
    the document, and the title and the source of the document in the
    metadata and in the source of the answer, whatever the metadata of
    the row say.  The content is the content of the row, unless the
    metadata of the row have a key [content], which is returned in its
    place.  [DeleteDocument] selects the point by the identifier of the
    document. *)
Theorem search_result_of_processed_chunk :
  forall (doc : Document) (embedding : list float) (row : DocumentChunk) (score : float),
    let chunk := vectorChunk doc embedding row in
    let result := Vectorstore.pointToResult (Qdrant.storedPoint chunk score) in
    Vectorstore.ID result = DocumentChunk_ID row
    /\ Vectorstore.DocumentID result = Document_ID doc
    /\ Vectorstore.Content result
       = default (DocumentChunk_Content row) (DocumentChunk_Metadata row !! str "content")
    /\ Chunk_Title (resultToSource result) = Document_Title doc
    /\ Chunk_Source (resultToSource result) = Document_Source doc
    /\ selectedPoint (Document_TenantID doc) (Document_ID doc)
         (Vectorstore.collectionName (Document_TenantID doc), chunk) = true.
Proof.
  intros doc embedding row score chunk result.
  assert (Hds : str "document_id" <> str "source") by (vm_compute; discriminate).
  assert (Hdt : str "document_id" <> str "title") by (vm_compute; discriminate).
  assert (Hcs : str "content" <> str "source") by (vm_compute; discriminate).
  assert (Hct : str "content" <> str "title") by (vm_compute; discriminate).
  assert (Hcd : str "content" <> str "document_id") by (vm_compute; discriminate).
  assert (Hts : str "title" <> str "source") by (vm_compute; discriminate).
  assert (Hpayload : Qdrant.upsertPayload chunk !! str "document_id"
                     = Some (Document_ID doc)).
  { unfold Qdrant.upsertPayload, chunk, vectorChunk.
    cbn [Vectorstore.Chunk_Metadata Vectorstore.Chunk_DocumentID
         Vectorstore.Chunk_Content].
    rewrite lookup_union.
    rewrite lookup_insert_ne by congruence. rewrite lookup_insert_ne by congruence.
    rewrite lookup_insert_eq. rewrite lookup_insert_eq. reflexivity. }
  split; [reflexivity|]. split; [|split; [|split; [|split]]].
  - subst result. unfold Vectorstore.pointToResult, Qdrant.storedPoint.
    cbn [Vectorstore.Point_Payload Vectorstore.DocumentID]. rewrite Hpayload. reflexivity.
  - subst result. unfold Vectorstore.pointToResult, Qdrant.storedPoint.
    cbn [Vectorstore.Point_Payload Vectorstore.Content].
    unfold Qdrant.upsertPayload, chunk, vectorChunk.
    cbn [Vectorstore.Chunk_Metadata Vectorstore.Chunk_DocumentID
         Vectorstore.Chunk_Content].
    rewrite lookup_union.
    rewrite !lookup_insert_ne by congruence. rewrite lookup_insert_eq.
    destruct (DocumentChunk_Metadata row !! str "content"); reflexivity.
  - subst result. unfold resultToSource, Vectorstore.pointToResult, Qdrant.storedPoint.
    cbn [Vectorstore.Point_Payload Vectorstore.Metadata Chunk_Title].
    rewrite !lookup_delete_ne by congruence.
    unfold Qdrant.upsertPayload, chunk, vectorChunk.
    cbn [Vectorstore.Chunk_Metadata Vectorstore.Chunk_DocumentID
         Vectorstore.Chunk_Content].
    rewrite lookup_union.
    rewrite lookup_insert_ne by congruence. rewrite lookup_insert_eq. reflexivity.
  - subst result. unfold resultToSource, Vectorstore.pointToResult, Qdrant.storedPoint.
    cbn [Vectorstore.Point_Payload Vectorstore.Metadata Chunk_Source].
    rewrite !lookup_delete_ne by congruence.
    unfold Qdrant.upsertPayload, chunk, vectorChunk.
    cbn [Vectorstore.Chunk_Metadata Vectorstore.Chunk_DocumentID
         Vectorstore.Chunk_Content].
    rewrite lookup_union. rewrite lookup_insert_eq. reflexivity.
  - unfold selectedPoint. cbn [fst snd]. rewrite DocumentFacts.streq_refl, Hpayload.
    cbn [andb]. apply bool_decide_eq_true. reflexivity.
Qed.

End ProcessingFacts.

(** ** Retrieval without generation *)
Module RetrieveFacts.
Import GoLib Repository Service Retrieval Examples.

Lemma filter_sublist {A} (P : A -> bool) (l : list A) : List.filter P l `sublist_of` l.
Proof.
  induction l as [|x l IH]; cbn [List.filter]; [constructor|].
  destruct (P x); [apply sublist_skip | apply sublist_cons]; exact IH.
Qed.

Lemma sublist_map {A B} (f : A -> B) (l1 l2 : list A) :
  l1 `sublist_of` l2 -> map f l1 `sublist_of` map f l2.
Proof. intros H. induction H; cbn [map]; constructor; assumption. Qed.

(** X22.  When [Retrieve] answers, it has searched the collection of
    the tenant once, with the top_k and the minimum score of the
    request where these are positive and with those of the tenant
    otherwise (there is no default of its own).  Its chunks are results
    of that search, in the order of the search, without deduplication
    or reranking: all of them when the request names no document, and
    otherwise exactly those of the documents that the request names.
    The metadata count the chunks returned. *)
Theorem Retrieve_returns_results_of_named_documents :
  forall (uuid_Parse : gostring -> option UUID) (s : RAGService)
         (req : RetrieveRequest) (resp : RetrieveResponse),
    Retrieve uuid_Parse s req = inr resp ->
    let documentIds := match Retrieve_Options req with
                       | Some options => Retrieve_DocumentIds options
                       | None => []
                       end in
    exists tenantID tenant queryVector searchResults,
      uuid_Parse (Retrieve_TenantId req) = Some tenantID
      /\ tenantRepo_GetByID s tenantID = inr tenant
      /\ embedder_Embed s (Retrieve_Query req) = inr queryVector
      /\ Vectorstore.Search (vectorDB s) tenantID queryVector
           (match Retrieve_Options req with
            | Some options => if Retrieve_TopK options >? 0 then Retrieve_TopK options
                              else TopK (Tenant_Config tenant)
            | None => TopK (Tenant_Config tenant)
            end)
           (match Retrieve_Options req with
            | Some options => if PrimFloat.ltb 0 (Retrieve_MinScore options)
                              then Retrieve_MinScore options
                              else MinScore (Tenant_Config tenant)
            | None => MinScore (Tenant_Config tenant)
            end)
         = inr searchResults
      /\ Chunks resp `sublist_of` map resultToSource searchResults
      /\ (forall result,
            result ∈ searchResults ->
            documentIds = [] \/ Vectorstore.DocumentID result ∈ documentIds ->
            resultToSource result ∈ Chunks resp)
      /\ Forall (fun chunk => documentIds = [] \/ Chunk_DocumentId chunk ∈ documentIds)
                (Chunks resp)
      /\ Retrieve_ChunksRetrieved resp = len (Chunks resp).
Proof.
  intros uuid_Parse s req resp H documentIds. unfold Retrieve in H.
  destruct (negb (nonEmpty (Retrieve_TenantId req))); [discriminate|].
  destruct (negb (nonEmpty (Retrieve_Query req))); [discriminate|].
  destruct (uuid_Parse (Retrieve_TenantId req)) as [tenantID|] eqn:Ep; [|discriminate].
  destruct (tenantRepo_GetByID s tenantID) as [|tenant] eqn:Et; [discriminate|].
  cbv zeta in H.
  destruct (embedder_Embed s (Retrieve_Query req)) as [|queryVector] eqn:Ee;
    [discriminate|].
  destruct (Vectorstore.Search _ _ _ _ _) as [|searchResults] eqn:Es; [discriminate|].
  injection H as <-. cbn [Chunks Retrieve_ChunksRetrieved].
  exists tenantID, tenant, queryVector, searchResults.
  split; [first [reflexivity | exact Ep]|]. split; [first [reflexivity | exact Et]|].
  split; [first [reflexivity | exact Ee]|].
  split; [exact Es|].
  destruct (Retrieve_Options req) as [options|]; cbn in documentIds; subst documentIds.
  - destruct (len (Retrieve_DocumentIds options) >? 0) eqn:El.
    + assert (Hne : Retrieve_DocumentIds options <> []).
      { intros E. rewrite E in El. discriminate. }
      split; [apply sublist_map, filter_sublist|]. split; [|split; [|reflexivity]].
      * intros result Hin [E|Hdoc]; [contradiction|].
        apply list_elem_of_In, in_map, filter_In. split; [apply list_elem_of_In, Hin|].
        apply bool_decide_eq_true. exact Hdoc.
      * apply Forall_forall. intros chunk Hin.
        apply list_elem_of_In, in_map_iff in Hin as (result & <- & Hin).
        apply filter_In in Hin as [_ Hdoc]. apply bool_decide_eq_true in Hdoc.
        right. exact Hdoc.
    + assert (He : Retrieve_DocumentIds options = []).
      { destruct (Retrieve_DocumentIds options); [reflexivity|].
        rewrite Z.gtb_ltb in El. apply Z.ltb_ge in El. unfold len in El.
        cbn [length] in El. lia. }
      split; [reflexivity|]. split; [|split; [|reflexivity]].
      * intros result Hin _. apply list_elem_of_In, in_map, list_elem_of_In, Hin.
      * apply Forall_forall. intros chunk _. left. exact He.
  - split; [reflexivity|]. split; [|split; [|reflexivity]].
    + intros result Hin _. apply list_elem_of_In, in_map, list_elem_of_In, Hin.
    + apply Forall_forall. intros chunk _. left. reflexivity.
Qed.

Lemma Retrieve_returns_results_of_named_documents_witness :
  map Chunk_ChunkId
    (match Retrieve parseKey (serviceWith None false [])
             (mkRetrieveRequest tenantKey (str "How do I install the server?")
                (Some (mkRetrieveOptions 2 0%float [str "d2"]))) with
     | inr resp => Chunks resp
     | inl _ => []
     end) = [str "c2"]
  /\ exists resp,
       Retrieve parseKey (serviceWith None false [])
         (mkRetrieveRequest tenantKey (str "How do I install the server?")
            (Some (mkRetrieveOptions 2 0%float [str "d2"]))) = inr resp
       /\ Forall (fun chunk => [str "d2"] = [] \/ Chunk_DocumentId chunk ∈ [str "d2"])
                 (Chunks resp)
       /\ Retrieve_ChunksRetrieved resp = len (Chunks resp).
Proof.
  split; [vm_compute; reflexivity|].
  destruct (Retrieve parseKey (serviceWith None false [])
              (mkRetrieveRequest tenantKey (str "How do I install the server?")
                 (Some (mkRetrieveOptions 2 0%float [str "d2"]))))
    as [err|resp] eqn:E; [vm_compute in E; discriminate|].
  exists resp. split; [reflexivity|].
  destruct (Retrieve_returns_results_of_named_documents parseKey _ _ resp E)
    as (_ & _ & _ & _ & _ & _ & _ & _ & _ & _ & Hall & Hcount).
  split; [exact Hall | exact Hcount].
Defined.

End RetrieveFacts.

(** ** The end of a streamed answer *)
Module StreamFacts.
Import GoLib Repository Service StreamSpec.

Lemma Send_cases stream event :
  (exists err, Send stream event = (Some err, stream))
  \/ Send stream event = (None, mkStream (sent stream ++ [event]) (sendError stream)).
Proof. unfold Send. destruct (sendError stream _); eauto. Qed.

Lemma sendSources_events searchResults : forall stream,
  exists sources,
    Forall (fun e => isSourceOrToken e = true) sources
    /\ answerOf sources = []
    /\ sent (sendSources stream searchResults).2 = sent stream ++ sources
    /\ sendError (sendSources stream searchResults).2 = sendError stream.
Proof.
  induction searchResults as [|r rest IH]; intros stream; cbn [sendSources].
  - exists []. rewrite app_nil_r. auto.
  - destruct (Send_cases stream (Event_Source (resultToSource r))) as [[err ->] | ->].
    + exists []. rewrite app_nil_r. auto.
    + destruct (IH (mkStream (sent stream ++ [Event_Source (resultToSource r)])
                             (sendError stream))) as (sources & Hall & Hans & Hsent & Herr).
      exists (Event_Source (resultToSource r) :: sources).
      split; [constructor; [reflexivity | exact Hall]|].
      split; [exact Hans|].
      rewrite Hsent, Herr. cbn [sent sendError]. rewrite <- app_assoc. auto.
Qed.

Lemma answerOf_app events more : answerOf (events ++ more) = answerOf events ++ answerOf more.
Proof. unfold answerOf. rewrite map_app, concat_app. reflexivity. Qed.

Lemma answerOf_tokens tokens : answerOf (map Event_Token tokens) = concat tokens.
Proof. unfold answerOf. rewrite map_map, map_id. reflexivity. Qed.

Lemma streamTokens_events tokenChan : forall stream fullResponse,
  exists tokens,
    sendError (streamTokens tokenChan stream fullResponse).2 = sendError stream
    /\ match (streamTokens tokenChan stream fullResponse).1 with
       | Drained fullResponse' =>
           sent (streamTokens tokenChan stream fullResponse).2
           = sent stream ++ map Event_Token tokens
           /\ fullResponse' = fullResponse ++ concat tokens
       | Returned None =>
           exists message,
             sent (streamTokens tokenChan stream fullResponse).2
             = sent stream ++ map Event_Token tokens
               ++ [Event_Error "generation_error" message]
       | Returned (Some _) =>
           sent (streamTokens tokenChan stream fullResponse).2
           = sent stream ++ map Event_Token tokens
       end.
Proof.
  induction tokenChan as [|chunk rest IH]; intros stream fullResponse;
    cbn [streamTokens].
  - exists []. cbn. rewrite !app_nil_r. auto.
  - destruct (Llm.Error chunk) as [message|].
    + destruct (Send_cases stream (Event_Error "generation_error" message))
        as [[err ->] | ->].
      * exists []. cbn. rewrite app_nil_r. auto.
      * exists []. cbn. eauto.
    + destruct (nonEmpty (Llm.Token chunk)); [|apply IH].
      destruct (Send_cases stream (Event_Token (Llm.Token chunk))) as [[err ->] | ->].
      * exists []. cbn. rewrite app_nil_r. auto.
      * destruct (IH (mkStream (sent stream ++ [Event_Token (Llm.Token chunk)])
                               (sendError stream)) (fullResponse ++ Llm.Token chunk))
          as (tokens & Herr & Hloop).
        exists (Llm.Token chunk :: tokens). split; [exact Herr|].
        destruct (streamTokens rest _ _) as [[full'|[e|]] stream']; cbn [fst snd] in *.
        -- destruct Hloop as [-> ->]. cbn [sent map concat].
           rewrite <- !app_assoc. auto.
        -- rewrite Hloop. cbn [sent map]. rewrite <- !app_assoc. reflexivity.
        -- destruct Hloop as [m ->]. exists m. cbn [sent map].
           rewrite <- !app_assoc. reflexivity.
Qed.

Lemma last_plain (events : list QueryStreamResponse) event :
  Forall (fun e => isSourceOrToken e = true) events ->
  last events = Some event -> isSourceOrToken event = true.
Proof.
  intros Hall Hlast. apply last_Some in Hlast as [l' ->].
  apply Forall_app in Hall as [_ Hall]. inversion Hall; assumption.
Qed.

Lemma tokens_plain tokens :
  Forall (fun e => isSourceOrToken e = true) (map Event_Token tokens).
Proof. apply Forall_forall. intros e He. apply list_elem_of_fmap in He as (t & -> & _). reflexivity. Qed.

Section Ends.
Variable memory : Memory.Store.
Variable req : QueryRequest.

(** How a run that has sent the events [new] has ended. *)
Local Abbreviation ended err memory' new :=
  (match last new with
   | Some (Event_Metadata _) =>
       err = None
       /\ memory' = (if nonEmpty (SessionId req)
                     then Memory.AddAssistantMessage
                            (Memory.AddUserMessage memory (SessionId req) (Query_ req))
                            (SessionId req) (answerOf new)
                     else memory)
   | Some (Event_Error _ _) =>
       err = None
       /\ memory' = (if nonEmpty (SessionId req)
                     then Memory.AddUserMessage memory (SessionId req) (Query_ req)
                     else memory)
   | _ => err <> None
   end).

Lemma ended_plain (err : option HandlerError) (memory' : Memory.Store) new :
  Forall (fun e => isSourceOrToken e = true) new -> err <> None ->
  ended err memory' new.
Proof.
  intros Hall Herr. destruct (last new) as [event|] eqn:E; [|exact Herr].
  apply (last_plain _ _ Hall) in E. destruct event; try discriminate; exact Herr.
Qed.

Lemma QueryStream_ended unicodeLower uuid_Parse s stream :
  let out := QueryStream unicodeLower uuid_Parse s memory req stream in
  exists new, sent out.1.2 = sent stream ++ new /\ ended out.1.1 out.2 new.
Proof.
  intros out. subst out. unfold QueryStream.
  destruct (resolveTenant uuid_Parse s req) as [err|[tenantID tenant]].
  { exists []. cbn [fst snd]. rewrite app_nil_r. split; [reflexivity | discriminate]. }
  destruct (retrieve unicodeLower s tenant tenantID (Query_ req) _)
    as [err|searchResults].
  { exists []. cbn [fst snd]. rewrite app_nil_r. split; [reflexivity | discriminate]. }
  destruct (sendSources_events searchResults stream)
    as (sources & Hplain & Hanswer & Hsent & Herr).
  destruct (sendSources stream searchResults) as [[err|] stream1]; cbn [fst snd] in *.
  { exists sources. split; [exact Hsent|]. apply ended_plain; [exact Hplain | discriminate]. }
  assert (Hhistory : (loadHistory memory req).2
                     = if nonEmpty (SessionId req)
                       then Memory.AddUserMessage memory (SessionId req) (Query_ req)
                       else memory).
  { unfold loadHistory. destruct (nonEmpty (SessionId req)); reflexivity. }
  destruct (loadHistory memory req) as [history memory1]. cbn [snd] in Hhistory.
  destruct (Llm.GenerateStream _ _ _) as [|tokenChan].
  { exists sources. split; [exact Hsent|]. apply ended_plain; [exact Hplain | discriminate]. }
  destruct (streamTokens_events tokenChan stream1 []) as (tokens & Herr2 & Hloop).
  destruct (streamTokens tokenChan stream1 []) as [[fullResponse|[err|]] stream2];
    cbn [fst snd] in *.
  - destruct Hloop as [Hsent2 ->]. cbn [app].
    match goal with
    | |- context [Send stream2 ?event] =>
        destruct (Send_cases stream2 event) as [[err ->] | ->]
    end; cbn [fst snd sent].
    + exists (sources ++ map Event_Token tokens).
      split; [rewrite Hsent2, Hsent, <- app_assoc; reflexivity|].
      apply ended_plain; [|discriminate].
      apply Forall_app. split; [exact Hplain | apply tokens_plain].
    + eexists (sources ++ map Event_Token tokens ++ [Event_Metadata _]).
      split; [rewrite Hsent2, Hsent, <- !app_assoc; reflexivity|].
      rewrite !app_assoc, last_snoc. split; [reflexivity|].
      rewrite !answerOf_app, Hanswer, answerOf_tokens. cbn [app]. rewrite app_nil_r.
      rewrite Hhistory. destruct (nonEmpty (SessionId req)); reflexivity.
  - exists (sources ++ map Event_Token tokens).
    split; [rewrite Hloop, Hsent, <- app_assoc; reflexivity|].
    apply ended_plain; [|discriminate].
    apply Forall_app. split; [exact Hplain | apply tokens_plain].
  - destruct Hloop as [message Hsent2].
    exists (sources ++ map Event_Token tokens ++ [Event_Error "generation_error" message]).
    split; [rewrite Hsent2, Hsent, <- !app_assoc; reflexivity|].
    rewrite !app_assoc, last_snoc. split; [reflexivity | exact Hhistory].
Qed.

End Ends.

(** X23.  [QueryStream] only adds events to the stream.  It returns
    without an error exactly when the last event that it has added is
    the metadata event or an error event of the generation.  With the
    metadata event, a session of the request has the question and then
    the answer added, and the answer is the text of the token events of
    the stream, in their order.  With the error event, the session has
    the question added and no answer, whatever tokens have been sent
    before. *)
Theorem QueryStream_ends_with_metadata_or_error :
  forall (unicodeLower : rune -> rune) (uuid_Parse : gostring -> option UUID)
         (s : RAGService) (memory : Memory.Store) (req : QueryRequest)
         (stream : ServerStream),
    let out := QueryStream unicodeLower uuid_Parse s memory req stream in
    let new := drop (length (sent stream)) (sent out.1.2) in
    let asked := Memory.AddUserMessage memory (SessionId req) (Query_ req) in
    sent out.1.2 = sent stream ++ new
    /\ match last new with
       | Some (Event_Metadata _) =>
           out.1.1 = None
           /\ out.2 = (if nonEmpty (SessionId req)
                       then Memory.AddAssistantMessage asked (SessionId req)
                                                       (answerOf new)
                       else memory)
       | Some (Event_Error _ _) =>
           out.1.1 = None
           /\ out.2 = (if nonEmpty (SessionId req) then asked else memory)
       | _ => out.1.1 <> None
       end.
Proof.
  intros unicodeLower uuid_Parse s memory req stream out new asked.
  destruct (QueryStream_ended memory req unicodeLower uuid_Parse s stream)
    as (new' & Hsent & Hended).
  fold out in Hsent, Hended.
  assert (Hnew : new = new').
  { subst new. rewrite Hsent. apply drop_app_length. }
  rewrite Hnew. split; [exact Hsent | exact Hended].
Qed.

End StreamFacts.

(** ** The windows of the fixed strategy *)
Module FixedChunkFacts.
Import GoLib Repository Ingestion Spec.

(** A word as [strings.Fields] gives it: not empty, without white
    space. *)
Local Abbreviation isWord :=
  (fun w : gostring => w <> [] /\ Forall (fun r => unicode_IsSpace r = false) w).

Lemma fieldsFrom_word w : forall cur s,
  Forall (fun r => unicode_IsSpace r = false) w ->
  fieldsFrom cur (w ++ s) = fieldsFrom (rev w ++ cur) s.
Proof.
  induction w as [|r w IH]; intros cur s Hw; [reflexivity|].
  apply Forall_cons in Hw as [Hr Hw]. cbn [app fieldsFrom]. rewrite Hr.
  rewrite IH by exact Hw. cbn [rev]. rewrite <- app_assoc. reflexivity.
Qed.

Lemma Fields_Join ws :
  Forall isWord ws -> strings_Fields (strings_Join ws space) = ws.
Proof.
  unfold strings_Fields. induction ws as [|w ws IH]; intros Hws; [reflexivity|].
  apply Forall_cons in Hws as [[Hne Hw] Hws]. cbn [strings_Join].
  destruct ws as [|w2 ws].
  - rewrite <- (app_nil_r w). rewrite fieldsFrom_word by exact Hw.
    rewrite !app_nil_r. cbn [fieldsFrom].
    destruct (rev w) eqn:E; [|rewrite <- E, rev_involutive; reflexivity].
    apply (f_equal (@rev _)) in E. rewrite rev_involutive in E. contradiction.
  - rewrite fieldsFrom_word by exact Hw. rewrite app_nil_r.
    unfold space. cbn [app fieldsFrom]. change (unicode_IsSpace 32) with true.
    cbv iota.
    destruct (rev w) eqn:E.
    { apply (f_equal (@rev _)) in E. rewrite rev_involutive in E. contradiction. }
    rewrite <- E, rev_involutive. f_equal. apply IH, Hws.
Qed.

Lemma Fields_words s : Forall isWord (strings_Fields s).
Proof.
  pose proof (GoLibFacts.Fields_nonempty s) as Hne.
  apply Forall_forall. intros w Hw. split.
  - rewrite Forall_forall in Hne. apply Hne, Hw.
  - apply (SimilarityFacts.fieldsFrom_no_space [] s w); [constructor | exact Hw].
Qed.

Lemma NewChunker_overlap config : 0 <= Overlap (Ingestion.config (NewChunker config)).
Proof.
  unfold NewChunker.
  repeat match goal with
         | |- context [if ?b then _ else _] => destruct b eqn:?
         end; cbn [Ingestion.config Overlap TargetSize MaxSize Method] in *; lia.
Qed.

Lemma windowStep_le target overlap :
  0 < target -> 0 <= overlap ->
  1 <= windowStep target overlap <= target
  /\ (overlap = 0 -> windowStep target overlap = target).
Proof.
  intros Ht Ho. unfold windowStep.
  destruct (target - overlap <=? 0) eqn:E1.
  - apply Z.leb_le in E1. destruct (Z.quot target 2 <=? 0) eqn:E2.
    + split; lia.
    + apply Z.leb_gt in E2.
      pose proof (Z.quot_le_mono 0 target 2) as H0.
      assert (Z.quot target 2 <= target).
      { rewrite Z.quot_div_nonneg by lia. apply Z.div_le_upper_bound; lia. }
      split; lia.
  - apply Z.leb_gt in E1. split; [lia|]. intros ->. lia.
Qed.

Lemma chunkTokens_snoc chunks chunk :
  chunkTokens (chunks ++ [chunk])
  = chunkTokens chunks ++ strings_Fields (Ingestion.Content chunk).
Proof.
  unfold chunkTokens. rewrite map_app, concat_app. cbn [map concat].
  rewrite app_nil_r. reflexivity.
Qed.

Section Windows.
Variable c : Chunker.
Variable words : list gostring.
Hypothesis Htarget : 0 < TargetSize (config c).
Hypothesis Hoverlap : 0 <= Overlap (config c).
Hypothesis Hwords : Forall isWord words.

Local Abbreviation target := (TargetSize (config c)).
Local Abbreviation step := (windowStep (TargetSize (config c)) (Overlap (config c))).

(** The [k]-th chunk holds the window of [target] words that starts
    at the word [k * step]. *)
Local Abbreviation windows chunks :=
  (forall (k : nat) chunk,
     chunks !! k = Some chunk ->
     Z.of_nat k * step < len words
     /\ Ingestion.Content chunk
        = strings_Join (take (Z.to_nat target)
                             (drop (Z.to_nat (Z.of_nat k * step)) words)) space).

(** The words before the index [cov] are in the chunks. *)
Local Abbreviation covered cov chunks :=
  (forall (j : nat) word,
     words !! j = Some word -> Z.of_nat j < cov ->
     exists chunk, chunk ∈ chunks /\ word ∈ strings_Fields (Ingestion.Content chunk)).

Lemma slice_words i e :
  0 <= i -> i < e -> e <= len words ->
  strings_Fields (strings_Join (slice words i e) space) = slice words i e.
Proof.
  intros Hi He Hn. apply Fields_Join. unfold slice.
  apply Forall_take, Forall_drop, Hwords.
Qed.

Lemma chunkFixedLoop_windows fuel : forall i cov chunks,
  (Z.to_nat (len words - i) <= fuel)%nat ->
  0 <= i -> i = len chunks * step -> i <= cov <= len words ->
  windows chunks -> covered cov chunks ->
  (Overlap (config c) = 0 ->
   cov = i /\ chunkTokens chunks = take (Z.to_nat i) words) ->
  exists out,
    chunkFixedLoop fuel c words i chunks = Some out
    /\ windows out /\ covered (len words) out
    /\ (Overlap (config c) = 0 -> chunkTokens out = words).
Proof.
  pose proof (windowStep_le _ _ Htarget Hoverlap) as [Hstep Hstep0].
  induction fuel as [|fuel IH]; intros i cov chunks Hf Hi Hik Hcov Hwin Hcovered Hpart.
  - cbn [chunkFixedLoop]. destruct (i <? len words) eqn:E; [lia|].
    apply Z.ltb_ge in E. exists chunks. split; [reflexivity|]. split; [exact Hwin|].
    split.
    + intros j word Hj Hlt. apply (Hcovered j word Hj). lia.
    + intros Ho. destruct (Hpart Ho) as [_ ->]. apply take_ge. unfold len in E. lia.
  - cbn [chunkFixedLoop]. destruct (i <? len words) eqn:E.
    2:{ apply Z.ltb_ge in E. exists chunks. split; [reflexivity|]. split; [exact Hwin|].
        split.
        - intros j word Hj Hlt. apply (Hcovered j word Hj). lia.
        - intros Ho. destruct (Hpart Ho) as [_ ->]. apply take_ge. unfold len in E. lia. }
    apply Z.ltb_lt in E. cbv zeta.
    set (e := if i + target >? len words then len words else i + target).
    assert (He : i < e /\ e <= len words /\ e <= i + target
                 /\ (e = len words \/ e = i + target)).
    { unfold e. destruct (i + target >? len words) eqn:E2.
      - rewrite Z.gtb_ltb in E2. apply Z.ltb_lt in E2. lia.
      - rewrite Z.gtb_ltb in E2. apply Z.ltb_ge in E2. lia. }
    destruct He as (He1 & He2 & He3 & He4).
    match goal with |- context [chunks ++ [?x]] => set (new := x) end.
    assert (Hnew : strings_Fields (Ingestion.Content new) = slice words i e).
    { subst new. cbn [Ingestion.Content]. apply slice_words; lia. }
    assert (Hslice : slice words i e
                     = take (Z.to_nat target) (drop (Z.to_nat i) words)).
    { unfold slice. destruct He4 as [He4|He4].
      - rewrite !take_ge; [reflexivity | |]; rewrite length_drop; unfold len in *; lia.
      - f_equal. lia. }
    assert (Hwin' : windows (chunks ++ [new])).
    { intros k chunk Hk. apply lookup_app_Some in Hk as [Hk|[Hge Hk]].
      - apply Hwin, Hk.
      - apply list_lookup_singleton_Some in Hk as [Hk <-].
        assert (Hki : Z.of_nat k * step = i) by (unfold len in Hik; nia).
        rewrite Hki. split; [exact E|]. subst new. cbn [Ingestion.Content].
        rewrite Hslice. reflexivity. }
    assert (Hcovered' : covered e (chunks ++ [new])).
    { intros j word Hj Hlt. destruct (Z.lt_ge_cases (Z.of_nat j) cov) as [Hold|Hnow].
      - destruct (Hcovered j word Hj Hold) as (chunk & Hin & Hword).
        exists chunk. split; [apply elem_of_app; left; exact Hin | exact Hword].
      - exists new. split; [apply elem_of_app; right; apply list_elem_of_singleton;
                            reflexivity|].
        rewrite Hnew. unfold slice. apply (list_elem_of_lookup_2 _ (j - Z.to_nat i)%nat).
        rewrite lookup_take_lt by lia. rewrite lookup_drop.
        replace (Z.to_nat i + (j - Z.to_nat i))%nat with j by lia. exact Hj. }
    assert (Hpart' : Overlap (config c) = 0 ->
                     chunkTokens (chunks ++ [new]) = take (Z.to_nat e) words).
    { intros Ho. destruct (Hpart Ho) as [_ Htok].
      rewrite chunkTokens_snoc, Htok, Hnew. unfold slice.
      rewrite take_take_drop. f_equal. lia. }
    destruct (e >=? len words) eqn:E3.
    + rewrite Z.geb_leb in E3. apply Z.leb_le in E3.
      eexists. split; [reflexivity|]. split; [exact Hwin'|]. split.
      * intros j word Hj Hlt. apply (Hcovered' j word Hj). lia.
      * intros Ho. rewrite (Hpart' Ho). apply take_ge. unfold len in *. lia.
    + rewrite Z.geb_leb in E3. apply Z.leb_gt in E3.
      apply (IH (i + step) e (chunks ++ [new])).
      * lia.
      * lia.
      * rewrite GoLibFacts.len_app. unfold len at 2. cbn [length]. lia.
      * lia.
      * exact Hwin'.
      * exact Hcovered'.
      * intros Ho. rewrite (Hstep0 Ho). split; [lia|].
        rewrite (Hpart' Ho). f_equal. lia.
Qed.

End Windows.

(** X24.  The fixed strategy of a chunker made by [NewChunker] always
    returns, and cuts the words of the content into windows: chunk [k]
    holds the [target] words that start at the word [k * step] (fewer
    at the end of the text), joined by single spaces, where [step] is
    the stride of the code: the target less the overlap, or half the
    target, at least 1, when the overlap is not below the target.
    Every word of the content is in a chunk; without overlap the words
    of the chunks, one chunk after the other, are the words of the
    content. *)
Theorem fixed_chunks_are_windows :
  forall (chunkerConfig : ChunkerConfig) (content : gostring),
    let c := NewChunker chunkerConfig in
    let words := strings_Fields content in
    let target := TargetSize (config c) in
    let step := windowStep target (Overlap (config c)) in
    exists chunks,
      chunkFixed c content = Some chunks
      /\ (forall (k : nat) chunk,
            chunks !! k = Some chunk ->
            Z.of_nat k * step < len words
            /\ strings_Fields (Ingestion.Content chunk)
               = take (Z.to_nat target) (drop (Z.to_nat (Z.of_nat k * step)) words)
            /\ Ingestion.Content chunk
               = strings_Join (strings_Fields (Ingestion.Content chunk)) space
            /\ 1 <= len (strings_Fields (Ingestion.Content chunk)) <= target)
      /\ (forall word, word ∈ words ->
            exists chunk, chunk ∈ chunks
                          /\ word ∈ strings_Fields (Ingestion.Content chunk))
      /\ (Overlap (config c) = 0 -> chunkTokens chunks = words).
Proof.
  intros chunkerConfig content c words target step.
  pose proof (ChunkerFacts.NewChunker_target chunkerConfig) as Htarget.
  pose proof (NewChunker_overlap chunkerConfig) as Hoverlap.
  pose proof (Fields_words content) as Hwords.
  fold c in Htarget, Hoverlap. fold words in Hwords.
  assert (Hloop : exists chunks,
            chunkFixed c content = Some chunks
            /\ (forall (k : nat) chunk,
                  chunks !! k = Some chunk ->
                  Z.of_nat k * step < len words
                  /\ Ingestion.Content chunk
                     = strings_Join (take (Z.to_nat target)
                                          (drop (Z.to_nat (Z.of_nat k * step)) words))
                                    space)
            /\ (forall (j : nat) word,
                  words !! j = Some word -> Z.of_nat j < len words ->
                  exists chunk, chunk ∈ chunks
                                /\ word ∈ strings_Fields (Ingestion.Content chunk))
            /\ (Overlap (config c) = 0 -> chunkTokens chunks = words)).
  { unfold chunkFixed. fold words. destruct (len words =? 0) eqn:E.
    - apply Z.eqb_eq, GoLibFacts.len_zero in E. exists []. split; [reflexivity|].
      split; [intros k chunk Hk; rewrite lookup_nil in Hk; discriminate|].
      split; [|intros _; rewrite E; reflexivity].
      intros j word Hj _. rewrite E, lookup_nil in Hj. discriminate.
    - apply (chunkFixedLoop_windows c words Htarget Hoverlap Hwords
               (S (length words)) 0 0 []).
      + unfold len. lia.
      + lia.
      + reflexivity.
      + pose proof (GoLibFacts.len_nonneg words). lia.
      + intros k chunk Hk. rewrite lookup_nil in Hk. discriminate.
      + intros j word _ Hlt. lia.
      + intros _. split; reflexivity. }
  destruct Hloop as (chunks & Hrun & Hwin & Hcov & Hpart).
  exists chunks. split; [exact Hrun|]. split; [|split; [|exact Hpart]].
  - intros k chunk Hk. destruct (Hwin k chunk Hk) as [Hlt Hcontent].
    assert (Hfields : strings_Fields (Ingestion.Content chunk)
                      = take (Z.to_nat target)
                             (drop (Z.to_nat (Z.of_nat k * step)) words)).
    { rewrite Hcontent. apply Fields_Join, Forall_take, Forall_drop, Hwords. }
    split; [exact Hlt|]. split; [exact Hfields|].
    split; [rewrite Hfields; exact Hcontent|].
    rewrite Hfields. unfold len in *. rewrite length_take, length_drop.
    pose proof (ChunkerFacts.windowStep_pos target (Overlap (config c))) as Hpos.
    fold step in Hpos.
    assert (0 <= Z.of_nat k * step) by nia. lia.
  - intros word Hin. apply list_elem_of_lookup_1 in Hin as [j Hj].
    apply (Hcov j word Hj). apply lookup_lt_Some in Hj. unfold len. lia.
Qed.

End FixedChunkFacts.

(** ** The resolved options of a query *)
From Stdlib Require Import Floats.SpecFloat Floats.FloatOps Floats.FloatAxioms.

Module OptionsFacts.
Import GoLib Repository Service QuerySpec.

(** A [float] above zero is not at or below zero. *)
Lemma positive_not_leb (x : float) :
  PrimFloat.ltb 0 x = true -> PrimFloat.leb x 0 = false.
Proof.
  rewrite ltb_spec, leb_spec. change (Prim2SF 0) with (S754_zero false).
  destruct (Prim2SF x) as [s|s| |s m e]; cbn; try discriminate;
    destruct s; try discriminate; reflexivity.
Qed.

(** The next [let] of the hypothesis [E] gets the name [y]. *)
Ltac name_let E y :=
  lazymatch type of E with
  | context C [let x := ?v in @?b x] =>
      pose (y := v);
      let t := eval cbv beta in (b y) in
      let g := context C [t] in
      change g in E
  end.

(** X25.  Whatever the tenant and the request say, the options that
    [buildQueryOptions] resolves can be used as they are: top_k and
    max_tokens are at least 1, the temperature is above zero, the
    minimum score is not at or below zero, and the system prompt is not
    empty.  The model is the LLM model of the tenant: a request cannot
    choose another. *)
Theorem resolved_options_are_in_range :
  forall (tenant : Tenant) (opts : option QueryOptions),
    let options := buildQueryOptions tenant opts in
    1 <= topK options
    /\ 1 <= maxTokens options
    /\ PrimFloat.ltb 0 (temperature options) = true
    /\ PrimFloat.leb (minScore options) 0 = false
    /\ nonEmpty (systemPrompt options) = true
    /\ model options = LLMModel (Tenant_Config tenant).
Proof.
  intros tenant opts options. subst options.
  remember (buildQueryOptions tenant opts) as out eqn:E.
  cbv delta [buildQueryOptions] in E. cbv beta in E.
  name_let E cfg. name_let E o1.
  assert (H1 : maxTokens o1 = 2048 /\ temperature o1 = temperatureDefault
               /\ model o1 = LLMModel (Tenant_Config tenant)) by (subst o1; auto).
  clearbody o1.
  name_let E o2.
  assert (H2 : 1 <= topK o2 /\ maxTokens o2 = 2048 /\ temperature o2 = temperatureDefault
               /\ model o2 = LLMModel (Tenant_Config tenant)).
  { subst o2. destruct H1 as (? & ? & ?).
    destruct (topK o1 <=? 0) eqn:C; cbn [topK maxTokens temperature model];
      repeat split; try assumption; lia. }
  clearbody o2. clear H1.
  name_let E o3.
  assert (H3 : 1 <= topK o3 /\ maxTokens o3 = 2048 /\ temperature o3 = temperatureDefault
               /\ model o3 = LLMModel (Tenant_Config tenant)
               /\ PrimFloat.leb (minScore o3) 0 = false).
  { subst o3. destruct H2 as (? & ? & ? & ?).
    destruct (PrimFloat.leb (minScore o2) 0) eqn:C;
      cbn [topK maxTokens temperature model minScore];
      repeat split; try assumption; try (vm_compute; reflexivity). }
  clearbody o3. clear H2.
  name_let E o4.
  assert (H4 : 1 <= topK o4 /\ 1 <= maxTokens o4
               /\ PrimFloat.ltb 0 (temperature o4) = true
               /\ PrimFloat.leb (minScore o4) 0 = false
               /\ nonEmpty (systemPrompt o4) = true
               /\ model o4 = LLMModel (Tenant_Config tenant)).
  { subst o4. destruct H3 as (? & Hm & Ht & ? & ?).
    destruct (negb (nonEmpty (systemPrompt o3))) eqn:C;
      cbn [topK maxTokens temperature model minScore systemPrompt];
      rewrite ?Hm, ?Ht; repeat split; try assumption; try lia;
      try (vm_compute; reflexivity).
    apply negb_false_iff. exact C. }
  clearbody o4. clear H3.
  destruct opts as [o|]; [|subst out; exact H4].
  name_let E o5.
  assert (H5 : 1 <= topK o5 /\ 1 <= maxTokens o5
               /\ PrimFloat.ltb 0 (temperature o5) = true
               /\ PrimFloat.leb (minScore o5) 0 = false
               /\ nonEmpty (systemPrompt o5) = true
               /\ model o5 = LLMModel (Tenant_Config tenant)).
  { subst o5. destruct H4 as (? & ? & ? & ? & ? & ?).
    destruct (Options_TopK o >? 0) eqn:C;
      cbn [topK maxTokens temperature model minScore systemPrompt];
      repeat split; try assumption. lia. }
  clearbody o5. clear H4.
  name_let E o6.
  assert (H6 : 1 <= topK o6 /\ 1 <= maxTokens o6
               /\ PrimFloat.ltb 0 (temperature o6) = true
               /\ PrimFloat.leb (minScore o6) 0 = false
               /\ nonEmpty (systemPrompt o6) = true
               /\ model o6 = LLMModel (Tenant_Config tenant)).
  { subst o6. destruct H5 as (? & ? & ? & ? & ? & ?).
    destruct (PrimFloat.ltb 0 (Options_MinScore o)) eqn:C;
      cbn [topK maxTokens temperature model minScore systemPrompt];
      repeat split; try assumption. apply positive_not_leb. exact C. }
  clearbody o6. clear H5.
  name_let E o7.
  assert (H7 : 1 <= topK o7 /\ 1 <= maxTokens o7
               /\ PrimFloat.ltb 0 (temperature o7) = true
               /\ PrimFloat.leb (minScore o7) 0 = false
               /\ nonEmpty (systemPrompt o7) = true
               /\ model o7 = LLMModel (Tenant_Config tenant)).
  { subst o7. destruct H6 as (? & ? & ? & ? & ? & ?).
    destruct (nonEmpty (Options_SystemPrompt o)) eqn:C;
      cbn [topK maxTokens temperature model minScore systemPrompt];
      repeat split; assumption. }
  clearbody o7. clear H6.
  name_let E o8.
  assert (H8 : 1 <= topK o8 /\ 1 <= maxTokens o8
               /\ PrimFloat.ltb 0 (temperature o8) = true
               /\ PrimFloat.leb (minScore o8) 0 = false
               /\ nonEmpty (systemPrompt o8) = true
               /\ model o8 = LLMModel (Tenant_Config tenant)).
  { subst o8. destruct H7 as (? & ? & ? & ? & ? & ?).
    destruct (PrimFloat.ltb 0 (Options_Temperature o)) eqn:C;
      cbn [topK maxTokens temperature model minScore systemPrompt];
      repeat split; assumption. }
  clearbody o8. clear H7.
  subst out. destruct H8 as (? & ? & ? & ? & ? & ?).
  destruct (Options_MaxTokens o >? 0) eqn:C;
    cbn [topK maxTokens temperature model minScore systemPrompt];
    repeat split; try assumption. lia.
Qed.

End OptionsFacts.
